(** * Gunny-bag tracker: a shallow embedding of [app.py], [prepare_data.py]
      and [train.py]

    The Flask application keeps three pieces of process-wide state (the
    count history, the selected video source and the detector with its
    tracker) and serves two generator-based response streams.  The
    development below models that state as a record, every handler and
    generator resumption as a function on it, and the external
    collaborators (OpenCV, the YOLO model, the file system, the clock) as
    parameters or as inputs supplied with each event. *)

From Stdlib Require Import ZArith QArith Qround String Ascii List Lia Bool.
From Stdlib Require Import Permutation DecimalString DecimalZ.
From Stdlib Require Import Floats.SpecFloat.
From stdpp Require Import base list strings gmap sorting.
Import ListNotations.

Local Open Scope string_scope.
Local Open Scope list_scope.
Local Open Scope Z_scope.

(** ** Python values and exceptions *)

(** What a call into the operating system can fail with. *)
Inductive oserror : Type :=
| FileNotFound       (* the path, or the directory above it, does not exist *)
| NotADirectory      (* [os.listdir] on a path that is no directory *)
| IsADirectory       (* a directory opened or copied as a file *)
| SameFile           (* [shutil.copy] of a file onto itself *)
| PermissionDenied
| ReadFailure        (* the content of a file cannot be read or decoded *)
| OtherFailure.

(** The exceptions the modelled code can raise. *)
Inductive pyexn : Type :=
| AttributeError   (* [.get] on a value that is not a dict *)
| TypeError        (* [os.path.join] on a value that is not a str *)
| GeneratorExit    (* thrown into a generator by [close()] *)
| Cv2Error         (* any failure inside an OpenCV call *)
| ValueError       (* [int] of a NaN, or of a string that is no numeral *)
| OverflowError    (* [int] of an infinity *)
| OSError (e : oserror)  (* a failed call into the operating system *)
| TrainingError.   (* any failure inside the training framework *)

Inductive result (A : Type) : Type :=
| Ok (a : A)
| Raise (e : pyexn).
Arguments Ok {A} a.
Arguments Raise {A} e.

(** The answer of the operating system as the result of the call. *)
Definition os_result {A} (r : A + oserror) : result A :=
  match r with
  | inl a => Ok a
  | inr e => Raise (OSError e)
  end.

#[global] Instance result_ret : MRet result := fun A a => Ok a.
#[global] Instance result_bind : MBind result := fun A B k r =>
  match r with
  | Ok a => k a
  | Raise e => Raise e
  end.

(** What [request.get_json()] can return: any JSON value.  A JSON object
    becomes a Python dict, given here by its bindings (first match wins). *)
#[warnings="-register-all"]
Inductive json : Type :=
| JNull
| JBool (b : bool)
| JNum (n : Z)
| JStr (s : string)
| JArr (l : list json)
| JObj (d : list (string * json)).

(** [d.get(key, default)] on a dict. *)
Fixpoint dict_get (d : list (string * json)) (key : string) (default : json) : json :=
  match d with
  | [] => default
  | (k, v) :: d' => if String.eqb k key then v else dict_get d' key default
  end.

Fixpoint dict_has (d : list (string * json)) (key : string) : bool :=
  match d with
  | [] => false
  | (k, _) :: d' => if String.eqb k key then true else dict_has d' key
  end.

(** [str(n)] for a Python int. *)
Definition py_str_int (n : Z) : string := NilZero.string_of_int (Z.to_int n).

(** [int(x)] for a Python float (or a one-element tensor): truncation
    toward zero. *)
Definition py_int (x : Q) : Z := Z.quot (Qnum x) (Zpos (Qden x)).

(** A Python float is an IEEE 754 binary64 number: 53 bits of precision,
    exponents below 1024.  [float_of_int] is the conversion that [*]
    applies to an int operand (to the nearest float, ties to even) and
    [float_mul] the correctly rounded product. *)
Definition float_of_int (n : Z) : spec_float := binary_normalize 53 1024 n 0 false.

Definition float_mul (x y : spec_float) : spec_float := SFmul 53 1024 x y.

(** [int(x)] for a float: truncation toward zero; [int] raises
    [ValueError] on a NaN and [OverflowError] on an infinity. *)
Definition int_of_float (x : spec_float) : result Z :=
  match x with
  | S754_nan => Raise ValueError
  | S754_infinity _ => Raise OverflowError
  | S754_zero _ => Ok 0
  | S754_finite s m e =>
      Ok (if 0 <=? e then cond_Zopp s (Zpos m) * 2 ^ e
          else Z.quot (cond_Zopp s (Zpos m)) (2 ^ (- e)))
  end.


(** [n <= x] and [x <= n] for an int [n] and a float [x]: Python compares
    the exact values, and every comparison with a NaN is false. *)
Definition int_le_float (n : Z) (x : spec_float) : bool :=
  match x with
  | S754_nan => false
  | S754_infinity s => negb s
  | S754_zero _ => n <=? 0
  | S754_finite s m e =>
      n * 2 ^ Z.max 0 (- e) <=? cond_Zopp s (Zpos m) * 2 ^ Z.max 0 e
  end.

Definition float_le_int (x : spec_float) (n : Z) : bool :=
  match x with
  | S754_nan => false
  | S754_infinity s => s
  | S754_zero _ => 0 <=? n
  | S754_finite s m e =>
      cond_Zopp s (Zpos m) * 2 ^ Z.max 0 e <=? n * 2 ^ Z.max 0 (- e)
  end.

(** [n <= m * 2^e] and [m * 2^e <= n] on integers, and the number of bits
    by which a mantissa is shifted when it is rounded to 53 bits. *)
Definition above (m e n : Z) : Prop := n * 2 ^ Z.max 0 (- e) <= m * 2 ^ Z.max 0 e.
Definition below (m e n : Z) : Prop := m * 2 ^ Z.max 0 e <= n * 2 ^ Z.max 0 (- e).
Definition shift_of (m e : Z) : Z := fexp 53 1024 (Zdigits2 m + e) - e.

Definition LF : string := String (ascii_of_nat 10) EmptyString.
Definition CRLF : string := String (ascii_of_nat 13) LF.

(** ** [os.path] *)

Definition startswith_slash (s : string) : bool :=
  match s with
  | String c _ => Ascii.eqb c "/"%char
  | EmptyString => false
  end.

Fixpoint endswith_slash (s : string) : bool :=
  match s with
  | EmptyString => false
  | String c EmptyString => Ascii.eqb c "/"%char
  | String _ s' => endswith_slash s'
  end.

(** One round of the loop of [posixpath.join]. *)
Definition join2 (path b : string) : string :=
  if startswith_slash b then b
  else if orb (String.eqb path "") (endswith_slash path) then path +:+ b
  else path +:+ "/" +:+ b.

Definition path_join (a : string) (ps : list string) : string :=
  fold_left join2 ps a.

(** ** Counter and history ([process_frame], lines 45-53) *)

(** One element of [results[0].boxes]: the class tensor and the track id. *)
Record Box : Type := { cls : Q; track_id : option Z }.

Definition gunny_bag_class_id : Z := 0.

(** [sum(xs)]: Python's left-to-right sum starting from 0. *)
Definition py_sum (xs : list Z) : Z := fold_left Z.add xs 0.

(** [int(r.cls)]. *)
Definition class_id (r : Box) : Z := py_int (cls r).

(** [sum(1 for r in boxes if int(r.cls) == target)]. *)
Definition count_class (boxes : list Box) (target : Z) : Z :=
  py_sum (map (fun _ => 1) (List.filter (fun r => class_id r =? target) boxes)).

(** A history sample [(timestamp, current_count)]. *)
Definition Sample : Type := Q * Z.

(** [detection_history.pop(0)] on a non-empty list. *)
Definition pop0 (h : list Sample) : list Sample := tl h.

(** Lines 49-53: append, then drop the head if the length exceeds 100. *)
Definition record_sample (h : list Sample) (s : Sample) : list Sample :=
  let h1 := h ++ [s] in
  if (100 <? length h1)%nat then pop0 h1 else h1.

(** ** The application state and its collaborators *)

(** What [cv2.VideoCapture] is constructed from. *)
Inductive CapArg : Type :=
| CapIndex (i : Z)               (* a camera index *)
| CapName (filename : string).   (* a URL or a file path *)

(** A [cv2.VideoCapture] object.  [cap_reads] counts the calls of [read()],
    [cap_released] records that [release()] was called. *)
Record Capture : Type := {
  cap_arg : CapArg;
  cap_opened : bool;
  cap_reads : nat;
  cap_released : bool
}.

Definition VideoCapture (a : CapArg) (opens : bool) : Capture :=
  {| cap_arg := a; cap_opened := opens; cap_reads := 0; cap_released := false |}.

Definition cap_read (c : Capture) : Capture :=
  {| cap_arg := cap_arg c; cap_opened := cap_opened c;
     cap_reads := S (cap_reads c); cap_released := cap_released c |}.

Definition cap_release (c : Capture) : Capture :=
  {| cap_arg := cap_arg c; cap_opened := false;
     cap_reads := cap_reads c; cap_released := true |}.

(** A generator object made by [generate_frames()].  The capture is a local
    variable of the generator, so the generator owns it; a finished
    generator remembers the last state of its capture, if it ever had one. *)
Inductive FrameGen : Type :=
| GenCreated
| GenSuspended (cap : Capture)
| GenFinished (last : option Capture).

(** What resuming or closing a generator gives its caller. *)
Inductive GenOutcome : Type :=
| Yielded (part : string)
| StopIteration
| Raised (e : pyexn)
| Closed.

(** [results[0]]: the detections and the frame drawn by [plot()]. *)
Record Results (Frame : Type) : Type := { boxes : list Box; plot : Frame }.
Arguments boxes {Frame} r.
Arguments plot {Frame} r.

(** The collaborators the application code calls but does not define. *)
Class Externals : Type := {
  (** raster images *)
  Frame : Type;
  (** the YOLO model object together with the state of the tracker it
      holds ([persist=True] keeps that state between calls) *)
  Model : Type;
  (** lines 29-33 are OpenCV calls only *)
  enhance_contrast : Frame -> result Frame;
  (** [model.track(enhanced, persist=True, tracker="bytetrack.yaml")[0]] *)
  model_track : Model -> Frame -> Model * Results Frame;
  (** [YOLO(path)] *)
  YOLO : string -> Model;
  (** [cv2.putText] with the fixed position, font and colour *)
  putText : Frame -> string -> Frame;
  (** [cv2.imencode('.jpg', _)[1].tobytes()] *)
  imencode_jpg : Frame -> string;
  (** [os.getcwd()]; the program never changes directory *)
  cwd : string
}.

Section App.
Context {E : Externals}.

(** The module-level globals of [app.py].  [source_reads] is ghost state:
    it logs, per generator, every evaluation of [current_video_source] made
    by [get_video_source].  ([total_bags_counted] is never used after its
    initialisation and is left out.) *)
Record World : Type := {
  current_video_source : json;
  detection_history : list Sample;
  model : Model;
  frame_gens : list FrameGen;
  source_reads : list (nat * json)
}.

Definition set_source (v : json) (w : World) : World :=
  {| current_video_source := v; detection_history := detection_history w;
     model := model w; frame_gens := frame_gens w;
     source_reads := source_reads w |}.

Definition set_history (h : list Sample) (w : World) : World :=
  {| current_video_source := current_video_source w; detection_history := h;
     model := model w; frame_gens := frame_gens w;
     source_reads := source_reads w |}.

Definition set_model (m : Model) (w : World) : World :=
  {| current_video_source := current_video_source w;
     detection_history := detection_history w;
     model := m; frame_gens := frame_gens w;
     source_reads := source_reads w |}.

Definition set_gens (gs : list FrameGen) (w : World) : World :=
  {| current_video_source := current_video_source w;
     detection_history := detection_history w;
     model := model w; frame_gens := gs;
     source_reads := source_reads w |}.

Definition log_source_read (g : nat) (w : World) : World :=
  {| current_video_source := current_video_source w;
     detection_history := detection_history w;
     model := model w; frame_gens := frame_gens w;
     source_reads := source_reads w ++ [(g, current_video_source w)] |}.

Definition set_gen (g : nat) (st : FrameGen) (w : World) : World :=
  set_gens (<[g := st]> (frame_gens w)) w.

(** *** Startup (lines 11-26) *)

Record Startup : Type := {
  MODEL_PATH : string;
  stdout : list string;
  world0 : World
}.

Definition configured_model_path : string := path_join cwd ["model"; "best.pt"].

Definition startup (path_exists : string -> bool) : Startup :=
  let MODEL_PATH0 := configured_model_path in
  let '(MODEL_PATH1, out) :=
    if negb (path_exists MODEL_PATH0) then
      let MODEL_PATH1 := "yolov8n.pt" in
      (MODEL_PATH1,
       ["Custom model not found at " +:+ MODEL_PATH1 +:+ ", using pretrained model"])
    else (MODEL_PATH0, ["Using custom model: " +:+ MODEL_PATH0]) in
  {| MODEL_PATH := MODEL_PATH1;
     stdout := out;
     world0 := {| current_video_source := JStr "webcam";
                  detection_history := [];
                  model := YOLO MODEL_PATH1;
                  frame_gens := [];
                  source_reads := [] |} |}.

(** *** [process_frame] (lines 35-69) *)

Definition process_frame (w : World) (frame : Frame) (now : Q)
  : result (World * (Frame * Z)) :=
  enhanced ← enhance_contrast frame;
  let '(m1, results) := model_track (model w) enhanced in
  let current_count := count_class (boxes results) gunny_bag_class_id in
  let h := record_sample (detection_history w) (now, current_count) in
  let annotated_frame :=
    putText (plot results) ("Gunny Bags: " +:+ py_str_int current_count) in
  Ok (set_history h (set_model m1 w), (annotated_frame, current_count)).

(** The pipeline applied to successive frames, each with the clock reading
    taken while it is processed; the counts are returned in order. *)
Fixpoint process_frames (w : World) (inputs : list (Frame * Q))
  : result (World * list Z) :=
  match inputs with
  | [] => Ok (w, [])
  | (frame, now) :: rest =>
      r ← process_frame w frame now;
      r' ← process_frames (fst r) rest;
      Ok (fst r', snd (snd r) :: snd r')
  end.

(** *** [get_video_source] (lines 71-81) *)

(** [current_video_source == s] for a string literal [s]. *)
Definition source_is (sel : json) (s : string) : bool :=
  match sel with
  | JStr s' => String.eqb s' s
  | _ => false
  end.

(** [os.path.join(os.getcwd(), sel)]. *)
Definition join_cwd (sel : json) : result string :=
  match sel with
  | JStr s => Ok (path_join cwd [s])
  | _ => Raise TypeError
  end.

(** The global is evaluated afresh at line 74, at line 76 and at line 80,
    as far as control gets, and every evaluation is logged.  [g] names
    the calling generator (for the ghost log); [opens] is whether the
    device, URL or file could be opened. *)
Definition get_video_source (g : nat) (opens : bool) (w : World)
  : World * result Capture :=
  let w1 := log_source_read g w in
  if source_is (current_video_source w) "webcam" then
    (w1, Ok (VideoCapture (CapIndex 0) opens))
  else
    let w2 := log_source_read g w1 in
    if source_is (current_video_source w1) "rtsp" then
      (w2, Ok (VideoCapture (CapName "rtsp://your_cctv_feed") opens))
    else
      let w3 := log_source_read g w2 in
      (w3, video_path ← join_cwd (current_video_source w2);
           Ok (VideoCapture (CapName video_path) opens)).

(** What one call of [get_video_source] amounts to when nothing changes
    the selection in between: the argument the capture is made from, as a
    function of the selection, and the number of evaluations made. *)
Definition video_source_arg (sel : json) : result CapArg :=
  match sel with
  | JStr s =>
      if String.eqb s "webcam" then Ok (CapIndex 0)
      else if String.eqb s "rtsp" then Ok (CapName "rtsp://your_cctv_feed")
      else Ok (CapName (path_join cwd [s]))
  | _ => Raise TypeError
  end.

Definition source_evals (sel : json) : nat :=
  if source_is sel "webcam" then 1
  else if source_is sel "rtsp" then 2 else 3.

Definition log_source_evals (g : nat) (w : World) : World :=
  {| current_video_source := current_video_source w;
     detection_history := detection_history w;
     model := model w; frame_gens := frame_gens w;
     source_reads :=
       source_reads w
       ++ repeat (g, current_video_source w)
                 (source_evals (current_video_source w)) |}.

(** *** [generate_frames] (lines 83-98) *)

Definition mjpeg_part (jpeg : string) : string :=
  "--frame" +:+ CRLF +:+ "Content-Type: image/jpeg" +:+ CRLF +:+ CRLF
  +:+ jpeg +:+ CRLF.

(** From the test of the [while] up to the next [yield], or to the end of
    the generator through the [finally] clause.  [rd] is what [cap.read()]
    returns ([None] for [success = False]), [now] what [time.time()]
    returns. *)
Definition frames_loop (w : World) (g : nat) (cap : Capture)
    (rd : option Frame) (now : Q) : World * GenOutcome :=
  if cap_opened cap then
    let cap1 := cap_read cap in
    match rd with
    | None => (set_gen g (GenFinished (Some (cap_release cap1))) w, StopIteration)
    | Some frame =>
        match process_frame w frame now with
        | Raise e => (set_gen g (GenFinished (Some (cap_release cap1))) w, Raised e)
        | Ok (w1, (processed, _)) =>
            (set_gen g (GenSuspended cap1) w1,
             Yielded (mjpeg_part (imencode_jpg processed)))
        end
    end
  else (set_gen g (GenFinished (Some (cap_release cap))) w, StopIteration).

(** [next(gen)]. *)
Definition gen_next (w : World) (g : nat) (opens : bool)
    (rd : option Frame) (now : Q) : World * GenOutcome :=
  match frame_gens w !! g with
  | None => (w, StopIteration)
  | Some GenCreated =>
      match get_video_source g opens w with
      | (w1, Raise e) => (set_gen g (GenFinished None) w1, Raised e)
      | (w1, Ok cap) => frames_loop w1 g cap rd now
      end
  | Some (GenSuspended cap) => frames_loop w g cap rd now
  | Some (GenFinished _) => (w, StopIteration)
  end.

(** [gen.close()], which the server calls when the client goes away:
    [GeneratorExit] is raised at the [yield] and leaves through [finally]. *)
Definition gen_close (w : World) (g : nat) : World * GenOutcome :=
  match frame_gens w !! g with
  | None => (w, Closed)
  | Some GenCreated => (set_gen g (GenFinished None) w, Closed)
  | Some (GenSuspended cap) =>
      (set_gen g (GenFinished (Some (cap_release cap))) w, Closed)
  | Some (GenFinished _) => (w, Closed)
  end.

(** [video_feed] (line 216): a new generator object, not yet started. *)
Definition video_feed (w : World) : World * nat :=
  (set_gens (frame_gens w ++ [GenCreated]) w, length (frame_gens w)).

(** *** [change_source] (lines 230-235) *)

Definition change_source (w : World) (data : json) : result (World * json) :=
  match data with
  | JObj d =>
      let w1 := set_source (dict_get d "source" (JStr "webcam")) w in
      Ok (w1, JObj [("success", JBool true); ("source", current_video_source w1)])
  | _ => Raise AttributeError
  end.

(** *** The server as a transition system *)

(** One thing that happens to the process.  [GenNext] carries what the
    outside world answers during that resumption: whether the capture
    opens (used by the first resumption only), the result of [cap.read()]
    and the clock. *)
Inductive Event : Type :=
| ChangeSource (body : json)
| VideoFeed
| GenNext (g : nat) (opens : bool) (rd : option Frame) (now : Q)
| GenClose (g : nat).

Inductive Output : Type :=
| OutJson (r : result json)
| OutStream (g : nat)
| OutGen (o : GenOutcome).

Definition step (w : World) (e : Event) : World * Output :=
  match e with
  | ChangeSource body =>
      match change_source w body with
      | Ok (w1, resp) => (w1, OutJson (Ok resp))
      | Raise x => (w, OutJson (Raise x))
      end
  | VideoFeed => let '(w1, g) := video_feed w in (w1, OutStream g)
  | GenNext g opens rd now =>
      let '(w1, o) := gen_next w g opens rd now in (w1, OutGen o)
  | GenClose g => let '(w1, o) := gen_close w g in (w1, OutGen o)
  end.

Definition run (w : World) (evs : list Event) : World :=
  fold_left (fun w e => fst (step w e)) evs w.

Definition is_change_source (e : Event) : bool :=
  match e with
  | ChangeSource _ => true
  | _ => false
  end.

(** The sample an event adds to the history: a resumption that yields has
    put one frame through [process_frame]. *)
Definition step_record (w : World) (e : Event) : list Sample :=
  match e, snd (step w e) with
  | GenNext _ _ (Some frame) now, OutGen (Yielded _) =>
      match process_frame w frame now with
      | Ok (_, (_, current_count)) => [(now, current_count)]
      | Raise _ => []
      end
  | _, _ => []
  end.

(** The samples of the frames processed during a run, in order. *)
Fixpoint recorded (w : World) (evs : list Event) : list Sample :=
  match evs with
  | [] => []
  | e :: evs' => step_record w e ++ recorded (fst (step w e)) evs'
  end.

Definition is_yield (o : Output) : bool :=
  match o with
  | OutGen (Yielded _) => true
  | _ => false
  end.

(** The number of frames the streams of a run have yielded. *)
Fixpoint frames_yielded (w : World) (evs : list Event) : nat :=
  match evs with
  | [] => 0
  | e :: evs' =>
      ((if is_yield (snd (step w e)) then 1 else 0)
       + frames_yielded (fst (step w e)) evs')%nat
  end.

(** The number of frames generator [g] has yielded during a run. *)
Fixpoint gen_yields (g : nat) (w : World) (evs : list Event) : nat :=
  match evs with
  | [] => 0
  | e :: evs' =>
      ((match e, snd (step w e) with
        | GenNext g' _ _ _, OutGen (Yielded _) => if Nat.eqb g' g then 1 else 0
        | _, _ => 0
        end) + gen_yields g (fst (step w e)) evs')%nat
  end.

(** The evaluations of the source selection made by generator [g], and
    how many there are. *)
Definition reads_of (g : nat) (w : World) : list (nat * json) :=
  List.filter (fun p => Nat.eqb (fst p) g) (source_reads w).

Definition reads_by (g : nat) (w : World) : nat := length (reads_of g w).

(** *** [count_updates] (lines 218-228) *)

(** The generator [generate_counts()] is either not started or suspended at
    one of its two [yield]s; the [while True] loop has no exit. *)
Inductive CountGen : Type :=
| CountCreated
| CountSuspended.

Inductive Action : Type :=
| Sleep (seconds : Q)
| Emit (msg : string).

(** Lines 222-226, on the history as it is when the test is made. *)
Definition count_message (h : list Sample) : string :=
  match last h with
  | Some (_, count) => "data: " +:+ py_str_int count +:+ LF +:+ LF
  | None => "data: 0" +:+ LF +:+ LF
  end.

(** [next(gen)]: what the generator does until it is suspended again. *)
Definition counts_next (w : World) (st : CountGen) : list Action * CountGen :=
  match st with
  | CountCreated => ([Emit (count_message (detection_history w))], CountSuspended)
  | CountSuspended =>
      ([Sleep (1 # 2); Emit (count_message (detection_history w))], CountSuspended)
  end.

(** Successive resumptions, the k-th one seeing the k-th world. *)
Fixpoint counts_run (ws : list World) (st : CountGen) : list Action * CountGen :=
  match ws with
  | [] => ([], st)
  | w :: ws' =>
      let '(acts, st1) := counts_next w st in
      let '(rest, st2) := counts_run ws' st1 in
      (acts ++ rest, st2)
  end.

(** The messages of a trace, each with the time slept before it. *)
Fixpoint timeline (clock : Q) (acts : list Action) : list (Q * string) :=
  match acts with
  | [] => []
  | Sleep d :: acts' => timeline (clock + d)%Q acts'
  | Emit m :: acts' => (clock, m) :: timeline clock acts'
  end.

(** *** Predicates used to state how the server evolves *)

(** What resuming generator [g] does to [g] itself and what it returns. *)
Definition loop_self (w' : World) (o : GenOutcome) (g : nat) (c : Capture) : Prop :=
  (exists part, o = Yielded part /\ cap_opened c = true /\
                frame_gens w' !! g = Some (GenSuspended (cap_read c)))
  \/
  ((forall part, o <> Yielded part) /\
   frame_gens w' !! g
   = Some (GenFinished (Some (cap_release (if cap_opened c then cap_read c else c))))).

(** The reads made on the capture of [g] against the frames [g] yielded. *)
Definition reads_match (w : World) (g : nat) (n : nat) : Prop :=
  match frame_gens w !! g with
  | Some (GenSuspended c) => cap_reads c = n
  | Some (GenFinished (Some c)) => (n <= cap_reads c <= n + 1)%nat
  | _ => n = 0%nat
  end.

(** The effect of running the loop of [generate_frames] from its test to
    the next suspension or to the end. *)
Definition loop_post (w : World) (g : nat) (c : Capture) (rd : option Frame)
    (now : Q) (w' : World) (o : GenOutcome) : Prop :=
  current_video_source w' = current_video_source w /\
  source_reads w' = source_reads w /\
  exists st, frame_gens w' = <[g := st]> (frame_gens w) /\
    ((st = GenFinished (Some (cap_release (if cap_opened c then cap_read c else c))) /\
      detection_history w' = detection_history w /\ model w' = model w /\
      ((cap_opened c = false /\ o = StopIteration) \/
       (cap_opened c = true /\ rd = None /\ o = StopIteration) \/
       (cap_opened c = true /\ exists frame e,
          rd = Some frame /\ process_frame w frame now = Raise e /\ o = Raised e)))
     \/
     (st = GenSuspended (cap_read c) /\ cap_opened c = true /\
      exists frame w1 r,
        rd = Some frame /\ process_frame w frame now = Ok (w1, r) /\
        detection_history w' = detection_history w1 /\ model w' = model w1 /\
        o = Yielded (mjpeg_part (imencode_jpg (fst r))))).

(** How one event can change generator [g]: not at all, by creating it,
    by closing it before it started, by opening its capture, or by
    resuming or closing it while it holds a capture.  Only the fourth
    evaluates the source selection for [g]. *)
Definition gen_change (w w' : World) (g : nat) : Prop :=
  (frame_gens w' !! g = frame_gens w !! g /\ reads_of g w' = reads_of g w)
  \/ (frame_gens w !! g = None /\ frame_gens w' !! g = Some GenCreated /\
      reads_of g w' = reads_of g w)
  \/ (frame_gens w !! g = Some GenCreated /\
      frame_gens w' !! g = Some (GenFinished None) /\
      reads_of g w' = reads_of g w)
  \/ (frame_gens w !! g = Some GenCreated /\
      reads_of g w'
      = reads_of g w ++ repeat (g, current_video_source w)
                               (source_evals (current_video_source w)) /\
      In (g, current_video_source w) (source_reads w') /\
      ((exists e, video_source_arg (current_video_source w) = Raise e /\
                  frame_gens w' !! g = Some (GenFinished None))
       \/
       (exists c, video_source_arg (current_video_source w) = Ok (cap_arg c) /\
          ((frame_gens w' !! g = Some (GenSuspended c) /\ cap_released c = false) \/
           (frame_gens w' !! g = Some (GenFinished (Some c)) /\
            cap_released c = true /\ cap_opened c = false)))))
  \/ (exists c c',
        frame_gens w !! g = Some (GenSuspended c) /\
        reads_of g w' = reads_of g w /\
        cap_arg c' = cap_arg c /\
        ((frame_gens w' !! g = Some (GenSuspended c') /\
          cap_released c' = cap_released c) \/
         (frame_gens w' !! g = Some (GenFinished (Some c')) /\
          cap_released c' = true /\ cap_opened c' = false))).

(** What an event can do to the history and to the model: nothing, or
    exactly one pass of [process_frame] over a frame that was read. *)
Definition pipeline_change (w w' : World) (rd : option Frame) (now : Q) : Prop :=
  (detection_history w' = detection_history w /\ model w' = model w)
  \/ (exists frame enhanced,
        rd = Some frame /\ enhance_contrast frame = Ok enhanced /\
        model w' = fst (model_track (model w) enhanced) /\
        detection_history w' =
          record_sample (detection_history w)
            (now, count_class (boxes (snd (model_track (model w) enhanced)))
                              gunny_bag_class_id)).

(** The bookkeeping of source reads per generator: a generator that holds
    or held a capture has made the evaluations of one call of
    [get_video_source], all on the same value, from which the capture was
    made. *)
Definition reads_ok (w : World) (g : nat) : Prop :=
  match frame_gens w !! g with
  | None | Some GenCreated => reads_of g w = []
  | Some (GenSuspended c) | Some (GenFinished (Some c)) =>
      exists sel, reads_of g w = repeat (g, sel) (source_evals sel) /\
                  video_source_arg sel = Ok (cap_arg c)
  | Some (GenFinished None) =>
      reads_of g w = [] \/
      exists sel, reads_of g w = repeat (g, sel) (source_evals sel)
  end.

(** While the selection stays [sel], whatever is opened is opened on the
    argument made from [sel]. *)
Definition opened_on (a : CapArg) (w : World) (g : nat) : Prop :=
  match frame_gens w !! g with
  | Some (GenSuspended c) | Some (GenFinished (Some c)) => cap_arg c = a
  | _ => True
  end.

(** A finished generator that had a capture has released it. *)
Definition released_ok (w : World) (g : nat) : Prop :=
  match frame_gens w !! g with
  | Some (GenFinished (Some c)) => cap_released c = true /\ cap_opened c = false
  | _ => True
  end.

End App.

(** ** [prepare_data.py] *)

(** [s.endswith(suffix)]. *)
Fixpoint endswith (s suffix : string) : bool :=
  String.eqb s suffix ||
  match s with
  | EmptyString => false
  | String _ s' => endswith s' suffix
  end.

Fixpoint contains_slash (s : string) : bool :=
  match s with
  | EmptyString => false
  | String c s' => Ascii.eqb c "/"%char || contains_slash s'
  end.

(** [os.path.basename(p)]: what follows the last slash. *)
Fixpoint basename (p : string) : string :=
  match p with
  | EmptyString => EmptyString
  | String c p' => if contains_slash p then basename p' else p
  end.

(** [p.rfind(c)] on the characters of [p] from position [i] on; -1 if
    there is none. *)
Fixpoint rfind (c : ascii) (cs : list ascii) (i : Z) : Z :=
  match cs with
  | [] => -1
  | x :: cs' =>
      let r := rfind c cs' (i + 1) in
      if 0 <=? r then r else if Ascii.eqb x c then i else -1
  end.

(** [os.path.splitext(p)[0]]: cut at the last dot, unless that dot is not
    after the last slash or only dots precede it in the file name. *)
Definition splitext_root (p : string) : string :=
  let cs := list_ascii_of_string p in
  let sepIndex := rfind "/"%char cs 0 in
  let dotIndex := rfind "."%char cs 0 in
  if sepIndex <? dotIndex then
    let filenameIndex := sepIndex + 1 in
    let before_dot :=
      firstn (Z.to_nat (dotIndex - filenameIndex)) (skipn (Z.to_nat filenameIndex) cs) in
    if existsb (fun x => negb (Ascii.eqb x "."%char)) before_dot
    then string_of_list_ascii (firstn (Z.to_nat dotIndex) cs)
    else p
  else p.

Definition is_slash (c : ascii) : bool := Ascii.eqb c "/"%char.

Fixpoint drop_slashes (cs : list ascii) : list ascii :=
  match cs with
  | c :: cs' => if is_slash c then drop_slashes cs' else cs
  | [] => []
  end.

(** [os.path.split(p)[0]]: up to the last slash, trailing slashes removed
    unless there is nothing else. *)
Definition split_head (p : string) : string :=
  let cs := list_ascii_of_string p in
  let head := firstn (Z.to_nat (rfind "/"%char cs 0 + 1)) cs in
  if negb (forallb is_slash head)
  then string_of_list_ascii (List.rev (drop_slashes (List.rev head)))
  else string_of_list_ascii head.

Definition ishidden (name : string) : bool :=
  match name with
  | String c _ => Ascii.eqb c "."%char
  | EmptyString => false
  end.

(** [glob.has_magic]: the pattern holds one of [*], [?] and [[]. *)
Definition is_magic (c : ascii) : bool :=
  Ascii.eqb c "*"%char || Ascii.eqb c "?"%char || Ascii.eqb c "["%char.

Definition has_magic (s : string) : bool :=
  existsb is_magic (list_ascii_of_string s).

(** What [glob] sees of the file system: the names [os.scandir] yields for
    a directory (none when it cannot be listed; the empty name stands for
    the current directory), and the directories that match a directory
    pattern with wildcards. *)
Record GlobEnv : Type := {
  scandir : string -> list string;
  glob_dirs : string -> list string
}.

(** [glob(os.path.join(images_dir, '*.' + ext))]: the pattern is split into
    its directory part and [*.ext]; a directory part with wildcards is
    expanded, one without is taken as it is; from every such directory
    come the entries that are not hidden and end in [.ext], each joined to
    the directory. *)
Definition glob_ext (env : GlobEnv) (images_dir ext : string) : list string :=
  let pattern := path_join images_dir ["*." +:+ ext] in
  let dirname := split_head pattern in
  let dirs := if has_magic dirname then glob_dirs env dirname else [dirname] in
  flat_map (fun dir =>
              map (fun name => path_join dir [name])
                  (List.filter
                     (fun name => negb (ishidden name) && endswith name ("." +:+ ext))
                     (scandir env dir)))
           dirs.

(** Lines 28-30. *)
Definition image_files (env : GlobEnv) (images_dir : string) : list string :=
  fold_left (fun acc ext => acc ++ glob_ext env images_dir ext)
            ["jpg"; "jpeg"; "png"] [].

(** The directory part of the three patterns. *)
Definition pattern_dir (images_dir : string) : string :=
  split_head (path_join images_dir ["*.jpg"]).




(** Slicing with a Python int that may be negative or too large. *)
Definition slice_bound (n : nat) (k : Z) : nat :=
  if k <? 0 then Z.to_nat (Z.max 0 (Z.of_nat n + k))
  else Nat.min (Z.to_nat k) n.

Definition slice_to {A} (l : list A) (k : Z) : list A :=
  firstn (slice_bound (length l) k) l.

Definition slice_from {A} (l : list A) (k : Z) : list A :=
  skipn (slice_bound (length l) k) l.

(** Line 34: [int(len(image_files) * split_ratio)], for a float ratio. *)
Definition split_index (len : nat) (split_ratio : spec_float) : result Z :=
  int_of_float (float_mul (float_of_int (Z.of_nat len)) split_ratio).

(** The file system as far as the script looks at it: [os.path.exists]. *)
Definition FS : Type := string -> bool.

(** [Copy src dir name] is [shutil.copy(src, os.path.join(dir, name))]. *)
Inductive FsOp : Type :=
| MakeDirs (path : string)
| Copy (src dst_dir dst_name : string).

Definition copy_dst (dst_dir dst_name : string) : string :=
  path_join dst_dir [dst_name].

(** What a call that returns does: [os.makedirs] makes the path and the
    missing directories above it; [shutil.copy] makes its destination. *)
Definition apply_op (fs : FS) (op : FsOp) : FS :=
  match op with
  | MakeDirs path =>
      fun q => String.eqb q path || String.prefix (q +:+ "/") path || fs q
  | Copy _ dst_dir dst_name =>
      fun q => String.eqb q (copy_dst dst_dir dst_name) || fs q
  end.

Definition apply_ops (fs : FS) (ops : list FsOp) : FS := fold_left apply_op ops fs.

(** What the operating system answers to a call of [os.makedirs] or
    [shutil.copy] made after the calls [done] have returned: [None] when
    the call returns, the exception when it raises.  The script catches
    nothing, so the first call that raises ends the run. *)
Definition OsAnswers : Type := list FsOp -> FsOp -> option oserror.

(** The state of a run: the file system and the calls that have returned. *)
Definition RunState : Type := FS * list FsOp.

Definition os_call (os : OsAnswers) (op : FsOp) (st : RunState)
  : RunState * result unit :=
  match os (snd st) op with
  | Some e => (st, Raise (OSError e))
  | None => ((apply_op (fst st) op, snd st ++ [op]), Ok tt)
  end.

(** Lines 22-25. *)
Fixpoint make_dirs (os : OsAnswers) (dirs : list string) (st : RunState)
  : RunState * result unit :=
  match dirs with
  | [] => (st, Ok tt)
  | dir :: rest =>
      match os_call os (MakeDirs dir) st with
      | (st1, Raise e) => (st1, Raise e)
      | (st1, Ok _) => make_dirs os rest st1
      end
  end.

Definition label_name (img_path : string) : string :=
  splitext_root (basename img_path) +:+ ".txt".

Definition label_path (images_dir img_path : string) : string :=
  path_join images_dir [label_name img_path].

(** The body of either copying loop (lines 40-49 and 52-61). *)
Definition copy_one (os : OsAnswers) (images_dir img_dir label_dir : string)
    (img_path : string) (st : RunState) : RunState * result unit :=
  let filename := basename img_path in
  match os_call os (Copy img_path img_dir filename) st with
  | (st1, Raise e) => (st1, Raise e)
  | (st1, Ok _) =>
      if fst st1 (label_path images_dir img_path) then
        os_call os (Copy (label_path images_dir img_path) label_dir
                         (label_name img_path)) st1
      else (st1, Ok tt)
  end.

Fixpoint copy_loop (os : OsAnswers) (images_dir img_dir label_dir : string)
    (imgs : list string) (st : RunState) : RunState * result unit :=
  match imgs with
  | [] => (st, Ok tt)
  | img_path :: rest =>
      match copy_one os images_dir img_dir label_dir img_path st with
      | (st1, Raise e) => (st1, Raise e)
      | (st1, Ok _) => copy_loop os images_dir img_dir label_dir rest st1
      end
  end.

Definition dataset_dir (cwd : string) : string := path_join cwd ["dataset"].
Definition train_img_dir (cwd : string) : string :=
  path_join (dataset_dir cwd) ["images"; "train"].
Definition val_img_dir (cwd : string) : string :=
  path_join (dataset_dir cwd) ["images"; "val"].
Definition train_label_dir (cwd : string) : string :=
  path_join (dataset_dir cwd) ["labels"; "train"].
Definition val_label_dir (cwd : string) : string :=
  path_join (dataset_dir cwd) ["labels"; "val"].

(** What a call of [prepare_dataset] that returns has computed. *)
Record Prepared : Type := {
  split_idx : Z;
  train_images : list string;
  val_images : list string;
  printed : string
}.

(** A run of [prepare_dataset]: the calls that returned, the file system
    they left, and either what was computed or the exception that ended
    the run. *)
Record PrepRun : Type := {
  fs_ops : list FsOp;
  fs_final : FS;
  outcome : result Prepared
}.

Definition finish (st : RunState) (r : result Prepared) : PrepRun :=
  {| fs_ops := snd st; fs_final := fst st; outcome := r |}.

(** [prepare_dataset(images_dir, split_ratio)] run in directory [cwd] on
    file system [fs0]; [os] and [env] are what the operating system
    answers, [shuffle] what [random.shuffle] does to a list. *)
Definition prepare_dataset (cwd : string) (fs0 : FS) (os : OsAnswers)
    (env : GlobEnv) (shuffle : list string -> list string)
    (images_dir : string) (split_ratio : spec_float) : PrepRun :=
  match make_dirs os [train_img_dir cwd; val_img_dir cwd;
                      train_label_dir cwd; val_label_dir cwd] (fs0, []) with
  | (st1, Raise e) => finish st1 (Raise e)
  | (st1, Ok _) =>
      let files := shuffle (image_files env images_dir) in
      match split_index (length files) split_ratio with
      | Raise e => finish st1 (Raise e)
      | Ok idx =>
          let train := slice_to files idx in
          let val := slice_from files idx in
          match copy_loop os images_dir (train_img_dir cwd) (train_label_dir cwd)
                          train st1 with
          | (st2, Raise e) => finish st2 (Raise e)
          | (st2, Ok _) =>
              match copy_loop os images_dir (val_img_dir cwd) (val_label_dir cwd)
                              val st2 with
              | (st3, Raise e) => finish st3 (Raise e)
              | (st3, Ok _) =>
                  finish st3
                    (Ok {| split_idx := idx;
                           train_images := train;
                           val_images := val;
                           printed :=
                             "Dataset prepared: "
                             +:+ py_str_int (Z.of_nat (length train))
                             +:+ " training images, "
                             +:+ py_str_int (Z.of_nat (length val))
                             +:+ " validation images" |})
              end
          end
      end
  end.

(** *** The calls of a run in which no call raises

    Used to state and to prove what the loops copy: the calls one pass and
    one loop make on file system [fs], with the file system they leave. *)
Definition copies_one (images_dir img_dir label_dir : string) (fs : FS)
    (img_path : string) : FS * list FsOp :=
  let filename := basename img_path in
  let op1 := Copy img_path img_dir filename in
  let fs1 := apply_op fs op1 in
  if fs1 (label_path images_dir img_path) then
    let op2 := Copy (label_path images_dir img_path) label_dir (label_name img_path) in
    (apply_op fs1 op2, [op1; op2])
  else (fs1, [op1]).

Fixpoint copies_loop (images_dir img_dir label_dir : string) (fs : FS)
    (imgs : list string) : FS * list FsOp :=
  match imgs with
  | [] => (fs, [])
  | img_path :: rest =>
      let '(fs1, ops1) := copies_one images_dir img_dir label_dir fs img_path in
      let '(fs2, ops2) := copies_loop images_dir img_dir label_dir fs1 rest in
      (fs2, ops1 ++ ops2)
  end.

(** No call raises. *)
Definition quiet (os : OsAnswers) : Prop := forall done op, os done op = None.

(** From state [st] to state [st'] calls that satisfy [P] have returned,
    and nothing else has changed the file system. *)
Definition extends (P : FsOp -> Prop) (st st' : RunState) : Prop :=
  exists ops,
    snd st' = snd st ++ ops /\ fst st' = apply_ops (fst st) ops /\
    forall op, In op ops -> P op.

(** A copy into one of two directories, under a name that does not start
    with a slash. *)
Definition copies_into (dir1 dir2 : string) (op : FsOp) : Prop :=
  exists src dir name,
    op = Copy src dir name /\ (dir = dir1 \/ dir = dir2) /\
    startswith_slash name = false.




(** ** [train.py] *)

(** What the training script sees of the disk: which paths exist, and what
    the operating system answers when a directory is listed, when a file
    is opened and read line by line (the lines read, and the failure that
    ends the reading if there is one), and when a file is opened for
    writing. *)
Record Disk : Type := {
  disk_exists : FS;
  disk_listdir : string -> list string + oserror;
  disk_read : string -> (list string * option oserror) + oserror;
  disk_open_w : string -> unit + oserror
}.

(** [open(path, 'w')]: the failure the operating system answers with, if
    any; and no file is created in a directory that does not exist. *)
Definition open_for_writing (disk : Disk) (path : string) : result unit :=
  match disk_open_w disk path with
  | inr e => Raise (OSError e)
  | inl _ =>
      if disk_exists disk (split_head path) then Ok tt
      else Raise (OSError FileNotFound)
  end.

(** One step of [os.walk]: [(root, dirs, files)]. *)
Definition WalkEntry : Type := string * list string * list string.

(** The Python built-ins and the training framework the script calls. *)
Class TrainExternals : Type := {
  (** [line.strip().split()] *)
  py_split : string -> list string;
  (** [int(s)]; [None] stands for [ValueError] *)
  py_int_of_str : string -> option Z;
  (** the disk after [YOLO('yolov8n.pt')] and
      [model.train(data=yaml_path, ...)], or the exception they raise *)
  yolo_train : Disk -> string -> result Disk;
  (** [list(os.walk(top))] on a disk *)
  os_walk : Disk -> string -> list WalkEntry
}.

(** [MODEL_DIR]; [DATASET_DIR] is [dataset_dir]. *)
Definition model_dir (cwd : string) : string := path_join cwd ["model"].

(** Lines 35-38: the name given to a class identifier. *)
Definition class_name (class_id : Z) : string :=
  if class_id =? 0 then "gunny_bag" else "class_" +:+ py_str_int class_id.

(** [sorted(class_ids)]. *)
Definition sorted_ids (class_ids : gset Z) : list Z :=
  merge_sort Z.le (elements class_ids).

(** Lines 33-42: the dict [names], as its items in insertion order. *)
Definition class_names (class_ids : gset Z) : list (Z * string) :=
  match map (fun class_id => (class_id, class_name class_id)) (sorted_ids class_ids) with
  | [] => [(0, "gunny_bag")]
  | names => names
  end.

(** The dict written to [dataset.yaml]. *)
Record DatasetConfig : Type := {
  cfg_path : string;
  cfg_train : string;
  cfg_val : string;
  cfg_test : string;
  cfg_names : list (Z * string)
}.

(** [repr] of the dict [names]. *)
Fixpoint names_items (names : list (Z * string)) : string :=
  match names with
  | [] => ""
  | [(k, v)] => py_str_int k +:+ ": '" +:+ v +:+ "'"
  | (k, v) :: rest => py_str_int k +:+ ": '" +:+ v +:+ "', " +:+ names_items rest
  end.

Definition names_repr (names : list (Z * string)) : string :=
  "{" +:+ names_items names +:+ "}".

(** The directories of a walk that hold a file named [best.pt]. *)
Definition roots_with_best (walk : list WalkEntry) : list string :=
  map (fun entry => fst (fst entry))
      (List.filter (fun entry => existsb (String.eqb "best.pt") (snd entry)) walk).

Section Train.
Context {T : TrainExternals}.

(** Lines 28-30 for one line of a label file. *)
Definition scan_line (class_ids : gset Z) (line : string) : result (gset Z) :=
  match py_split line with
  | [] => Ok class_ids
  | first :: _ =>
      match py_int_of_str first with
      | Some class_id => Ok (class_ids ∪ {[class_id]})
      | None => Raise ValueError
      end
  end.

Fixpoint scan_lines (class_ids : gset Z) (lines : list string) : result (gset Z) :=
  match lines with
  | [] => Ok class_ids
  | line :: rest =>
      match scan_line class_ids line with
      | Ok ids => scan_lines ids rest
      | Raise e => Raise e
      end
  end.

(** Lines 26-30: one label file is opened and its lines are gone through
    as they are read. *)
Definition scan_file (disk : Disk) (path : string) (class_ids : gset Z)
  : result (gset Z) :=
  match disk_read disk path with
  | inr e => Raise (OSError e)
  | inl (lines, stopped) =>
      match scan_lines class_ids lines with
      | Raise e => Raise e
      | Ok ids =>
          match stopped with
          | Some e => Raise (OSError e)
          | None => Ok ids
          end
      end
  end.

(** Lines 24-30: the loop over the entries of the label directory. *)
Fixpoint scan_files (disk : Disk) (train_labels_dir : string)
    (class_ids : gset Z) (entries : list string) : result (gset Z) :=
  match entries with
  | [] => Ok class_ids
  | label_file :: rest =>
      if endswith label_file ".txt" then
        match scan_file disk (path_join train_labels_dir [label_file]) class_ids with
        | Ok ids => scan_files disk train_labels_dir ids rest
        | Raise e => Raise e
        end
      else scan_files disk train_labels_dir class_ids rest
  end.

(** A line whose first token [int] rejects. *)
Definition bad_line (line : string) : Prop :=
  exists first rest, py_split line = first :: rest /\ py_int_of_str first = None.

(** A line whose first token is the class identifier [class_id]. *)
Definition line_class (line : string) (class_id : Z) : Prop :=
  exists first rest, py_split line = first :: rest /\ py_int_of_str first = Some class_id.

(** A line read from one of the [.txt] entries among [entries]. *)
Definition entry_line (disk : Disk) (dir : string) (entries : list string)
    (line : string) : Prop :=
  exists label_file lines stopped,
    In label_file entries /\ endswith label_file ".txt" = true /\
    disk_read disk (path_join dir [label_file]) = inl (lines, stopped) /\
    In line lines.

(** A line read from one of the [.txt] entries of the label directory. *)
Definition label_line (disk : Disk) (dir : string) (line : string) : Prop :=
  exists entries,
    disk_listdir disk dir = inl entries /\ entry_line disk dir entries line.

(** The label directory can be listed and every [.txt] entry can be read
    to its end. *)
Definition labels_readable (disk : Disk) (dir : string) : Prop :=
  exists entries,
    disk_listdir disk dir = inl entries /\
    forall label_file,
      In label_file entries -> endswith label_file ".txt" = true ->
      exists lines, disk_read disk (path_join dir [label_file]) = inl (lines, None).

(** Lines 19-30. *)
Definition scan_class_ids (cwd : string) (disk : Disk) : result (gset Z) :=
  let train_labels_dir := path_join (dataset_dir cwd) ["train"; "labels"] in
  if disk_exists disk train_labels_dir then
    match disk_listdir disk train_labels_dir with
    | inl entries => scan_files disk train_labels_dir ∅ entries
    | inr e => Raise (OSError e)
    end
  else Ok ∅.

Record YamlResult : Type := {
  yaml_path : string;
  yaml_config : DatasetConfig;
  yaml_printed : list string
}.

(** [create_dataset_yaml()] (lines 13-61): what is written, where, and
    what is printed; or the exception raised, in which case nothing has
    been written. *)
Definition create_dataset_yaml (cwd : string) (disk : Disk) : result YamlResult :=
  match scan_class_ids cwd disk with
  | Raise e => Raise e
  | Ok class_ids =>
      let names := class_names class_ids in
      let path := path_join (dataset_dir cwd) ["dataset.yaml"] in
      match open_for_writing disk path with
      | Raise e => Raise e
      | Ok _ =>
          Ok {| yaml_path := path;
                yaml_config := {| cfg_path := dataset_dir cwd;
                                  cfg_train := "train/images";
                                  cfg_val := "valid/images";
                                  cfg_test := "test/images";
                                  cfg_names := names |};
                yaml_printed :=
                  ["Created dataset configuration at " +:+ path;
                   "Detected classes: " +:+ names_repr names] |}
      end
  end.

(** Lines 95-100: the loop over the files of one directory, left at the
    first [best.pt]. *)
Fixpoint copy_first_best (cwd root : string) (files : list string)
  : list FsOp * list string :=
  match files with
  | [] => ([], [])
  | file :: rest =>
      if String.eqb file "best.pt" then
        let src_path := path_join root [file] in
        ([Copy src_path (model_dir cwd) "best.pt"],
         ["Found and copied best model from " +:+ src_path])
      else copy_first_best cwd root rest
  end.

(** Lines 94-100: the loop over the directories of the walk. *)
Fixpoint copy_walk (cwd : string) (walk : list WalkEntry) : list FsOp * list string :=
  match walk with
  | [] => ([], [])
  | (root, _, files) :: rest =>
      let '(ops1, out1) := copy_first_best cwd root files in
      let '(ops2, out2) := copy_walk cwd rest in
      (ops1 ++ ops2, out1 ++ out2)
  end.

Definition best_model_path (cwd : string) : string :=
  path_join cwd ["runs"; "detect"; "gunny_bag_detector"; "weights"; "best.pt"].

(** Lines 85-100, on the disk as training left it: the copies made, taken
    to succeed, and what is printed. *)
Definition save_best_model (cwd : string) (disk : Disk) : list FsOp * list string :=
  if disk_exists disk (best_model_path cwd) then
    ([Copy (best_model_path cwd) (model_dir cwd) "best.pt"],
     ["Best model saved to " +:+ path_join (model_dir cwd) ["best.pt"]])
  else
    let '(ops, out) := copy_walk cwd (os_walk disk (path_join cwd ["runs"])) in
    (ops, "Training completed but best model not found at expected path" :: out).

Record Trained : Type := {
  trained_yaml : YamlResult;
  trained_ops : list FsOp;
  trained_printed : list string
}.

(** [train_model()] (lines 63-100). *)
Definition train_model (cwd : string) (disk : Disk) : result Trained :=
  match create_dataset_yaml cwd disk with
  | Raise e => Raise e
  | Ok y =>
      match yolo_train disk (yaml_path y) with
      | Raise e => Raise e
      | Ok disk1 =>
          let '(ops, out) := save_best_model cwd disk1 in
          Ok {| trained_yaml := y;
                trained_ops := ops;
                trained_printed :=
                  yaml_printed y ++ ["Starting model training..."] ++ out |}
      end
  end.

(** Lines 106-111. *)
Definition required_dirs (cwd : string) : list string :=
  [path_join (dataset_dir cwd) ["train"; "images"];
   path_join (dataset_dir cwd) ["train"; "labels"];
   path_join (dataset_dir cwd) ["valid"; "images"];
   path_join (dataset_dir cwd) ["valid"; "labels"]].

(** Lines 113-116: the first required directory that does not exist. *)
Fixpoint first_missing (fs : FS) (dirs : list string) : option string :=
  match dirs with
  | [] => None
  | dir_path :: rest => if fs dir_path then first_missing fs rest else Some dir_path
  end.

(** [validate_dataset_structure()] (lines 102-124): the result and what is
    printed, or the exception of [os.listdir] at line 120. *)
Definition validate_dataset_structure (cwd : string) (disk : Disk)
  : result (bool * list string) :=
  match first_missing (disk_exists disk) (required_dirs cwd) with
  | Some dir_path =>
      Ok (false, ["Warning: Expected directory " +:+ dir_path +:+ " not found"])
  | None =>
      let train_images := path_join (dataset_dir cwd) ["train"; "images"] in
      match disk_listdir disk train_images with
      | inr e => Raise (OSError e)
      | inl [] => Ok (false, ["Error: No images found in " +:+ train_images])
      | inl _ => Ok (true, [])
      end
  end.

(** The script run as a program (lines 126-151), once the imports and
    [os.makedirs(MODEL_DIR)] at line 11 have returned: either it exits
    with status 1 before any training, or the validation raises, or it
    goes on to train.  Of what is printed only the lines of the validation
    are kept. *)
Inductive TrainExit : Type :=
| ExitStatus1 (validation_output : list string)
| ValidationRaised (e : pyexn)
| RanTraining (r : result Trained).

Definition train_main (cwd : string) (disk : Disk) : TrainExit :=
  match validate_dataset_structure cwd disk with
  | Raise e => ValidationRaised e
  | Ok (ok, out) =>
      if ok then RanTraining (train_model cwd disk) else ExitStatus1 out
  end.

End Train.

(** ** A concrete instance of the collaborators

    Small enough to run: a frame is the list of class values of the objects
    in view, the model state is the number of track identifiers handed out
    so far, and the tracker gives every detection the next free identifier
    (as ByteTrack does for a new track). *)

Fixpoint number_boxes (next : Z) (classes : list Q) : list Box :=
  match classes with
  | [] => []
  | c :: cs => {| cls := c; track_id := Some (next + 1) |} :: number_boxes (next + 1) cs
  end.

Definition counting_externals : Externals := {|
  Frame := list Q;
  Model := Z;
  enhance_contrast := fun f => Ok f;
  model_track := fun m f =>
    (m + Z.of_nat (length f), {| boxes := number_boxes m f; plot := f |});
  YOLO := fun _ => 0;
  putText := fun f _ => f;
  imencode_jpg := fun _ => "jpeg";
  cwd := "/srv/app"
|}.

(** A file system in which exactly the listed paths exist. *)
Definition fs_of (paths : list string) : FS :=
  fun q => existsb (String.eqb q) paths.

(** Example inputs. *)
Definition demo_start : @World counting_externals :=
  @world0 counting_externals (@startup counting_externals (fun _ => false)).

Definition demo_frame : @Frame counting_externals :=
  [inject_Z 0; inject_Z 1; inject_Z 0].

Definition demo_inputs (n : nat) : list (@Frame counting_externals * Q) :=
  map (fun i => (demo_frame, inject_Z (Z.of_nat i))) (seq 0 n).

Definition one_stream : list Event :=
  [VideoFeed; GenNext 0 true (Some demo_frame) 1].

Definition sample_body : json := JObj [("source", JStr "sample.mp4")].
Definition webcam_body : json := JObj [("source", JStr "webcam")].

Definition demo_listing : list string :=
  ["a.jpg"; "a.txt"; "b.png"; "c.jpeg"; "c.txt"; ".hidden.jpg"; "d.JPG"; "e.jpg";
   "notes.md"].

Definition demo_fs : FS :=
  fs_of (map (fun name => path_join "/data" [name]) demo_listing).

(** Only [/data] holds anything, and no pattern with wildcards matches a
    directory. *)
Definition demo_env : GlobEnv :=
  {| scandir := fun dir => if String.eqb dir "/data" then demo_listing else [];
     glob_dirs := fun _ => [] |}.

(** Every call returns. *)
Definition all_return : OsAnswers := fun _ _ => None.

(** The floats written [0.8], [1.5] and [-2.0] in Python. *)
Definition float_0_8 : spec_float := S754_finite false 7205759403792794 (-53).
Definition float_1_5 : spec_float := S754_finite false 6755399441055744 (-52).
Definition float_minus_2 : spec_float := S754_finite true 4503599627370496 (-51).

(** Stand-ins for the built-ins of the training script: a line is one
    token, decimal numerals are parsed, training leaves the disk as it
    is, and the walk finds two directories with a [best.pt]. *)
Definition demo_train_externals : TrainExternals := {|
  py_split := fun line => if String.eqb line "" then [] else [line];
  py_int_of_str := fun s =>
    match NilZero.int_of_string s with
    | Some d => Some (Z.of_int d)
    | None => None
    end;
  yolo_train := fun disk _ => Ok disk;
  os_walk := fun _ _ =>
    [("/srv/app/runs", ["detect"], []);
     ("/srv/app/runs/detect/a/weights", [], ["last.pt"; "best.pt"]);
     ("/srv/app/runs/detect/b/weights", [], ["best.pt"; "last.pt"])]
|}.

(** A disk on which exactly the listed paths exist, every one of them a
    directory that lists [entries]; every file that is read is empty, and
    a file can be written wherever its directory exists. *)
Definition disk_of (paths entries : list string) : Disk :=
  {| disk_exists := fs_of paths;
     disk_listdir := fun dir => if fs_of paths dir then inl entries else inr FileNotFound;
     disk_read := fun _ => inl ([], None);
     disk_open_w := fun path =>
       if fs_of paths (split_head path) then inl tt else inr FileNotFound |}.

Definition demo_layout : list string :=
  ["/w/dataset"; "/w/dataset/train/images"; "/w/dataset/train/labels";
   "/w/dataset/valid/images"; "/w/dataset/valid/labels"].

(** The value of a computation that did not raise. *)
Definition result_get {A} (default : A) (r : result A) : A :=
  match r with
  | Ok a => a
  | Raise _ => default
  end.

(** * Properties *)

(** ** Counting *)

Lemma fold_add_shift (xs : list Z) (a : Z) : fold_left Z.add xs a = a + py_sum xs.
Proof.
  unfold py_sum. revert a.
  induction xs as [|x xs IH]; intros a; cbn [fold_left]; [lia|].
  rewrite (IH (a + x)), (IH (0 + x)). lia.
Qed.

Lemma py_sum_ones {A} (l : list A) :
  py_sum (map (fun _ => 1) l) = Z.of_nat (length l).
Proof.
  induction l as [|x l IH]; [reflexivity|].
  unfold py_sum in *. cbn [map fold_left length].
  rewrite fold_add_shift. unfold py_sum. rewrite IH. lia.
Qed.

Lemma filter_class_count_occ (bs : list Box) (target : Z) :
  length (List.filter (fun r => class_id r =? target) bs)
  = count_occ Z.eq_dec (map class_id bs) target.
Proof.
  induction bs as [|b bs IH]; [reflexivity|].
  cbn [List.filter map count_occ].
  destruct (Z.eqb_spec (class_id b) target) as [Heq|Hne];
    destruct (Z.eq_dec (class_id b) target); try contradiction;
    cbn [length]; rewrite IH; reflexivity.
Qed.

Lemma py_int_inject_Z (k : Z) : py_int (inject_Z k) = k.
Proof. unfold py_int, inject_Z. cbn [Qnum Qden]. apply Z.quot_1_r. Qed.

(** ** The history *)

Lemma tl_skipn {A} (k : nat) (l : list A) : tl (skipn k l) = skipn (S k) l.
Proof.
  revert l. induction k as [|k IH]; intros [|x l]; try reflexivity.
  cbn [skipn] in *. apply IH.
Qed.

Lemma record_sample_length (h : list Sample) (s : Sample) :
  length (record_sample h s) = Nat.min (S (length h)) (Nat.max 100 (length h)).
Proof.
  unfold record_sample, pop0.
  assert (Hl : length (h ++ [s]) = S (length h)).
  { rewrite length_app. cbn [length]. lia. }
  destruct (Nat.ltb_spec 100 (length (h ++ [s]))) as [Hlt|Hge].
  - destruct (h ++ [s]) as [|x t] eqn:Ht; cbn [length tl] in *; lia.
  - lia.
Qed.

Lemma record_sample_bounded (h : list Sample) (s : Sample) :
  (length h <= 100)%nat -> (length (record_sample h s) <= 100)%nat.
Proof. intros H. rewrite record_sample_length. lia. Qed.

(** While fewer than 100 samples are held, recording only appends; with
    100 held it drops the oldest one and appends. *)
Lemma record_sample_cases (h : list Sample) (s : Sample) :
  (length h <= 100)%nat ->
  record_sample h s = (if (100 <=? length h)%nat then tl h else h) ++ [s].
Proof.
  intros Hle. unfold record_sample, pop0.
  rewrite length_app. cbn [length].
  destruct (Nat.ltb_spec 100 (length h + 1)) as [Hlt|Hge];
    destruct (Nat.leb_spec 100 (length h)) as [H1|H1]; try lia.
  - destruct h as [|x t]; cbn [length] in *; [lia|reflexivity].
  - reflexivity.
Qed.

(** The history is always the last 100 of everything recorded. *)
Lemma record_sample_window (recorded : list Sample) (s : Sample) :
  record_sample (skipn (length recorded - 100) recorded) s
  = skipn (length (recorded ++ [s]) - 100) (recorded ++ [s]).
Proof.
  rewrite record_sample_cases by (rewrite length_skipn; lia).
  rewrite length_skipn, length_app. cbn [length].
  destruct (Nat.leb_spec 100 (length recorded - (length recorded - 100))) as [H|H].
  - rewrite tl_skipn.
    replace (length recorded + 1 - 100)%nat with (S (length recorded - 100)) by lia.
    rewrite skipn_app.
    replace (S (length recorded - 100) - length recorded)%nat with 0%nat by lia.
    reflexivity.
  - replace (length recorded - 100)%nat with 0%nat by lia.
    replace (length recorded + 1 - 100)%nat with 0%nat by lia.
    reflexivity.
Qed.

Section AppProperties.
Context {E : Externals}.

Lemma source_evals_range (sel : json) :
  exists n, source_evals sel = S n /\ (n <= 2)%nat.
Proof.
  unfold source_evals.
  destruct (source_is sel "webcam"); [exists 0%nat; split; [reflexivity|lia]|].
  destruct (source_is sel "rtsp"); [exists 1%nat|exists 2%nat]; split; (reflexivity || lia).
Qed.

(** One call evaluates the selection [source_evals] times, each time with
    the same result, and makes the capture from [video_source_arg]. *)
Lemma get_video_source_eq (g : nat) (opens : bool) (w : World) :
  get_video_source g opens w
  = (log_source_evals g w,
     a ← video_source_arg (current_video_source w); Ok (VideoCapture a opens)).
Proof.
  unfold get_video_source, log_source_evals, log_source_read, source_evals,
    video_source_arg, join_cwd, source_is.
  cbn [current_video_source source_reads detection_history model frame_gens].
  destruct (current_video_source w) as [| | |s| |]; cbn [repeat];
    rewrite <- ?app_assoc; try reflexivity.
  destruct (String.eqb s "webcam"); [reflexivity|].
  destruct (String.eqb s "rtsp"); cbn [repeat]; rewrite <- ?app_assoc; reflexivity.
Qed.

Lemma filter_repeat_same (g : nat) (v : json) (n : nat) :
  List.filter (fun p : nat * json => Nat.eqb (fst p) g) (repeat (g, v) n)
  = repeat (g, v) n.
Proof.
  induction n as [|n IH]; [reflexivity|].
  cbn. rewrite Nat.eqb_refl, IH. reflexivity.
Qed.

Lemma filter_repeat_other (g0 g : nat) (v : json) (n : nat) :
  g0 <> g ->
  List.filter (fun p : nat * json => Nat.eqb (fst p) g) (repeat (g0, v) n) = [].
Proof.
  intros Hne. induction n as [|n IH]; [reflexivity|].
  cbn. destruct (Nat.eqb_spec g0 g); [contradiction|exact IH].
Qed.

Lemma logged_selection (g : nat) (w : World) :
  In (g, current_video_source w) (source_reads (log_source_evals g w)).
Proof.
  cbn. apply in_or_app. right.
  destruct (source_evals_range (current_video_source w)) as (n & -> & _).
  left. reflexivity.
Qed.

Lemma process_frame_inv (w w' : World) (frame : Frame) (now : Q) (r : Frame * Z) :
  process_frame w frame now = Ok (w', r) ->
  exists enhanced,
    enhance_contrast frame = Ok enhanced /\
    model w' = fst (model_track (model w) enhanced) /\
    snd r = count_class (boxes (snd (model_track (model w) enhanced)))
                        gunny_bag_class_id /\
    detection_history w' = record_sample (detection_history w) (now, snd r) /\
    current_video_source w' = current_video_source w /\
    frame_gens w' = frame_gens w /\
    source_reads w' = source_reads w.
Proof.
  unfold process_frame.
  destruct (enhance_contrast frame) as [enhanced|e] eqn:He; cbn; [|discriminate].
  destruct (model_track (model w) enhanced) as [m1 results] eqn:Ht.
  intros H. injection H as <- <-. exists enhanced. cbn.
  rewrite Ht. cbn. repeat split; reflexivity.
Qed.

Lemma process_frames_window (inputs : list (Frame * Q)) :
  forall (w w' : World) (counts : list Z) (recorded : list Sample),
    detection_history w = skipn (length recorded - 100) recorded ->
    process_frames w inputs = Ok (w', counts) ->
    length counts = length inputs /\
    detection_history w' =
      skipn (length (recorded ++ combine (map snd inputs) counts) - 100)
            (recorded ++ combine (map snd inputs) counts).
Proof.
  induction inputs as [|[frame now] rest IH]; intros w w' counts recorded Hw Hrun.
  - cbn in Hrun. injection Hrun as <- <-. cbn. rewrite app_nil_r. auto.
  - cbn [process_frames] in Hrun.
    destruct (process_frame w frame now) as [[w1 r]|e] eqn:Hp; cbn in Hrun; [|discriminate].
    destruct (process_frames w1 rest) as [[w2 cs]|e] eqn:Hr; cbn in Hrun; [|discriminate].
    injection Hrun as <- <-.
    destruct (process_frame_inv _ _ _ _ _ Hp) as (enh & _ & _ & _ & Hh & _).
    rewrite Hw, record_sample_window in Hh.
    destruct (IH w1 w2 cs (recorded ++ [(now, snd r)]) Hh Hr) as [Hlen Hfin].
    split; [cbn; congruence|].
    cbn [map combine snd]. rewrite Hfin, <- app_assoc. reflexivity.
Qed.

(** *** What one resumption does *)

Lemma frames_loop_post (w : World) (g : nat) (c : Capture) (rd : option Frame) (now : Q) :
  loop_post w g c rd now (fst (frames_loop w g c rd now)) (snd (frames_loop w g c rd now)).
Proof.
  unfold frames_loop, loop_post.
  destruct (cap_opened c) eqn:Hop.
  - destruct rd as [frame|].
    + destruct (process_frame w frame now) as [[w1 [processed n]]|e] eqn:Hp.
      * destruct (process_frame_inv _ _ _ _ _ Hp) as (_ & _ & _ & _ & _ & Hs & Hg & Hr).
        cbn. repeat split; try assumption.
        exists (GenSuspended (cap_read c)). rewrite Hg. split; [reflexivity|].
        right. repeat split. exists frame, w1, (processed, n). auto 10.
      * cbn. repeat split. eexists. split; [reflexivity|].
        left. repeat split. right. right. split; [reflexivity|]. eauto.
    + cbn. repeat split. eexists. split; [reflexivity|]. left. auto 10.
  - cbn. repeat split. eexists. split; [reflexivity|]. left. auto 10.
Qed.

Lemma loop_post_other (w w' : World) (g0 g : nat) (c : Capture) rd now o :
  loop_post w g0 c rd now w' o -> g0 <> g ->
  frame_gens w' !! g = frame_gens w !! g /\ source_reads w' = source_reads w.
Proof.
  intros (_ & Hr & st & Hg & _) Hne. split; [|exact Hr].
  rewrite Hg. apply list_lookup_insert_ne. exact Hne.
Qed.

Lemma loop_post_self (w w' : World) (g : nat) (c : Capture) rd now o :
  loop_post w g c rd now w' o -> (g < length (frame_gens w))%nat ->
  source_reads w' = source_reads w /\
  exists c', cap_arg c' = cap_arg c /\
    ((frame_gens w' !! g = Some (GenSuspended c') /\ cap_released c' = cap_released c) \/
     (frame_gens w' !! g = Some (GenFinished (Some c')) /\
      cap_released c' = true /\ cap_opened c' = false)).
Proof.
  intros (_ & Hr & st & Hg & Hst) Hlt. split; [exact Hr|].
  rewrite Hg, list_lookup_insert_eq by exact Hlt.
  destruct Hst as [(-> & _)|(-> & _)].
  - eexists. split; [|right; split; [reflexivity|split; reflexivity]].
    destruct (cap_opened c); reflexivity.
  - exists (cap_read c). split; [reflexivity|]. left. split; reflexivity.
Qed.

Lemma gen_next_change (w : World) (g0 : nat) opens rd now (g : nat) :
  gen_change w (fst (gen_next w g0 opens rd now)) g.
Proof.
  unfold gen_next.
  destruct (frame_gens w !! g0) as [[|c|last]|] eqn:Hg0;
    try (left; split; reflexivity).
  - (* first resumption *)
    rewrite get_video_source_eq.
    destruct (video_source_arg (current_video_source w)) as [a|e] eqn:Ha; cbn.
    + pose proof (frames_loop_post (log_source_evals g0 w) g0
                    (VideoCapture a opens) rd now) as Hpost.
      destruct (Nat.eq_dec g0 g) as [->|Hne].
      * apply loop_post_self in Hpost;
          [|cbn; apply lookup_lt_Some with (x := GenCreated); exact Hg0].
        destruct Hpost as (Hr & c' & Hc & Hst).
        right. right. right. left. split; [exact Hg0|].
        unfold reads_of. rewrite Hr. cbn [source_reads log_source_evals].
        rewrite List.filter_app, filter_repeat_same.
        split; [reflexivity|]. split; [apply logged_selection|].
        right. exists c'. rewrite Ha, Hc. cbn. split; [reflexivity|].
        destruct Hst as [[H1 H2]|H1]; [left|right]; auto.
      * apply loop_post_other with (g := g) in Hpost; [|exact Hne].
        destruct Hpost as [Hg Hr]. left. rewrite Hg. cbn. split; [reflexivity|].
        unfold reads_of. rewrite Hr. cbn [source_reads log_source_evals].
        rewrite List.filter_app, filter_repeat_other by exact Hne.
        apply app_nil_r.
    + destruct (Nat.eq_dec g0 g) as [->|Hne].
      * right. right. right. left. split; [exact Hg0|].
        unfold reads_of. cbn [source_reads log_source_evals set_gen set_gens fst].
        rewrite List.filter_app, filter_repeat_same.
        split; [reflexivity|]. split; [apply logged_selection|].
        left. exists e. split; [exact Ha|]. cbn.
        apply list_lookup_insert_eq, lookup_lt_Some with (x := GenCreated). exact Hg0.
      * left. cbn. rewrite list_lookup_insert_ne by exact Hne. split; [reflexivity|].
        unfold reads_of. cbn [source_reads log_source_evals].
        rewrite List.filter_app, filter_repeat_other by exact Hne.
        apply app_nil_r.
  - (* later resumptions *)
    pose proof (frames_loop_post w g0 c rd now) as Hpost.
    destruct (Nat.eq_dec g0 g) as [->|Hne].
    + apply loop_post_self in Hpost;
        [|apply lookup_lt_Some with (x := GenSuspended c); exact Hg0].
      destruct Hpost as (Hr & c' & Hc & Hst).
      right. right. right. right. exists c, c'.
      split; [exact Hg0|]. split; [unfold reads_of; rewrite Hr; reflexivity|].
      split; assumption.
    + apply loop_post_other with (g := g) in Hpost; [|exact Hne].
      destruct Hpost as [Hg Hr]. left. split; [exact Hg|].
      unfold reads_of. rewrite Hr. reflexivity.
Qed.

Lemma gen_close_change (w : World) (g0 g : nat) :
  gen_change w (fst (gen_close w g0)) g.
Proof.
  unfold gen_close.
  destruct (frame_gens w !! g0) as [[|c|last]|] eqn:Hg0;
    try (left; split; reflexivity);
    (destruct (Nat.eq_dec g0 g) as [->|Hne];
     [|left; cbn; rewrite list_lookup_insert_ne by exact Hne; split; reflexivity]).
  - right. right. left. split; [exact Hg0|]. cbn. split; [|reflexivity].
    apply list_lookup_insert_eq, lookup_lt_Some with (x := GenCreated). exact Hg0.
  - right. right. right. right. exists c, (cap_release c).
    split; [exact Hg0|]. split; [reflexivity|]. split; [reflexivity|].
    right. cbn. split; [|split; reflexivity].
    apply list_lookup_insert_eq, lookup_lt_Some with (x := GenSuspended c). exact Hg0.
Qed.

Lemma step_change (w : World) (e : Event) (g : nat) :
  gen_change w (fst (step w e)) g.
Proof.
  destruct e as [body| |g0 opens rd now|g0]; cbn [step].
  - unfold change_source. destruct body; cbn; left; split; reflexivity.
  - unfold video_feed, gen_change, reads_of. cbn.
    destruct (Nat.lt_total g (length (frame_gens w))) as [Hlt|[->|Hgt]].
    + left. rewrite lookup_app_l by exact Hlt. split; reflexivity.
    + right. left. split; [apply lookup_ge_None; lia|].
      split; [|reflexivity].
      rewrite lookup_app_r by lia. rewrite Nat.sub_diag. reflexivity.
    + left. split; [|reflexivity].
      rewrite (proj2 (lookup_ge_None (frame_gens w) g)) by lia.
      apply lookup_ge_None. rewrite length_app. cbn. lia.
  - destruct (gen_next w g0 opens rd now) as [w1 o] eqn:Hn.
    change w1 with (fst (w1, o)). rewrite <- Hn. apply gen_next_change.
  - destruct (gen_close w g0) as [w1 o] eqn:Hn.
    change w1 with (fst (w1, o)). rewrite <- Hn. apply gen_close_change.
Qed.

Lemma loop_post_pipeline (w w' : World) (g : nat) (c : Capture) rd now o :
  loop_post w g c rd now w' o -> pipeline_change w w' rd now.
Proof.
  intros (_ & _ & st & _ & [(_ & Hh & Hm & _)|(_ & _ & frame & w1 & r & Hrd & Hp & Hh & Hm & _)]).
  - left. split; assumption.
  - destruct (process_frame_inv _ _ _ _ _ Hp) as (enh & He & Hm1 & Hc & Hh1 & _).
    right. exists frame, enh. rewrite Hh, Hm, Hm1, Hh1, Hc. auto.
Qed.

Lemma gen_next_pipeline (w : World) (g : nat) opens rd now :
  pipeline_change w (fst (gen_next w g opens rd now)) rd now /\
  current_video_source (fst (gen_next w g opens rd now)) = current_video_source w /\
  exists extra,
    source_reads (fst (gen_next w g opens rd now)) = source_reads w ++ extra.
Proof.
  unfold gen_next.
  destruct (frame_gens w !! g) as [[|c|last]|] eqn:Hg;
    try (split; [left; split; reflexivity|split; [reflexivity|]];
         exists []; rewrite app_nil_r; reflexivity).
  - rewrite get_video_source_eq.
    destruct (video_source_arg (current_video_source w)) as [a|e]; cbn.
    + pose proof (frames_loop_post (log_source_evals g w) g
                    (VideoCapture a opens) rd now) as Hpost.
      split; [exact (loop_post_pipeline _ _ _ _ _ _ _ Hpost)|].
      destruct Hpost as (Hs & Hr & _). split; [exact Hs|].
      eexists. rewrite Hr. reflexivity.
    + split; [left; split; reflexivity|split; [reflexivity|]].
      eexists. reflexivity.
  - pose proof (frames_loop_post w g c rd now) as Hpost.
    split; [exact (loop_post_pipeline _ _ _ _ _ _ _ Hpost)|].
    destruct Hpost as (Hs & Hr & _). split; [exact Hs|].
    exists []. rewrite app_nil_r. exact Hr.
Qed.

Lemma gen_close_fields (w : World) (g : nat) :
  detection_history (fst (gen_close w g)) = detection_history w /\
  model (fst (gen_close w g)) = model w /\
  current_video_source (fst (gen_close w g)) = current_video_source w /\
  source_reads (fst (gen_close w g)) = source_reads w.
Proof.
  unfold gen_close.
  destruct (frame_gens w !! g) as [[|c|last]|]; cbn; repeat split; reflexivity.
Qed.

Lemma change_source_fields (w : World) (body : json) :
  detection_history (fst (step w (ChangeSource body))) = detection_history w /\
  model (fst (step w (ChangeSource body))) = model w /\
  source_reads (fst (step w (ChangeSource body))) = source_reads w /\
  frame_gens (fst (step w (ChangeSource body))) = frame_gens w.
Proof. destruct body; cbn; repeat split; reflexivity. Qed.

Lemma step_history_bounded (w : World) (e : Event) :
  (length (detection_history w) <= 100)%nat ->
  (length (detection_history (fst (step w e))) <= 100)%nat.
Proof.
  intros Hle. destruct e as [body| |g opens rd now|g].
  - destruct (change_source_fields w body) as (-> & _). exact Hle.
  - exact Hle.
  - cbn [step]. destruct (gen_next w g opens rd now) as [w1 o] eqn:Hn. cbn.
    destruct (gen_next_pipeline w g opens rd now) as [Hp _].
    rewrite Hn in Hp. cbn in Hp.
    destruct Hp as [[-> _]|(frame & enh & _ & _ & _ & ->)]; [exact Hle|].
    apply record_sample_bounded, Hle.
  - cbn [step]. destruct (gen_close w g) as [w1 o] eqn:Hn. cbn.
    destruct (gen_close_fields w g) as (Hh & _). rewrite Hn in Hh. cbn in Hh.
    rewrite Hh. exact Hle.
Qed.

Lemma run_app (w : World) (evs1 evs2 : list Event) :
  run w (evs1 ++ evs2) = run (run w evs1) evs2.
Proof. unfold run. apply fold_left_app. Qed.

Lemma run_history_bounded (evs : list Event) (w : World) :
  (length (detection_history w) <= 100)%nat ->
  (length (detection_history (run w evs)) <= 100)%nat.
Proof.
  revert w. induction evs as [|e evs IH]; intros w Hle; [exact Hle|].
  cbn. apply IH, step_history_bounded, Hle.
Qed.

Lemma step_source_kept (w : World) (e : Event) :
  is_change_source e = false ->
  current_video_source (fst (step w e)) = current_video_source w.
Proof.
  destruct e as [body| |g opens rd now|g]; intros He; try discriminate.
  - reflexivity.
  - cbn [step]. destruct (gen_next w g opens rd now) as [w1 o] eqn:Hn. cbn.
    destruct (gen_next_pipeline w g opens rd now) as (_ & Hs & _).
    rewrite Hn in Hs. exact Hs.
  - cbn [step]. destruct (gen_close w g) as [w1 o] eqn:Hn. cbn.
    destruct (gen_close_fields w g) as (_ & _ & Hs & _). rewrite Hn in Hs. exact Hs.
Qed.

Lemma step_reads_kept (w : World) (e : Event) (x : nat * json) :
  In x (source_reads w) -> In x (source_reads (fst (step w e))).
Proof.
  intros Hin. destruct e as [body| |g opens rd now|g].
  - destruct (change_source_fields w body) as (_ & _ & -> & _). exact Hin.
  - exact Hin.
  - cbn [step]. destruct (gen_next w g opens rd now) as [w1 o] eqn:Hn. cbn.
    destruct (gen_next_pipeline w g opens rd now) as (_ & _ & extra & Hr).
    rewrite Hn in Hr. cbn in Hr. rewrite Hr. apply in_or_app. left. exact Hin.
  - cbn [step]. destruct (gen_close w g) as [w1 o] eqn:Hn. cbn.
    destruct (gen_close_fields w g) as (_ & _ & _ & Hr). rewrite Hn in Hr.
    cbn in Hr. rewrite Hr. exact Hin.
Qed.

(** *** Generators over whole runs *)

Ltac step_cases w e g :=
  let H := fresh "Hchg" in
  pose proof (step_change w e g) as H; unfold gen_change in H;
  destruct H as [(? & ?)|[(? & ? & ?)|[(? & ? & ?)|[(? & ? & ? & ?)|(? & ? & ? & ? & ? & ?)]]]].

(** A finished generator stays as it is. *)
Lemma finished_future (evs : list Event) :
  forall (w : World) (g : nat) (last : option Capture),
    frame_gens w !! g = Some (GenFinished last) ->
    frame_gens (run w evs) !! g = Some (GenFinished last) /\
    reads_of g (run w evs) = reads_of g w.
Proof.
  induction evs as [|e evs IH]; intros w g last Hg; [split; [exact Hg|reflexivity]|].
  cbn [run fold_left]. fold (run (fst (step w e)) evs).
  step_cases w e g; try congruence.
  destruct (IH (fst (step w e)) g last) as [K1 K2]; [congruence|].
  split; [exact K1|congruence].
Qed.

(** A generator that holds a capture keeps holding a capture made from the
    same argument until it finishes, and it finishes only with the capture
    released; it never evaluates the source selection again. *)
Lemma suspended_future (evs : list Event) :
  forall (w : World) (g : nat) (c : Capture),
    frame_gens w !! g = Some (GenSuspended c) ->
    reads_of g (run w evs) = reads_of g w /\
    exists c', cap_arg c' = cap_arg c /\
      ((frame_gens (run w evs) !! g = Some (GenSuspended c')) \/
       (frame_gens (run w evs) !! g = Some (GenFinished (Some c')) /\
        cap_released c' = true /\ cap_opened c' = false)).
Proof.
  induction evs as [|e evs IH]; intros w g c Hg.
  - split; [reflexivity|]. exists c. split; [reflexivity|]. left. exact Hg.
  - cbn [run fold_left]. fold (run (fst (step w e)) evs).
    step_cases w e g; try congruence.
    + destruct (IH (fst (step w e)) g c) as [K1 K2]; [congruence|].
      split; [congruence|exact K2].
    + match goal with
      | H : _ \/ _ |- _ => destruct H as [[Hs _]|(Hf & Hrel & Hop)]
      end.
      * destruct (IH (fst (step w e)) g _ Hs) as [K1 (c2 & Hc2 & K2)].
        split; [congruence|]. exists c2. split; [congruence|exact K2].
      * destruct (finished_future evs _ _ _ Hf) as [K1 K2].
        split; [congruence|]. eexists. split; [|right; eauto]. congruence.
Qed.

Lemma step_reads_ok (w : World) (e : Event) (g : nat) :
  reads_ok w g -> reads_ok (fst (step w e)) g.
Proof.
  unfold reads_ok. intros Hok.
  step_cases w e g.
  - match goal with H : frame_gens (fst _) !! g = _ |- _ => rewrite H end.
    match goal with H : reads_of g (fst _) = _ |- _ => rewrite H end.
    exact Hok.
  - match goal with H : frame_gens w !! g = None |- _ => rewrite H in Hok end.
    match goal with H : frame_gens (fst _) !! g = _ |- _ => rewrite H end.
    congruence.
  - match goal with H : frame_gens w !! g = Some _ |- _ => rewrite H in Hok end.
    match goal with H : frame_gens (fst _) !! g = _ |- _ => rewrite H end.
    left. congruence.
  - match goal with H : frame_gens w !! g = Some _ |- _ => rewrite H in Hok end.
    match goal with H : reads_of g (fst _) = _ |- _ => rewrite Hok in H; cbn [app] in H end.
    match goal with
    | H : _ \/ _ |- _ =>
        destruct H as [(x & _ & ->)|(c & Hsel & [[-> _]|(-> & _)])]
    end.
    + right. exists (current_video_source w). assumption.
    + exists (current_video_source w). split; assumption.
    + exists (current_video_source w). split; assumption.
  - match goal with H : frame_gens w !! g = Some _ |- _ => rewrite H in Hok end.
    destruct Hok as (sel & Hn & Hsel).
    match goal with
    | H : _ \/ _ |- _ => destruct H as [[-> _]|(-> & _)]
    end;
      exists sel; (split; congruence).
Qed.

Lemma run_reads_ok (evs : list Event) (w : World) (g : nat) :
  reads_ok w g -> reads_ok (run w evs) g.
Proof.
  revert w. induction evs as [|e evs IH]; intros w Hok; [exact Hok|].
  cbn. apply IH, step_reads_ok, Hok.
Qed.

Lemma startup_reads_ok (path_exists : string -> bool) (g : nat) :
  reads_ok (world0 (startup path_exists)) g.
Proof.
  unfold reads_ok, startup.
  destruct (negb (path_exists configured_model_path)); cbn; reflexivity.
Qed.

Lemma step_opened_on (sel : json) (a : CapArg) (w : World) (e : Event) (g : nat) :
  current_video_source w = sel -> video_source_arg sel = Ok a ->
  opened_on a w g -> opened_on a (fst (step w e)) g.
Proof.
  unfold opened_on. intros Hsel Ha Hok.
  step_cases w e g.
  - match goal with H : frame_gens (fst _) !! g = _ |- _ => rewrite H end. exact Hok.
  - match goal with H : frame_gens (fst _) !! g = _ |- _ => rewrite H end. exact I.
  - match goal with H : frame_gens (fst _) !! g = _ |- _ => rewrite H end. exact I.
  - match goal with
    | H : _ \/ _ |- _ =>
        destruct H as [(x & _ & ->)|(c & Hc & [[-> _]|(-> & _)])]
    end; try exact I; rewrite Hsel, Ha in Hc; congruence.
  - match goal with H : frame_gens w !! g = Some _ |- _ => rewrite H in Hok end.
    match goal with
    | H : _ \/ _ |- _ => destruct H as [[-> _]|(-> & _)]
    end; congruence.
Qed.

Lemma run_opened_on (sel : json) (a : CapArg) (evs : list Event) :
  forall (w : World) (g : nat),
    forallb (fun e => negb (is_change_source e)) evs = true ->
    current_video_source w = sel -> video_source_arg sel = Ok a ->
    opened_on a w g -> opened_on a (run w evs) g.
Proof.
  induction evs as [|e evs IH]; intros w g Hno Hsel Ha Hok; [exact Hok|].
  cbn in Hno. apply andb_prop in Hno as [He Hno].
  apply negb_true_iff in He.
  cbn. apply IH; try assumption.
  - rewrite step_source_kept by exact He. exact Hsel.
  - eapply step_opened_on; eassumption.
Qed.

(** *** The counter and the history *)

Lemma process_frame_logged (g : nat) (w : World) (frame : Frame) (now : Q) :
  match process_frame w frame now, process_frame (log_source_evals g w) frame now with
  | Ok (w1, r1), Ok (w2, r2) =>
      r1 = r2 /\ detection_history w1 = detection_history w2 /\ model w1 = model w2
  | Raise e1, Raise e2 => e1 = e2
  | _, _ => False
  end.
Proof.
  unfold process_frame.
  destruct (enhance_contrast frame) as [enh|e]; cbn; [|reflexivity].
  destruct (model_track (model w) enh). cbn. auto.
Qed.

Lemma frames_loop_record (w : World) (g : nat) (c : Capture) (rd : option Frame)
    (now : Q) :
  match snd (frames_loop w g c rd now), rd with
  | Yielded _, Some frame =>
      exists w1 r,
        process_frame w frame now = Ok (w1, r) /\
        detection_history (fst (frames_loop w g c rd now)) = detection_history w1
  | Yielded _, None => False
  | _, _ => detection_history (fst (frames_loop w g c rd now)) = detection_history w
  end.
Proof.
  unfold frames_loop.
  destruct (cap_opened c); [|reflexivity].
  destruct rd as [frame|]; [|reflexivity].
  destruct (process_frame w frame now) as [[w1 [processed n]]|e] eqn:Hp; cbn.
  - exists w1, (processed, n). split; reflexivity.
  - reflexivity.
Qed.

(** An event changes the history by exactly the sample it records. *)
Lemma step_history (w : World) (e : Event) :
  detection_history (fst (step w e))
  = fold_left record_sample (step_record w e) (detection_history w) /\
  length (step_record w e) = (if is_yield (snd (step w e)) then 1 else 0)%nat.
Proof.
  destruct e as [body| |g opens rd now|g].
  - destruct (change_source_fields w body) as (-> & _).
    unfold step_record. destruct body; cbn; split; reflexivity.
  - split; reflexivity.
  - assert (Hquiet : forall rd',
              (forall part, snd (gen_next w g opens rd' now) <> Yielded part) ->
              detection_history (fst (gen_next w g opens rd' now)) = detection_history w ->
              detection_history (fst (step w (GenNext g opens rd' now)))
              = fold_left record_sample (step_record w (GenNext g opens rd' now))
                          (detection_history w) /\
              length (step_record w (GenNext g opens rd' now))
              = (if is_yield (snd (step w (GenNext g opens rd' now)))
                 then 1 else 0)%nat).
    { intros rd' Hno Hsame. destruct rd' as [f|]; unfold step_record, step;
        match goal with
        | |- context [gen_next w g opens ?r now] =>
            destruct (gen_next w g opens r now) as [w' o]
        end; cbn [fst snd] in *;
        (destruct o as [part| | |]; [destruct (Hno part eq_refl)| | |]);
        cbn; auto. }
    pose proof (process_frame_logged g w) as Hlog.
    destruct (gen_next w g opens rd now) as [w' o] eqn:Hn.
    assert (Hrec :
      match o, rd with
      | Yielded _, Some frame =>
          exists w1 r, process_frame w frame now = Ok (w1, r) /\
                       detection_history w' = detection_history w1
      | Yielded _, None => False
      | _, _ => detection_history w' = detection_history w
      end).
    { unfold gen_next in Hn.
      destruct (frame_gens w !! g) as [[|c|last]|] eqn:Hg.
      - rewrite get_video_source_eq in Hn.
        destruct (video_source_arg (current_video_source w)) as [a|x]; cbn in Hn.
        + pose proof (frames_loop_record (log_source_evals g w) g
                        (VideoCapture a opens) rd now) as Hrec.
          rewrite Hn in Hrec. cbn [fst snd] in Hrec.
          destruct o as [part| | |]; destruct rd as [frame|]; try exact Hrec.
          destruct Hrec as (w1 & r & Hp & Hh).
          specialize (Hlog frame now). rewrite Hp in Hlog.
          destruct (process_frame w frame now) as [[w2 r2]|x]; [|contradiction].
          destruct Hlog as (-> & Hh2 & _).
          exists w2, r. split; [reflexivity|congruence].
        + injection Hn as <- <-. destruct rd; reflexivity.
      - pose proof (frames_loop_record w g c rd now) as Hrec.
        rewrite Hn in Hrec. exact Hrec.
      - injection Hn as <- <-. destruct rd; reflexivity.
      - injection Hn as <- <-. destruct rd; reflexivity. }
    destruct o as [part| | |];
      try (specialize (Hquiet rd); rewrite Hn in Hquiet; apply Hquiet;
           [discriminate|destruct rd; exact Hrec]).
    destruct rd as [frame|]; [|contradiction].
    destruct Hrec as (w1 & [ann n] & Hp & Hh).
    destruct (process_frame_inv _ _ _ _ _ Hp) as (_ & _ & _ & _ & Hh3 & _).
    cbn [snd] in Hh3.
    unfold step_record, step. rewrite Hn, Hp. cbn. split; [congruence|reflexivity].
  - unfold step_record, step.
    destruct (gen_close w g) as [w' o] eqn:Hn.
    destruct (gen_close_fields w g) as (Hh & _). rewrite Hn in Hh.
    cbn [fst snd] in *. split; [exact Hh|].
    unfold gen_close in Hn.
    destruct (frame_gens w !! g) as [[|c|last]|]; injection Hn as <- <-; reflexivity.
Qed.

Lemma run_history_window (evs : list Event) :
  forall (w : World) (before : list Sample),
    detection_history w = skipn (length before - 100) before ->
    detection_history (run w evs)
    = skipn (length (before ++ recorded w evs) - 100) (before ++ recorded w evs) /\
    length (recorded w evs) = frames_yielded w evs.
Proof.
  induction evs as [|e evs IH]; intros w before Hw.
  - cbn. rewrite app_nil_r. auto.
  - cbn [run fold_left recorded frames_yielded]. fold (run (fst (step w e)) evs).
    destruct (step_history w e) as [Hh Hl].
    assert (Hnext : detection_history (fst (step w e))
                    = skipn (length (before ++ step_record w e) - 100)
                            (before ++ step_record w e)).
    { rewrite Hh, Hw. destruct (step_record w e) as [|s [|s' l]].
      - cbn. rewrite app_nil_r. reflexivity.
      - cbn [fold_left]. apply record_sample_window.
      - destruct (is_yield (snd (step w e))); discriminate. }
    destruct (IH (fst (step w e)) (before ++ step_record w e) Hnext) as [IH1 IH2].
    rewrite <- app_assoc in IH1. split; [exact IH1|].
    rewrite length_app, Hl, IH2. reflexivity.
Qed.

Lemma startup_history (path_exists : string -> bool) :
  detection_history (world0 (startup path_exists)) = [].
Proof.
  unfold startup. destruct (negb (path_exists configured_model_path)); reflexivity.
Qed.

(** C1.  In every run of the server from startup, whatever streams and
    requests are interleaved, with N the number of frames that have gone
    through the pipeline (one per frame yielded): the history is the last
    [min N 100] of the N samples recorded, in the order they were
    recorded, and has exactly [min N 100] elements, so never more than
    100; and the next frame processed appends its sample and, once 100
    are held, drops exactly the oldest one. *)
Theorem history_holds_last_100 (path_exists : string -> bool) (evs : list Event) :
  let w0 := world0 (startup path_exists) in
  let w := run w0 evs in
  let samples := recorded w0 evs in
  let N := length samples in
  N = frames_yielded w0 evs /\
  detection_history w = skipn (N - 100) samples /\
  length (detection_history w) = Nat.min N 100 /\
  (length (detection_history w) <= 100)%nat /\
  (forall frame now w' r,
     process_frame w frame now = Ok (w', r) ->
     detection_history w' =
       (if (100 <=? N)%nat then tl (detection_history w) else detection_history w)
       ++ [(now, snd r)]).
Proof.
  intros w0 w samples N.
  destruct (run_history_window evs w0 [] (startup_history path_exists)) as [Hh HN].
  cbn [app] in Hh. fold w samples in Hh. fold samples in HN. fold N in Hh, HN.
  assert (Hmin : length (detection_history w) = Nat.min N 100).
  { rewrite Hh, length_skipn. fold N. lia. }
  split; [exact HN|]. split; [exact Hh|]. split; [exact Hmin|]. split; [lia|].
  intros frame now w' r Hp.
  destruct (process_frame_inv _ _ _ _ _ Hp) as (_ & _ & _ & _ & -> & _).
  rewrite record_sample_cases by lia. rewrite Hmin.
  destruct (Nat.leb_spec 100 N), (Nat.leb_spec 100 (Nat.min N 100));
    try lia; reflexivity.
Qed.

(** C2.  For every list of detections and every target class, the count is
    the number of detections whose class identifier is the target, and it
    is 0 for the empty list; the count [process_frame] returns is that
    number for the detections of the frame and the class of gunny bags. *)
Theorem count_is_number_of_target_detections (bs : list Box) (target : Z) :
  count_class bs target = Z.of_nat (count_occ Z.eq_dec (map class_id bs) target) /\
  count_class [] target = 0 /\
  forall (w : World) (frame : Frame) (now : Q),
    match process_frame w frame now with
    | Ok (_, (_, current_count)) =>
        exists enhanced,
          enhance_contrast frame = Ok enhanced /\
          current_count =
            Z.of_nat (count_occ Z.eq_dec
                        (map class_id (boxes (snd (model_track (model w) enhanced))))
                        gunny_bag_class_id)
    | Raise e => enhance_contrast frame = Raise e
    end.
Proof.
  assert (Hcount : forall l t,
            count_class l t = Z.of_nat (count_occ Z.eq_dec (map class_id l) t)).
  { intros l t. unfold count_class.
    rewrite py_sum_ones, filter_class_count_occ. reflexivity. }
  split; [apply Hcount|]. split; [reflexivity|].
  intros w frame now.
  destruct (process_frame w frame now) as [[w1 [ann c]]|e] eqn:Hp.
  - destruct (process_frame_inv _ _ _ _ _ Hp) as (enh & He & _ & Hc & _).
    exists enh. split; [exact He|]. cbn in Hc. rewrite Hc. apply Hcount.
  - unfold process_frame in Hp.
    destruct (enhance_contrast frame) as [enh|e'] eqn:He; cbn in Hp.
    + destruct (model_track (model w) enh). discriminate.
    + congruence.
Qed.

(** *** The video stream *)

Lemma created_opens_on_selection (w : World) (g : nat) opens rd now (c : Capture) :
  frame_gens w !! g = Some GenCreated ->
  frame_gens (fst (gen_next w g opens rd now)) !! g = Some (GenSuspended c) ->
  video_source_arg (current_video_source w) = Ok (cap_arg c) /\
  reads_of g (fst (gen_next w g opens rd now))
  = reads_of g w ++ repeat (g, current_video_source w)
                           (source_evals (current_video_source w)).
Proof.
  intros Hg Hs.
  pose proof (gen_next_change w g opens rd now g) as Hc. unfold gen_change in Hc.
  destruct Hc as [(K & _)|[(K & _)|[(_ & K & _)|[(_ & Hr & _ & K)|(c0 & c1 & K & _)]]]];
    try congruence.
  split; [|exact Hr].
  destruct K as [(x & _ & K)|(c0 & Hsel & [[K _]|(K & _)])]; congruence.
Qed.

(** Only the first resumption of a generator makes it evaluate the
    selection. *)
Lemma reads_only_when_created (w : World) (e : Event) (g : nat) :
  frame_gens w !! g <> Some GenCreated ->
  reads_of g (fst (step w e)) = reads_of g w.
Proof.
  intros Hg. step_cases w e g; try assumption; contradiction.
Qed.

(** C3, as the code has it.  A call of [get_video_source] is one step of
    a run: no handler runs inside it.  In every run of the server from
    startup, a generator that holds a capture has evaluated the source
    selection
    between one and three times (at line 74, then at line 76, then at
    line 80, as far as [get_video_source] gets), every time with the same
    result, and the capture was made from that value.  Whatever happens
    afterwards (changes of the selection included) it evaluates the
    selection no more and its capture stays one made from the same
    argument, until and after it finishes.  A generator that has not
    started has not read the selection; no event makes a generator read
    it except that generator's first resumption, which reads the
    selection as it is at that moment. *)
Theorem source_selection_latched (path_exists : string -> bool)
    (evs1 evs2 : list Event) (g : nat) (c : Capture) :
  let w1 := run (world0 (startup path_exists)) evs1 in
  let w2 := run w1 evs2 in
  frame_gens w1 !! g = Some (GenSuspended c) ->
  (exists sel,
     reads_of g w1 = repeat (g, sel) (source_evals sel) /\
     (1 <= source_evals sel <= 3)%nat /\
     video_source_arg sel = Ok (cap_arg c)) /\
  reads_of g w2 = reads_of g w1 /\
  (exists c', cap_arg c' = cap_arg c /\
     (frame_gens w2 !! g = Some (GenSuspended c') \/
      frame_gens w2 !! g = Some (GenFinished (Some c')))) /\
  (forall g', frame_gens w1 !! g' = Some GenCreated -> reads_by g' w1 = 0%nat) /\
  (forall w e g',
     frame_gens w !! g' <> Some GenCreated ->
     reads_of g' (fst (step w e)) = reads_of g' w) /\
  (forall w g' opens rd now c0,
     frame_gens w !! g' = Some GenCreated ->
     frame_gens (fst (gen_next w g' opens rd now)) !! g' = Some (GenSuspended c0) ->
     video_source_arg (current_video_source w) = Ok (cap_arg c0) /\
     reads_of g' (fst (gen_next w g' opens rd now))
     = reads_of g' w ++ repeat (g', current_video_source w)
                               (source_evals (current_video_source w))).
Proof.
  intros w1 w2 Hg.
  pose proof (run_reads_ok evs1 _ g (startup_reads_ok path_exists g)) as Hok.
  fold w1 in Hok. unfold reads_ok in Hok. rewrite Hg in Hok.
  destruct Hok as (sel & Hreads & Hsel).
  destruct (suspended_future evs2 w1 g c Hg) as (Hsame & c' & Hc' & Hfut).
  fold w2 in Hsame, Hfut.
  split.
  { exists sel. split; [exact Hreads|]. split; [|exact Hsel].
    destruct (source_evals_range sel) as (n & -> & Hn). lia. }
  split; [exact Hsame|]. split.
  { exists c'. split; [exact Hc'|]. destruct Hfut as [K|(K & _)]; auto. }
  split.
  { intros g' Hg'.
    pose proof (run_reads_ok evs1 _ g' (startup_reads_ok path_exists g')) as Hok'.
    fold w1 in Hok'. unfold reads_ok in Hok'. rewrite Hg' in Hok'.
    unfold reads_by. rewrite Hok'. reflexivity. }
  split.
  { intros w e g'. apply reads_only_when_created. }
  intros w g' opens rd now c0. apply created_opens_on_selection.
Qed.

(** C4, as the code has it.  The model with its tracker state is changed by
    nothing but the detector call of [process_frame]: a change of source,
    a new stream and the end of a stream leave it as it is, and the first
    frame of a newly opened stream, like every later one, is tracked
    starting from the state the previous call left, whichever stream and
    source that call belonged to. *)
Theorem tracker_state_carries_over :
  (forall (w : World) body, model (fst (step w (ChangeSource body))) = model w) /\
  (forall (w : World), model (fst (step w VideoFeed)) = model w) /\
  (forall (w : World) g, model (fst (step w (GenClose g))) = model w) /\
  (forall (w : World) g opens rd now,
     model (fst (step w (GenNext g opens rd now))) = model w \/
     exists frame enhanced,
       rd = Some frame /\ enhance_contrast frame = Ok enhanced /\
       model (fst (step w (GenNext g opens rd now)))
       = fst (model_track (model w) enhanced)) /\
  (forall (w : World) g a frame enhanced now,
     frame_gens w !! g = Some GenCreated ->
     video_source_arg (current_video_source w) = Ok a ->
     enhance_contrast frame = Ok enhanced ->
     model (fst (step w (GenNext g true (Some frame) now)))
     = fst (model_track (model w) enhanced)) /\
  (forall (w : World) g c frame enhanced opens now,
     frame_gens w !! g = Some (GenSuspended c) ->
     cap_opened c = true ->
     enhance_contrast frame = Ok enhanced ->
     model (fst (step w (GenNext g opens (Some frame) now)))
     = fst (model_track (model w) enhanced)).
Proof.
  split; [intros w body; apply change_source_fields|].
  split; [reflexivity|].
  split.
  { intros w g. cbn [step]. destruct (gen_close w g) as [w1 o] eqn:Hn.
    destruct (gen_close_fields w g) as (_ & Hm & _). rewrite Hn in Hm. exact Hm. }
  split.
  { intros w g opens rd now. cbn [step].
    destruct (gen_next w g opens rd now) as [w1 o] eqn:Hn.
    destruct (gen_next_pipeline w g opens rd now) as [Hp _].
    rewrite Hn in Hp. cbn in *.
    destruct Hp as [[_ Hm]|(frame & enh & Hrd & He & Hm & _)]; [left; exact Hm|].
    right. exists frame, enh. auto. }
  split.
  - intros w g a frame enh now Hg Ha He. cbn [step].
    unfold gen_next. rewrite Hg, get_video_source_eq, Ha.
    unfold frames_loop, process_frame. cbn. rewrite He. cbn.
    destruct (model_track (model w) enh). reflexivity.
  - intros w g c frame enh opens now Hg Hop He. cbn [step].
    unfold gen_next, frames_loop, process_frame.
    rewrite Hg, Hop, He. cbn.
    destruct (model_track (model w) enh). reflexivity.
Qed.

(** C5, as the code has it.  The request with body
    [{"source": "sample.mp4"}] stores that value and answers
    [{"success": true, "source": "sample.mp4"}]; every stream that was not
    yet opened and is opened afterwards, as long as no other
    [/change_source] request has come in between, has its capture made
    from the path [sample.mp4] joined to the working directory, not from
    camera 0. *)
Theorem change_source_sample_then_open (w : World) (evs : list Event)
    (g : nat) (c : Capture) :
  let w1 := set_source (JStr "sample.mp4") w in
  forallb (fun e => negb (is_change_source e)) evs = true ->
  (frame_gens w !! g = None \/ frame_gens w !! g = Some GenCreated) ->
  (frame_gens (run w1 evs) !! g = Some (GenSuspended c) \/
   frame_gens (run w1 evs) !! g = Some (GenFinished (Some c))) ->
  change_source w (JObj [("source", JStr "sample.mp4")])
  = Ok (w1, JObj [("success", JBool true); ("source", JStr "sample.mp4")]) /\
  cap_arg c = CapName (path_join cwd ["sample.mp4"]) /\
  cap_arg c <> CapIndex 0.
Proof.
  intros w1 Hno Hnot Hopen.
  split; [reflexivity|].
  assert (Hc : cap_arg c = CapName (path_join cwd ["sample.mp4"])).
  { pose proof (run_opened_on (JStr "sample.mp4")
                  (CapName (path_join cwd ["sample.mp4"])) evs w1 g Hno
                  eq_refl eq_refl) as Hinv.
    unfold opened_on in Hinv.
    assert (H0 : match frame_gens w1 !! g with
                 | Some (GenSuspended c0) | Some (GenFinished (Some c0)) =>
                     cap_arg c0 = CapName (path_join cwd ["sample.mp4"])
                 | _ => True
                 end).
    { cbn. destruct Hnot as [->| ->]; exact I. }
    specialize (Hinv H0).
    destruct Hopen as [K|K]; rewrite K in Hinv; exact Hinv. }
  split; [exact Hc|]. rewrite Hc. discriminate.
Qed.

Lemma step_released_ok (w : World) (e : Event) (g : nat) :
  released_ok w g -> released_ok (fst (step w e)) g.
Proof.
  unfold released_ok. intros Hok.
  step_cases w e g.
  - match goal with H : frame_gens (fst _) !! g = _ |- _ => rewrite H end. exact Hok.
  - match goal with H : frame_gens (fst _) !! g = _ |- _ => rewrite H end. exact I.
  - match goal with H : frame_gens (fst _) !! g = _ |- _ => rewrite H end. exact I.
  - match goal with
    | H : _ \/ _ |- _ =>
        destruct H as [(x & _ & ->)|(c & Hc & [[-> _]|(-> & K)])]
    end; try exact I; exact K.
  - match goal with
    | H : _ \/ _ |- _ => destruct H as [[-> _]|(-> & K)]
    end; try exact I; exact K.
Qed.

Lemma run_released_ok (evs : list Event) (w : World) (g : nat) :
  released_ok w g -> released_ok (run w evs) g.
Proof.
  revert w. induction evs as [|e evs IH]; intros w Hok; [exact Hok|].
  cbn. apply IH, step_released_ok, Hok.
Qed.

(** C6.  When a read fails, that resumption ends the generator: it stops
    with the capture released after exactly that one read, stays finished
    whatever happens later, and every later resumption stops at once
    without another read; the same holds when the very first read fails.
    Closing a suspended generator (the client went away) releases its
    capture.  In general a generator that holds a capture can only go on
    holding it or finish with it released, and in every run from startup
    every finished generator that had a capture has released it. *)
Theorem failed_read_ends_stream_and_releases :
  (forall (w : World) g c opens now evs,
     frame_gens w !! g = Some (GenSuspended c) -> cap_opened c = true ->
     let r := gen_next w g opens None now in
     let final := GenFinished (Some (cap_release (cap_read c))) in
     snd r = StopIteration /\
     frame_gens (fst r) !! g = Some final /\
     frame_gens (run (fst r) evs) !! g = Some final /\
     (forall opens' rd' now',
        gen_next (run (fst r) evs) g opens' rd' now'
        = (run (fst r) evs, StopIteration))) /\
  (forall (w : World) g a now evs,
     frame_gens w !! g = Some GenCreated ->
     video_source_arg (current_video_source w) = Ok a ->
     let r := gen_next w g true None now in
     let final := GenFinished (Some (cap_release (cap_read (VideoCapture a true)))) in
     snd r = StopIteration /\
     frame_gens (fst r) !! g = Some final /\
     frame_gens (run (fst r) evs) !! g = Some final) /\
  (forall (w : World) g c,
     frame_gens w !! g = Some (GenSuspended c) ->
     frame_gens (fst (gen_close w g)) !! g
     = Some (GenFinished (Some (cap_release c)))) /\
  (forall (w : World) g c evs,
     frame_gens w !! g = Some (GenSuspended c) ->
     exists c', cap_arg c' = cap_arg c /\
       (frame_gens (run w evs) !! g = Some (GenSuspended c') \/
        (frame_gens (run w evs) !! g = Some (GenFinished (Some c')) /\
         cap_released c' = true /\ cap_opened c' = false))) /\
  (forall path_exists evs g c,
     frame_gens (run (world0 (startup path_exists)) evs) !! g
     = Some (GenFinished (Some c)) ->
     cap_released c = true /\ cap_opened c = false).
Proof.
  split.
  { intros w g c opens now evs Hg Hop r final.
    assert (Hr : r = (set_gen g final w, StopIteration)).
    { unfold r, gen_next, frames_loop. rewrite Hg, Hop. reflexivity. }
    assert (Hfin : frame_gens (fst r) !! g = Some final).
    { rewrite Hr. cbn. apply list_lookup_insert_eq.
      apply lookup_lt_Some with (x := GenSuspended c). exact Hg. }
    destruct (finished_future evs _ _ _ Hfin) as [Hst _].
    split; [rewrite Hr; reflexivity|]. split; [exact Hfin|]. split; [exact Hst|].
    intros opens' rd' now'. unfold gen_next. rewrite Hst. reflexivity. }
  split.
  { intros w g a now evs Hg Ha r final.
    assert (Hfin : frame_gens (fst r) !! g = Some final).
    { unfold r, gen_next. rewrite Hg, get_video_source_eq, Ha. unfold frames_loop. cbn.
      apply list_lookup_insert_eq.
      apply lookup_lt_Some with (x := GenCreated). exact Hg. }
    destruct (finished_future evs _ _ _ Hfin) as [Hst _].
    split; [|split; assumption].
    unfold r, gen_next. rewrite Hg, get_video_source_eq, Ha. unfold frames_loop. reflexivity. }
  split.
  { intros w g c Hg. unfold gen_close. rewrite Hg. cbn.
    apply list_lookup_insert_eq.
    apply lookup_lt_Some with (x := GenSuspended c). exact Hg. }
  split.
  { intros w g c evs Hg.
    destruct (suspended_future evs w g c Hg) as (_ & c' & Hc' & Hfut).
    exists c'. split; assumption. }
  intros path_exists evs g c Hg.
  assert (H0 : released_ok (world0 (startup path_exists)) g).
  { unfold released_ok, startup.
    destruct (negb (path_exists configured_model_path)); exact I. }
  pose proof (run_released_ok evs _ g H0) as Hok.
  unfold released_ok in Hok. rewrite Hg in Hok. exact Hok.
Qed.

(** *** The count stream *)

Lemma count_message_last (h : list Sample) (t : Q) (count : Z) :
  count_message (h ++ [(t, count)]) = "data: " +:+ py_str_int count +:+ LF +:+ LF.
Proof. unfold count_message. rewrite last_snoc. reflexivity. Qed.

Lemma half_step (t : Q) (k : nat) :
  (t == inject_Z (Z.of_nat k) * (1 # 2))%Q ->
  (t + (1 # 2) == inject_Z (Z.of_nat (S k)) * (1 # 2))%Q.
Proof.
  intros Ht. rewrite Ht, Nat2Z.inj_succ. unfold Z.succ.
  rewrite inject_Z_plus. ring.
Qed.

Lemma counts_run_suspended (ws : list World) :
  forall (t : Q) (k : nat),
    (t == inject_Z (Z.of_nat k) * (1 # 2))%Q ->
    snd (counts_run ws CountSuspended) = CountSuspended /\
    map snd (timeline t (fst (counts_run ws CountSuspended)))
    = map (fun w => count_message (detection_history w)) ws /\
    Forall2 (fun (i : nat) (at_time : Q) =>
               (at_time == inject_Z (Z.of_nat i) * (1 # 2))%Q)
            (seq (S k) (length ws))
            (map fst (timeline t (fst (counts_run ws CountSuspended)))).
Proof.
  induction ws as [|w ws IH]; intros t k Ht.
  - cbn. auto.
  - cbn [counts_run counts_next].
    destruct (counts_run ws CountSuspended) as [rest st] eqn:Hrun.
    destruct (IH (t + (1 # 2))%Q (S k) (half_step t k Ht)) as (Hst & Hmsg & Htime).
    cbn in Hst, Hmsg, Htime |- *.
    split; [exact Hst|]. split; [f_equal; exact Hmsg|].
    constructor; [apply half_step, Ht|exact Htime].
Qed.

(** C7.  Opened on an empty history, the stream first emits [data: 0]
    followed by two line feeds.  Every resumption emits exactly one
    message, that of the count of the newest sample at that moment (or 0
    without samples); the generator sleeps 0.5 before each message but the
    first, so that the k-th message (from 0) is emitted after k/2 of
    sleep; and however often it is resumed it yields again and remains
    resumable, so the sequence has no end. *)
Theorem count_updates_stream :
  (forall (w : World),
     detection_history w = [] ->
     fst (counts_next w CountCreated) = [Emit ("data: 0" +:+ LF +:+ LF)]) /\
  (forall h t count,
     count_message (h ++ [(t, count)])
     = "data: " +:+ py_str_int count +:+ LF +:+ LF) /\
  count_message [] = "data: 0" +:+ LF +:+ LF /\
  (forall (w : World) st,
     exists sleeps,
       fst (counts_next w st) = sleeps ++ [Emit (count_message (detection_history w))] /\
       sleeps = match st with CountCreated => [] | CountSuspended => [Sleep (1 # 2)] end /\
       snd (counts_next w st) = CountSuspended) /\
  (forall (ws : list World),
     let acts := fst (counts_run ws CountCreated) in
     map snd (timeline 0 acts)
     = map (fun w => count_message (detection_history w)) ws /\
     length (timeline 0 acts) = length ws /\
     Forall2 (fun (i : nat) (at_time : Q) =>
                (at_time == inject_Z (Z.of_nat i) * (1 # 2))%Q)
             (seq 0 (length ws)) (map fst (timeline 0 acts))).
Proof.
  split.
  { intros w Hh. cbn. unfold count_message. rewrite Hh. reflexivity. }
  split; [apply count_message_last|]. split; [reflexivity|]. split.
  { intros w [|]; eexists; cbn; (split; [|split; reflexivity]); reflexivity. }
  intros ws acts.
  assert (Hmain :
    map snd (timeline 0 acts)
    = map (fun w => count_message (detection_history w)) ws /\
    Forall2 (fun (i : nat) (at_time : Q) =>
               (at_time == inject_Z (Z.of_nat i) * (1 # 2))%Q)
            (seq 0 (length ws)) (map fst (timeline 0 acts))).
  { unfold acts. destruct ws as [|w ws]; [cbn; auto|].
    cbn [counts_run counts_next].
    destruct (counts_run ws CountSuspended) as [rest st] eqn:Hrun.
    assert (H0 : (0 == inject_Z (Z.of_nat 0) * (1 # 2))%Q) by reflexivity.
    destruct (counts_run_suspended ws 0%Q 0%nat H0) as (_ & Hmsg & Htime).
    rewrite Hrun in Hmsg, Htime. cbn in Hmsg, Htime |- *.
    split; [f_equal; exact Hmsg|].
    constructor; [reflexivity|exact Htime]. }
  destruct Hmain as [Hmsg Htime].
  split; [exact Hmsg|]. split; [|exact Htime].
  rewrite <- (length_map snd), Hmsg, length_map. reflexivity.
Qed.

(** *** Startup and the source selector *)

(** C8.  Without a file at the configured path the model path becomes
    [yolov8n.pt], one line reporting the fallback is printed and the model
    is loaded from [yolov8n.pt]; with the file, the configured path (the
    working directory joined with [model] and [best.pt]) is kept, reported
    and loaded.  The target class is 0 in both cases. *)
Theorem startup_model_fallback (path_exists : string -> bool) :
  (path_exists configured_model_path = false ->
   MODEL_PATH (startup path_exists) = "yolov8n.pt" /\
   stdout (startup path_exists)
   = ["Custom model not found at yolov8n.pt, using pretrained model"] /\
   model (world0 (startup path_exists)) = YOLO "yolov8n.pt") /\
  (path_exists configured_model_path = true ->
   MODEL_PATH (startup path_exists) = path_join cwd ["model"; "best.pt"] /\
   stdout (startup path_exists)
   = ["Using custom model: " +:+ path_join cwd ["model"; "best.pt"]] /\
   model (world0 (startup path_exists)) = YOLO (path_join cwd ["model"; "best.pt"])) /\
  gunny_bag_class_id = 0.
Proof.
  unfold startup.
  split; [|split; [|reflexivity]]; intros ->; cbn; repeat split; reflexivity.
Qed.

(** C10, as the code has it.  For a request whose JSON body is an object,
    the stored selection becomes the value under ["source"], or
    ["webcam"] when the object has no such key; the answer is
    [{"success": true, "source": v}] with [v] the stored value, whatever
    that value is. *)
Theorem change_source_object_body (w : World) (d : list (string * json)) :
  let v := dict_get d "source" (JStr "webcam") in
  change_source w (JObj d)
  = Ok (set_source v w, JObj [("success", JBool true); ("source", v)]) /\
  current_video_source (set_source v w) = v /\
  (dict_has d "source" = false -> v = JStr "webcam").
Proof.
  intros v. split; [reflexivity|]. split; [reflexivity|].
  unfold v. induction d as [|[k x] d IH]; cbn; [reflexivity|].
  destruct (String.eqb k "source"); [discriminate|exact IH].
Qed.

End AppProperties.

(** ** The dataset split *)

Lemma string_app_assoc (a b c : string) : (a +:+ b) +:+ c = a +:+ (b +:+ c).
Proof.
  induction a as [|x a IH]; [reflexivity|].
  change (String x ((a +:+ b) +:+ c) = String x (a +:+ (b +:+ c))).
  f_equal. exact IH.
Qed.

Lemma string_app_nonempty (a b : string) :
  b <> "" -> String.eqb (a +:+ b) "" = false.
Proof.
  intros Hb. destruct a as [|x a]; [|reflexivity].
  change (String.eqb b "" = false).
  destruct b; [contradiction|reflexivity].
Qed.

Lemma endswith_slash_app (a b : string) :
  b <> "" -> endswith_slash (a +:+ b) = endswith_slash b.
Proof.
  intros Hb. induction a as [|x a IH]; [reflexivity|].
  change (endswith_slash (String x (a +:+ b)) = endswith_slash b).
  destruct (a +:+ b) as [|y s] eqn:Hab.
  - destruct a; [|discriminate]. change (b = "") in Hab. contradiction.
  - rewrite <- IH. reflexivity.
Qed.

(** Joining a component that does not start with a slash to a non-empty
    path that does not end with one puts exactly one slash between. *)
Lemma join2_plain (p b : string) :
  String.eqb p "" = false -> endswith_slash p = false ->
  startswith_slash b = false -> join2 p b = p +:+ "/" +:+ b.
Proof. intros Hp Hs Hb. unfold join2. rewrite Hb, Hp, Hs. reflexivity. Qed.

Lemma dataset_dir_shape (cwd : string) :
  String.eqb (dataset_dir cwd) "" = false /\ endswith_slash (dataset_dir cwd) = false.
Proof.
  unfold dataset_dir, path_join, join2. cbn [fold_left startswith_slash].
  replace (Ascii.eqb "d" "/") with false by reflexivity.
  destruct (String.eqb cwd "" || endswith_slash cwd).
  - split; [apply string_app_nonempty; discriminate|].
    rewrite endswith_slash_app by discriminate. reflexivity.
  - split; [apply string_app_nonempty; discriminate|].
    rewrite endswith_slash_app by discriminate. reflexivity.
Qed.

(** The four directories are the dataset directory followed by four
    different suffixes. *)
Lemma dataset_dirs_shape (cwd : string) :
  train_img_dir cwd = dataset_dir cwd +:+ "/images/train" /\
  val_img_dir cwd = dataset_dir cwd +:+ "/images/val" /\
  train_label_dir cwd = dataset_dir cwd +:+ "/labels/train" /\
  val_label_dir cwd = dataset_dir cwd +:+ "/labels/val".
Proof.
  destruct (dataset_dir_shape cwd) as [Hne Hs].
  assert (Hsub : forall mid leaf,
            startswith_slash mid = false -> startswith_slash leaf = false ->
            mid <> "" -> endswith_slash mid = false ->
            path_join (dataset_dir cwd) [mid; leaf]
            = dataset_dir cwd +:+ ("/" +:+ mid +:+ "/" +:+ leaf)).
  { intros mid leaf Hm Hl Hmne Hms. unfold path_join. cbn [fold_left].
    rewrite (join2_plain (dataset_dir cwd) mid Hne Hs Hm).
    rewrite join2_plain.
    - rewrite !string_app_assoc. reflexivity.
    - apply string_app_nonempty. discriminate.
    - rewrite endswith_slash_app by discriminate.
      change ("/" +:+ mid) with (String "/" mid).
      destruct mid; [contradiction|exact Hms].
    - exact Hl. }
  unfold train_img_dir, val_img_dir, train_label_dir, val_label_dir.
  repeat split; rewrite Hsub; try reflexivity; discriminate.
Qed.


(** *** Rounding to binary64 *)

Lemma pow2_pos (k : Z) : 0 <= k -> 0 < 2 ^ k.
Proof. intros. apply Z.pow_pos_nonneg; lia. Qed.

Lemma pow2_split (a b : Z) : 0 <= a -> 0 <= b -> 2 ^ (a + b) = 2 ^ a * 2 ^ b.
Proof. intros. apply Z.pow_add_r; assumption. Qed.

Lemma digits2_bounds (p : positive) :
  2 ^ (Zpos (digits2_pos p) - 1) <= Zpos p < 2 ^ Zpos (digits2_pos p).
Proof.
  induction p as [p IH|p IH|]; cbn [digits2_pos].
  - rewrite Pos2Z.inj_succ, (Pos2Z.inj_xI p).
    replace (Z.succ (Zpos (digits2_pos p)) - 1) with (Z.succ (Zpos (digits2_pos p) - 1)) by lia.
    rewrite !Z.pow_succ_r by lia. lia.
  - rewrite Pos2Z.inj_succ, (Pos2Z.inj_xO p).
    replace (Z.succ (Zpos (digits2_pos p)) - 1) with (Z.succ (Zpos (digits2_pos p) - 1)) by lia.
    rewrite !Z.pow_succ_r by lia. lia.
  - cbn. lia.
Qed.

Lemma iter_pos_nat {A} (f : A -> A) (p : positive) :
  forall x, SpecFloat.iter_pos f p x = Nat.iter (Pos.to_nat p) f x.
Proof.
  induction p as [p IH|p IH|]; intros x; cbn [SpecFloat.iter_pos].
  - rewrite !IH, Pos2Nat.inj_xI.
    replace (S (2 * Pos.to_nat p)) with (Pos.to_nat p + (Pos.to_nat p + 1))%nat by lia.
    rewrite !Nat.iter_add. reflexivity.
  - rewrite !IH, Pos2Nat.inj_xO.
    replace (2 * Pos.to_nat p)%nat with (Pos.to_nat p + Pos.to_nat p)%nat by lia.
    rewrite Nat.iter_add. reflexivity.
  - reflexivity.
Qed.

Lemma shr_1_spec (m : Z) (r s : bool) :
  0 <= m ->
  shr_1 {| shr_m := m; shr_r := r; shr_s := s |}
  = {| shr_m := m / 2; shr_r := Z.odd m; shr_s := r || s |}.
Proof.
  intros Hm. destruct m as [|[p|p|]|]; try lia; cbn [shr_1].
  - reflexivity.
  - f_equal. rewrite (Pos2Z.inj_xI p). apply Z.div_unique_pos with (r := 1); lia.
  - f_equal. rewrite (Pos2Z.inj_xO p). apply Z.div_unique_pos with (r := 0); lia.
  - reflexivity.
Qed.

(** Shifting right by [n] bits divides by [2^n], and loses nothing when the
    bits shifted out are zero. *)
Lemma shr_iter (n : nat) (m : Z) :
  0 <= m ->
  let mrs := Nat.iter n shr_1 {| shr_m := m; shr_r := false; shr_s := false |} in
  shr_m mrs = m / 2 ^ Z.of_nat n /\
  (m mod 2 ^ Z.of_nat n = 0 -> shr_r mrs = false /\ shr_s mrs = false).
Proof.
  intros Hm. induction n as [|n IH]; cbn zeta.
  - cbn. rewrite Z.div_1_r. auto.
  - rewrite Nat.iter_succ.
    destruct (Nat.iter n shr_1 _) as [m' r' s'] eqn:Hit. cbn zeta in IH. cbn [shr_m shr_r shr_s] in IH.
    destruct IH as [IHm IHe].
    assert (Hp : 0 < 2 ^ Z.of_nat n) by (apply pow2_pos; lia).
    assert (Hm' : 0 <= m') by (rewrite IHm; apply Z.div_pos; lia).
    rewrite shr_1_spec by exact Hm'. cbn [shr_m shr_r shr_s].
    rewrite Nat2Z.inj_succ, Z.pow_succ_r by lia.
    split.
    + rewrite IHm, Z.div_div by lia. f_equal. lia.
    + intros Hz.
      assert (Hdiv : m = 2 * 2 ^ Z.of_nat n * (m / (2 * 2 ^ Z.of_nat n))).
      { pose proof (Z.div_mod m (2 * 2 ^ Z.of_nat n)). lia. }
      set (q := m / (2 * 2 ^ Z.of_nat n)) in *.
      assert (Hz' : m mod 2 ^ Z.of_nat n = 0).
      { rewrite Hdiv. replace (2 * 2 ^ Z.of_nat n * q) with ((2 * q) * 2 ^ Z.of_nat n) by lia.
        apply Z.mod_mul. lia. }
      destruct (IHe Hz') as [-> ->].
      assert (Hq : m' = 2 * q).
      { rewrite IHm. rewrite Hdiv at 1.
        replace (2 * 2 ^ Z.of_nat n * q) with ((2 * q) * 2 ^ Z.of_nat n) by lia.
        apply Z.div_mul. lia. }
      rewrite Hq, Z.odd_mul. cbn. auto.
Qed.

Lemma shr_fexp_spec (m e : Z) :
  0 <= m ->
  let k := shift_of m e in
  let r := shr_fexp 53 1024 m e loc_Exact in
  (k <= 0 -> r = ({| shr_m := m; shr_r := false; shr_s := false |}, e)) /\
  (0 < k ->
   shr_m (fst r) = m / 2 ^ k /\ snd r = e + k /\
   (m mod 2 ^ k = 0 -> loc_of_shr_record (fst r) = loc_Exact)).
Proof.
  intros Hm k r. unfold r, shr_fexp, shr. fold (shift_of m e). fold k.
  cbn [shr_record_of_loc].
  destruct k as [|p|p] eqn:Hk; split; try lia; try reflexivity.
  intros _. cbn [fst snd]. rewrite iter_pos_nat.
  destruct (shr_iter (Pos.to_nat p) m Hm) as [H1 H2].
  rewrite positive_nat_Z in H1, H2.
  split; [exact H1|]. split; [reflexivity|].
  intros Hz. destruct (H2 Hz) as [Hr Hs].
  destruct (Nat.iter _ _ _) as [m' r' s']. cbn in Hr, Hs. subst. reflexivity.
Qed.

Lemma round_nearest_even_bounds (m : Z) (l : location) :
  m <= round_nearest_even m l <= m + 1 /\ round_nearest_even m loc_Exact = m.
Proof.
  split; [|reflexivity].
  destruct l as [|[| |]]; cbn; try lia. destruct (Z.even m); lia.
Qed.

Lemma above_mono (m m' e n : Z) : m <= m' -> above m e n -> above m' e n.
Proof.
  unfold above. intros Hm H.
  assert (0 < 2 ^ Z.max 0 e) by (apply pow2_pos; lia). nia.
Qed.

Lemma above_pos (m e n : Z) : 1 <= n -> above m e n -> 1 <= m.
Proof.
  unfold above. intros Hn H.
  assert (0 < 2 ^ Z.max 0 e) by (apply pow2_pos; lia).
  assert (0 < 2 ^ Z.max 0 (- e)) by (apply pow2_pos; lia). nia.
Qed.

(** The exponent a mantissa is rounded at. *)
Lemma shift_exponent (m e : Z) :
  shift_of m e + e = Z.max (Zdigits2 m + e - 53) (-1074).
Proof. unfold shift_of, fexp, emin. lia. Qed.

(** Truncating to 53 bits does not go below an integer of at most 53
    bits. *)
Lemma trunc_above (p : positive) (e n : Z) :
  1 <= n < 2 ^ 53 -> above (Zpos p) e n -> 0 < shift_of (Zpos p) e ->
  above (Zpos p / 2 ^ shift_of (Zpos p) e) (e + shift_of (Zpos p) e) n.
Proof.
  intros Hn Habove Hk.
  pose proof (shift_exponent (Zpos p) e) as He. cbn [Zdigits2] in He.
  pose proof (digits2_bounds p) as Hd.
  set (k := shift_of (Zpos p) e) in *. set (d := Zpos (digits2_pos p)) in *.
  set (m := Zpos p) in *.
  assert (HK : 0 < 2 ^ k) by (apply pow2_pos; lia).
  unfold above in *.
  destruct (Z.le_gt_cases (e + k) 0) as [Hle|Hgt].
  - (* the result keeps a non-positive exponent *)
    replace (Z.max 0 (e + k)) with 0 by lia. rewrite Z.pow_0_r, Z.mul_1_r.
    replace (Z.max 0 e) with 0 in Habove by lia.
    rewrite Z.pow_0_r, Z.mul_1_r in Habove.
    replace (Z.max 0 (- e)) with (- (e + k) + k) in Habove by lia.
    replace (Z.max 0 (- (e + k))) with (- (e + k)) by lia.
    rewrite pow2_split in Habove by lia.
    apply Z.div_le_lower_bound; [exact HK|]. lia.
  - (* the result has 53 bits and a positive exponent *)
    assert (Hk' : k = d - 53) by lia.
    replace (Z.max 0 (- (e + k))) with 0 by lia. rewrite Z.pow_0_r, Z.mul_1_r.
    replace (Z.max 0 (e + k)) with (e + k) by lia.
    assert (Hq : 2 ^ 52 <= m / 2 ^ k).
    { apply Z.div_le_lower_bound; [exact HK|].
      rewrite <- pow2_split by lia. replace (k + 52) with (d - 1) by lia. lia. }
    assert (H2 : 2 <= 2 ^ (e + k)).
    { change 2 with (2 ^ 1) at 1. apply Z.pow_le_mono_r; lia. }
    assert (2 ^ 53 = 2 ^ 52 * 2) by reflexivity. nia.
Qed.

Lemma trunc_below (m e k n : Z) :
  0 <= m -> 0 <= n -> 0 < k -> below m e n -> below (m / 2 ^ k) (e + k) n.
Proof.
  intros Hm Hn Hk H. unfold below in *.
  assert (HK : 0 < 2 ^ k) by (apply pow2_pos; lia).
  pose proof (Z.mul_div_le m (2 ^ k) HK) as Hq.
  assert (Hq0 : 0 <= m / 2 ^ k) by (apply Z.div_pos; lia).
  set (q := m / 2 ^ k) in *.
  destruct (Z.le_gt_cases 0 e) as [He|He].
  - replace (Z.max 0 (e + k)) with (e + k) by lia.
    replace (Z.max 0 (- (e + k))) with 0 by lia.
    replace (Z.max 0 e) with e in H by lia.
    replace (Z.max 0 (- e)) with 0 in H by lia.
    rewrite pow2_split by lia.
    assert (0 < 2 ^ e) by (apply pow2_pos; lia). nia.
  - replace (Z.max 0 e) with 0 in H by lia.
    replace (Z.max 0 (- e)) with (- e) in H by lia.
    rewrite Z.pow_0_r, Z.mul_1_r in H.
    destruct (Z.le_gt_cases 0 (e + k)) as [Hek|Hek].
    + replace (Z.max 0 (e + k)) with (e + k) by lia.
      replace (Z.max 0 (- (e + k))) with 0 by lia.
      rewrite Z.pow_0_r, Z.mul_1_r.
      assert (Hs : 2 ^ k = 2 ^ (e + k) * 2 ^ (- e)).
      { rewrite <- pow2_split by lia. f_equal. lia. }
      assert (0 < 2 ^ (e + k)) by (apply pow2_pos; lia).
      assert (0 < 2 ^ (- e)) by (apply pow2_pos; lia).
      rewrite Hs in Hq. nia.
    + replace (Z.max 0 (e + k)) with 0 by lia.
      replace (Z.max 0 (- (e + k))) with (- (e + k)) by lia.
      rewrite Z.pow_0_r, Z.mul_1_r.
      assert (Hs : 2 ^ (- e) = 2 ^ (- (e + k)) * 2 ^ k).
      { rewrite <- pow2_split by lia. f_equal. lia. }
      assert (0 < 2 ^ (- (e + k))) by (apply pow2_pos; lia).
      rewrite Hs in H. nia.
Qed.

(** Rounding to 53 bits does not go above an integer of at most 53 bits. *)
Lemma round_below (p : positive) (e n m2 : Z) :
  0 <= n < 2 ^ 53 -> below (Zpos p) e n -> 0 < shift_of (Zpos p) e ->
  Zpos p / 2 ^ shift_of (Zpos p) e <= m2 <= Zpos p / 2 ^ shift_of (Zpos p) e + 1 ->
  (Zpos p mod 2 ^ shift_of (Zpos p) e = 0 -> m2 = Zpos p / 2 ^ shift_of (Zpos p) e) ->
  below m2 (e + shift_of (Zpos p) e) n.
Proof.
  intros Hn Hbelow Hk Hm2 Hexact.
  pose proof (shift_exponent (Zpos p) e) as He. cbn [Zdigits2] in He.
  pose proof (digits2_bounds p) as Hd.
  set (k := shift_of (Zpos p) e) in *. set (d := Zpos (digits2_pos p)) in *.
  set (m := Zpos p) in *.
  assert (Hm : 0 < m) by (unfold m; lia).
  assert (HK : 0 < 2 ^ k) by (apply pow2_pos; lia).
  destruct (Z.eq_dec (m mod 2 ^ k) 0) as [Hz|Hnz].
  { rewrite (Hexact Hz). apply trunc_below; try lia. exact Hbelow. }
  pose proof (Z.div_mod m (2 ^ k)) as Hdm.
  pose proof (Z.mod_pos_bound m (2 ^ k) HK) as Hmod.
  set (q := m / 2 ^ k) in *. set (r := m mod 2 ^ k) in *.
  unfold below in *.
  destruct (Z.le_gt_cases (e + k) 0) as [Hle|Hgt].
  - replace (Z.max 0 (e + k)) with 0 by lia. rewrite Z.pow_0_r, Z.mul_1_r.
    replace (Z.max 0 (- (e + k))) with (- (e + k)) by lia.
    replace (Z.max 0 e) with 0 in Hbelow by lia.
    rewrite Z.pow_0_r, Z.mul_1_r in Hbelow.
    replace (Z.max 0 (- e)) with (- (e + k) + k) in Hbelow by lia.
    rewrite pow2_split in Hbelow by lia.
    assert (0 < 2 ^ (- (e + k))) by (apply pow2_pos; lia).
    nia.
  - exfalso.
    assert (Hk' : k = d - 53) by lia.
    destruct (Z.le_gt_cases 0 e) as [He0|He0].
    + replace (Z.max 0 e) with e in Hbelow by lia.
      replace (Z.max 0 (- e)) with 0 in Hbelow by lia.
      rewrite Z.pow_0_r, Z.mul_1_r in Hbelow.
      assert (H1 : 2 ^ 53 <= 2 ^ (d - 1)) by (apply Z.pow_le_mono_r; lia).
      assert (0 < 2 ^ e) by (apply pow2_pos; lia). nia.
    + replace (Z.max 0 e) with 0 in Hbelow by lia.
      replace (Z.max 0 (- e)) with (- e) in Hbelow by lia.
      rewrite Z.pow_0_r, Z.mul_1_r in Hbelow.
      assert (H1 : 2 ^ (53 + - e) <= 2 ^ (d - 1)) by (apply Z.pow_le_mono_r; lia).
      rewrite pow2_split in H1 by lia.
      assert (0 < 2 ^ (- e)) by (apply pow2_pos; lia). nia.
Qed.

(** What [binary_round_aux] returns for a positive mantissa that is at
    least an integer [n] of at most 53 bits: a number at least [n], or an
    infinity. *)
Lemma round_above (s : bool) (p : positive) (e n : Z) :
  1 <= n < 2 ^ 53 -> above (Zpos p) e n ->
  match binary_round_aux 53 1024 s (Zpos p) e loc_Exact with
  | S754_finite s' m' e' => s' = s /\ above (Zpos m') e' n
  | S754_infinity s' => s' = s
  | _ => False
  end.
Proof.
  intros Hn Habove. unfold binary_round_aux.
  destruct (shr_fexp_spec (Zpos p) e ltac:(lia)) as [Hid Hsh].
  destruct (shr_fexp 53 1024 (Zpos p) e loc_Exact) as [mrs1 e1].
  cbn [fst snd] in Hsh.
  assert (H1 : above (shr_m mrs1) e1 n).
  { destruct (Z.le_gt_cases (shift_of (Zpos p) e) 0) as [Hk|Hk].
    - specialize (Hid Hk). injection Hid as -> ->. exact Habove.
    - destruct (Hsh Hk) as (-> & -> & _). apply trunc_above; assumption. }
  pose proof (round_nearest_even_bounds (shr_m mrs1) (loc_of_shr_record mrs1)) as [Hr _].
  set (m2 := round_nearest_even (shr_m mrs1) (loc_of_shr_record mrs1)) in *.
  assert (H2 : above m2 e1 n) by (apply above_mono with (shr_m mrs1); [lia|exact H1]).
  assert (Hm2 : 1 <= m2) by (apply above_pos with e1 n; [lia|exact H2]).
  destruct m2 as [|p2|p2] eqn:Hp2; try lia.
  destruct (shr_fexp_spec (Zpos p2) e1 ltac:(lia)) as [Hid2 Hsh2].
  destruct (shr_fexp 53 1024 (Zpos p2) e1 loc_Exact) as [mrs3 e3].
  cbn [fst snd] in Hsh2.
  assert (H3 : above (shr_m mrs3) e3 n).
  { destruct (Z.le_gt_cases (shift_of (Zpos p2) e1) 0) as [Hk|Hk].
    - specialize (Hid2 Hk). injection Hid2 as -> ->. exact H2.
    - destruct (Hsh2 Hk) as (-> & -> & _). apply trunc_above; assumption. }
  assert (Hm3 : 1 <= shr_m mrs3) by (apply above_pos with e3 n; [lia|exact H3]).
  destruct (shr_m mrs3) as [|p3|p3]; try lia.
  destruct (e3 <=? 1024 - 53); auto.
Qed.

(** And for one that is at most [n]: a number at most [n], or zero. *)
Lemma round_at_most (s : bool) (p : positive) (e n : Z) :
  0 <= n < 2 ^ 53 -> below (Zpos p) e n ->
  match binary_round_aux 53 1024 s (Zpos p) e loc_Exact with
  | S754_finite s' m' e' => s' = s /\ below (Zpos m') e' n
  | S754_zero s' => s' = s
  | _ => False
  end.
Proof.
  intros Hn Hbelow. unfold binary_round_aux.
  destruct (shr_fexp_spec (Zpos p) e ltac:(lia)) as [Hid Hsh].
  destruct (shr_fexp 53 1024 (Zpos p) e loc_Exact) as [mrs1 e1].
  cbn [fst snd] in Hsh.
  pose proof (round_nearest_even_bounds (shr_m mrs1) (loc_of_shr_record mrs1)) as [Hr Hx].
  set (m2 := round_nearest_even (shr_m mrs1) (loc_of_shr_record mrs1)) in *.
  assert (H2 : below m2 e1 n /\ 0 <= m2).
  { destruct (Z.le_gt_cases (shift_of (Zpos p) e) 0) as [Hk|Hk].
    - specialize (Hid Hk). injection Hid as -> ->. unfold m2. cbn. split; [exact Hbelow|lia].
    - destruct (Hsh Hk) as (Hm1 & -> & Hex). rewrite Hm1 in Hr. split.
      + apply round_below; try assumption.
        intros Hz. unfold m2. rewrite (Hex Hz), Hx. exact Hm1.
      + assert (0 <= Zpos p / 2 ^ shift_of (Zpos p) e).
        { apply Z.div_pos; [lia|apply pow2_pos; lia]. }
        lia. }
  destruct H2 as [H2 Hm2].
  destruct (shr_fexp_spec m2 e1 Hm2) as [Hid2 Hsh2].
  destruct (shr_fexp 53 1024 m2 e1 loc_Exact) as [mrs3 e3].
  cbn [fst snd] in Hsh2.
  assert (H3 : below (shr_m mrs3) e3 n /\ 0 <= shr_m mrs3).
  { destruct (Z.le_gt_cases (shift_of m2 e1) 0) as [Hk|Hk].
    - specialize (Hid2 Hk). injection Hid2 as -> ->. split; assumption.
    - destruct (Hsh2 Hk) as (-> & -> & _). split.
      + apply trunc_below; try lia. exact H2.
      + apply Z.div_pos; [lia|apply pow2_pos; lia]. }
  destruct H3 as [H3 Hm3].
  destruct (shr_m mrs3) as [|p3|p3]; try lia; [reflexivity|].
  destruct (Z.leb_spec e3 (1024 - 53)) as [He3|He3]; [auto|].
  unfold below in H3.
  replace (Z.max 0 e3) with e3 in H3 by lia.
  replace (Z.max 0 (- e3)) with 0 in H3 by lia.
  rewrite Z.pow_0_r, Z.mul_1_r in H3.
  assert (2 ^ 53 <= 2 ^ e3) by (apply Z.pow_le_mono_r; lia). nia.
Qed.

Lemma pos_iter_xO (p d : positive) : Zpos (Pos.iter xO p d) = Zpos p * 2 ^ Zpos d.
Proof.
  revert p. induction d as [|d IH] using Pos.peano_ind; intros p.
  - cbn. lia.
  - rewrite Pos.iter_succ, (Pos2Z.inj_xO (Pos.iter xO p d)), IH, Pos2Z.inj_succ, Z.pow_succ_r by lia. lia.
Qed.

(** An int of at most 53 bits is converted exactly. *)
Lemma float_of_int_exact (n : Z) :
  1 <= n < 2 ^ 53 ->
  exists m e, float_of_int n = S754_finite false m e /\
              above (Zpos m) e n /\ below (Zpos m) e n.
Proof.
  intros Hn. unfold float_of_int, binary_normalize.
  destruct n as [|p|p]; try lia. unfold binary_round.
  destruct (shl_align p 0 (fexp 53 1024 (Zpos (digits2_pos p) + 0))) as [mz ez] eqn:Hal.
  assert (Hval : Zpos mz * 2 ^ Z.max 0 ez = Zpos p * 2 ^ Z.max 0 (- ez)).
  { unfold shl_align in Hal.
    destruct (fexp 53 1024 (Zpos (digits2_pos p) + 0) - 0) as [|d|d] eqn:Hd.
    - injection Hal as <- <-. reflexivity.
    - injection Hal as <- <-. reflexivity.
    - injection Hal as <- <-. rewrite pos_iter_xO.
      assert (Hf : fexp 53 1024 (Zpos (digits2_pos p) + 0) = Zneg d) by lia.
      rewrite Hf. replace (Z.max 0 (Zneg d)) with 0 by lia.
      replace (Z.max 0 (- Zneg d)) with (Zpos d) by lia.
      rewrite Z.pow_0_r. lia. }
  pose proof (round_above false mz ez (Zpos p) Hn) as Ha.
  pose proof (round_at_most false mz ez (Zpos p) ltac:(lia)) as Hb.
  unfold above in Ha at 1. unfold below in Hb at 1.
  specialize (Ha ltac:(lia)). specialize (Hb ltac:(lia)).
  destruct (binary_round_aux 53 1024 false (Zpos mz) ez loc_Exact) as [s|s| |s m e];
    try contradiction.
  destruct Ha as [-> Ha]. destruct Hb as [_ Hb].
  exists m, e. auto.
Qed.

Lemma above_mul (m1 e1 n m2 e2 : Z) :
  0 <= n -> 0 < m1 -> above m1 e1 n -> above m2 e2 1 -> above (m1 * m2) (e1 + e2) n.
Proof.
  unfold above. intros Hn Hm1 H1 H2. rewrite Z.mul_1_l in H2.
  assert (P1 : 0 < 2 ^ Z.max 0 e1) by (apply pow2_pos; lia).
  assert (P2 : 0 < 2 ^ Z.max 0 (- e1)) by (apply pow2_pos; lia).
  assert (P3 : 0 < 2 ^ Z.max 0 e2) by (apply pow2_pos; lia).
  assert (P4 : 0 < 2 ^ Z.max 0 (- e2)) by (apply pow2_pos; lia).
  assert (P5 : 0 < 2 ^ Z.max 0 (e1 + e2)) by (apply pow2_pos; lia).
  assert (P6 : 0 < 2 ^ Z.max 0 (- (e1 + e2))) by (apply pow2_pos; lia).
  (* with every exponent made non-negative the two sides multiply *)
  assert (Hexp : 2 ^ Z.max 0 e1 * 2 ^ Z.max 0 e2 * 2 ^ Z.max 0 (- (e1 + e2))
                 = 2 ^ Z.max 0 (e1 + e2) * 2 ^ Z.max 0 (- e1) * 2 ^ Z.max 0 (- e2)).
  { rewrite <- !pow2_split by lia. f_equal. lia. }
  assert (Hprod : n * 2 ^ Z.max 0 (- e1) * 2 ^ Z.max 0 (- e2)
                  <= m1 * 2 ^ Z.max 0 e1 * (m2 * 2 ^ Z.max 0 e2)) by nia.
  apply Z.mul_le_mono_pos_r with (p := 2 ^ Z.max 0 (- e1) * 2 ^ Z.max 0 (- e2)); [nia|].
  transitivity (n * 2 ^ Z.max 0 (- e1) * 2 ^ Z.max 0 (- e2) * 2 ^ Z.max 0 (- (e1 + e2))); [lia|].
  transitivity (m1 * 2 ^ Z.max 0 e1 * (m2 * 2 ^ Z.max 0 e2) * 2 ^ Z.max 0 (- (e1 + e2))).
  - apply Z.mul_le_mono_nonneg_r; lia.
  - replace (m1 * 2 ^ Z.max 0 e1 * (m2 * 2 ^ Z.max 0 e2) * 2 ^ Z.max 0 (- (e1 + e2)))
      with (m1 * m2 * (2 ^ Z.max 0 e1 * 2 ^ Z.max 0 e2 * 2 ^ Z.max 0 (- (e1 + e2)))) by lia.
    rewrite Hexp. lia.
Qed.


(** [int()] of a positive finite float. *)
Lemma int_of_above (m : positive) (e n : Z) :
  0 <= n -> above (Zpos m) e n ->
  n <= (if 0 <=? e then Zpos m * 2 ^ e else Z.quot (Zpos m) (2 ^ (- e))).
Proof.
  unfold above. intros Hn H.
  destruct (Z.leb_spec 0 e) as [He|He].
  - replace (Z.max 0 e) with e in H by lia.
    replace (Z.max 0 (- e)) with 0 in H by lia. lia.
  - replace (Z.max 0 e) with 0 in H by lia.
    replace (Z.max 0 (- e)) with (- e) in H by lia.
    assert (0 < 2 ^ (- e)) by (apply pow2_pos; lia).
    rewrite Z.quot_div_nonneg by lia.
    apply Z.div_le_lower_bound; lia.
Qed.


Lemma int_of_negative (m : positive) (e : Z) :
  (if 0 <=? e then cond_Zopp true (Zpos m) * 2 ^ e
   else Z.quot (cond_Zopp true (Zpos m)) (2 ^ (- e)))
  = - (if 0 <=? e then Zpos m * 2 ^ e else Z.quot (Zpos m) (2 ^ (- e))).
Proof.
  cbn [cond_Zopp]. destruct (Z.leb_spec 0 e); [lia|].
  change (- Zpos m) with (Z.opp (Zpos m)). apply Z.quot_opp_l.
  assert (0 < 2 ^ (- e)) by (apply pow2_pos; lia). lia.
Qed.

Lemma int_le_float_finite (n : Z) (s : bool) (m : positive) (e : Z) :
  0 <= n -> int_le_float n (S754_finite s m e) = true ->
  (0 < n -> s = false) /\ (s = false -> above (Zpos m) e n).
Proof.
  cbn [int_le_float]. intros Hn H. apply Z.leb_le in H.
  assert (0 < 2 ^ Z.max 0 e) by (apply pow2_pos; lia).
  assert (0 < 2 ^ Z.max 0 (- e)) by (apply pow2_pos; lia).
  split.
  - intros Hpos. destruct s; [|reflexivity]. cbn [cond_Zopp] in H. nia.
  - intros ->. exact H.
Qed.

Lemma float_le_int_finite (s : bool) (m : positive) (e n : Z) :
  n <= 0 -> float_le_int (S754_finite s m e) n = true ->
  s = true /\ above (Zpos m) e (- n).
Proof.
  cbn [float_le_int]. intros Hn H. apply Z.leb_le in H.
  assert (0 < 2 ^ Z.max 0 e) by (apply pow2_pos; lia).
  assert (0 < 2 ^ Z.max 0 (- e)) by (apply pow2_pos; lia).
  destruct s; cbn [cond_Zopp] in H; [|nia].
  split; [reflexivity|]. unfold above. lia.
Qed.

(** With a ratio of at least 1 the index is at least the number of files,
    unless [int] raises. *)
Lemma split_index_at_least (len : nat) (r : spec_float) :
  Z.of_nat len < 2 ^ 53 -> int_le_float 1 r = true ->
  match split_index len r with
  | Ok k => Z.of_nat len <= k
  | Raise e => (e = OverflowError /\ len <> 0%nat) \/ (e = ValueError /\ len = 0%nat)
  end.
Proof.
  intros Hlen Hr. unfold split_index, float_mul.
  destruct len as [|len'].
  - cbn [Z.of_nat float_of_int binary_normalize].
    destruct r as [s|s| |s m e]; cbn in Hr |- *; try discriminate; try lia.
    destruct s; [discriminate|]. right. auto.
  - set (n := Z.of_nat (S len')) in *.
    destruct (float_of_int_exact n ltac:(lia)) as (m & e & -> & Ha & _).
    destruct r as [s|s| |s mr er]; try discriminate.
    + cbn in Hr. destruct s; [discriminate|]. cbn. left. auto.
    + destruct (int_le_float_finite 1 s mr er ltac:(lia) Hr) as [Hs Hab].
      specialize (Hs ltac:(lia)). subst s. specialize (Hab eq_refl).
      cbn [SFmul xorb].
      pose proof (round_above false (m * mr) (e + er) n ltac:(lia)) as Hround.
      rewrite Pos2Z.inj_mul in Hround.
      specialize (Hround (above_mul (Zpos m) e n (Zpos mr) er ltac:(lia) ltac:(lia) Ha Hab)).
      rewrite <- Pos2Z.inj_mul in Hround.
      destruct (binary_round_aux 53 1024 false (Zpos (m * mr)) (e + er) loc_Exact)
        as [s'|s'| |s' m' e']; try contradiction.
      * cbn. left. auto.
      * destruct Hround as [-> Hround]. cbn [int_of_float cond_Zopp].
        apply int_of_above; [lia|exact Hround].
Qed.

(** With a ratio of at most -1 the index is at most minus that number. *)
Lemma split_index_at_most_neg (len : nat) (r : spec_float) :
  Z.of_nat len < 2 ^ 53 -> float_le_int r (-1) = true ->
  match split_index len r with
  | Ok k => k <= - Z.of_nat len
  | Raise e => (e = OverflowError /\ len <> 0%nat) \/ (e = ValueError /\ len = 0%nat)
  end.
Proof.
  intros Hlen Hr. unfold split_index, float_mul.
  destruct len as [|len'].
  - cbn [Z.of_nat float_of_int binary_normalize].
    destruct r as [s|s| |s m e]; cbn in Hr |- *; try discriminate; try lia.
    destruct s; [|discriminate]. right. auto.
  - set (n := Z.of_nat (S len')) in *.
    destruct (float_of_int_exact n ltac:(lia)) as (m & e & -> & Ha & _).
    destruct r as [s|s| |s mr er]; try discriminate.
    + cbn in Hr. destruct s; [|discriminate]. cbn. left. auto.
    + destruct (float_le_int_finite s mr er (-1) ltac:(lia) Hr) as [-> Hab].
      change (- -1) with 1 in Hab.
      cbn [SFmul xorb].
      pose proof (round_above true (m * mr) (e + er) n ltac:(lia)) as Hround.
      rewrite Pos2Z.inj_mul in Hround.
      specialize (Hround (above_mul (Zpos m) e n (Zpos mr) er ltac:(lia) ltac:(lia) Ha Hab)).
      rewrite <- Pos2Z.inj_mul in Hround.
      destruct (binary_round_aux 53 1024 true (Zpos (m * mr)) (e + er) loc_Exact)
        as [s'|s'| |s' m' e']; try contradiction.
      * cbn. left. auto.
      * destruct Hround as [-> Hround]. cbn [int_of_float].
        rewrite int_of_negative.
        pose proof (int_of_above m' e' n ltac:(lia) Hround). lia.
Qed.





(** *** Strings as lists of characters *)

Lemma app_cons (c : ascii) (a b : string) : String c a +:+ b = String c (a +:+ b).
Proof. reflexivity. Qed.

Lemma app_empty (b : string) : "" +:+ b = b.
Proof. reflexivity. Qed.

Lemma chars_app (a b : string) :
  list_ascii_of_string (a +:+ b) = list_ascii_of_string a ++ list_ascii_of_string b.
Proof.
  induction a as [|c a IH]; [reflexivity|].
  rewrite app_cons. cbn [list_ascii_of_string app]. rewrite IH. reflexivity.
Qed.




Lemma no_slash_start (n : string) :
  contains_slash n = false -> startswith_slash n = false.
Proof.
  destruct n as [|c n]; [reflexivity|]. cbn. intros H.
  apply orb_false_iff in H as [H _]. exact H.
Qed.

Lemma basename_plain (n : string) : contains_slash n = false -> basename n = n.
Proof. destruct n as [|c n]; [reflexivity|]. intros H. cbn [basename]. rewrite H. reflexivity. Qed.

Lemma contains_slash_after (x n : string) : contains_slash (x +:+ String "/" n) = true.
Proof.
  induction x as [|c x IH]; [reflexivity|].
  rewrite app_cons. cbn [contains_slash]. rewrite IH. apply orb_true_r.
Qed.

Lemma basename_after_slash (x n : string) :
  contains_slash n = false -> basename (x +:+ String "/" n) = n.
Proof.
  intros Hn. induction x as [|c x IH].
  - rewrite app_empty. cbn [basename contains_slash]. cbn. apply basename_plain, Hn.
  - rewrite app_cons. cbn [basename].
    replace (contains_slash (String c (x +:+ String "/" n))) with true; [exact IH|].
    cbn [contains_slash]. rewrite contains_slash_after. symmetry. apply orb_true_r.
Qed.

Lemma endswith_slash_split (d : string) :
  endswith_slash d = true -> exists x, d = x +:+ "/".
Proof.
  induction d as [|c d IH]; [discriminate|].
  destruct d as [|c' d'].
  - cbn. intros H. apply Ascii.eqb_eq in H. subst c. exists "". reflexivity.
  - intros H. change (endswith_slash (String c' d') = true) in H.
    destruct (IH H) as [x Hx]. exists (String c x). rewrite app_cons, <- Hx. reflexivity.
Qed.

(** The file name of an entry joined to a directory is the entry's name. *)
Lemma basename_join (d n : string) :
  contains_slash n = false -> basename (path_join d [n]) = n.
Proof.
  intros Hn. unfold path_join. cbn [fold_left]. unfold join2.
  rewrite (no_slash_start n Hn).
  destruct (String.eqb_spec d "") as [->|Hd]; cbn [orb].
  - rewrite app_empty. apply basename_plain, Hn.
  - destruct (endswith_slash d) eqn:Hs.
    + destruct (endswith_slash_split d Hs) as [x ->].
      rewrite string_app_assoc. change ("/" +:+ n) with (String "/" n).
      apply basename_after_slash, Hn.
    + change ("/" +:+ n) with (String "/" n). apply basename_after_slash, Hn.
Qed.

Lemma existsb_same {A} (f g : A -> bool) (l : list A) :
  (forall x, f x = g x) -> existsb f l = existsb g l.
Proof.
  intros H. induction l as [|x l IH]; [reflexivity|]. cbn. rewrite H, IH. reflexivity.
Qed.

Lemma contains_slash_chars (s : string) :
  contains_slash s = existsb is_slash (list_ascii_of_string s).
Proof. induction s as [|c s IH]; [reflexivity|]. cbn. rewrite IH. reflexivity. Qed.

Lemma rfind_absent (c : ascii) (cs : list ascii) :
  forall i, existsb (Ascii.eqb c) cs = false -> rfind c cs i = -1.
Proof.
  induction cs as [|x cs IH]; intros i H; [reflexivity|].
  cbn in H. apply orb_false_iff in H as [Hx Hcs].
  cbn [rfind]. rewrite (IH (i + 1) Hcs). cbn.
  rewrite Ascii.eqb_sym, Hx. reflexivity.
Qed.

Lemma rfind_last (c : ascii) (a b : list ascii) :
  forall i, 0 <= i -> existsb (Ascii.eqb c) b = false ->
  rfind c (a ++ c :: b) i = i + Z.of_nat (length a).
Proof.
  induction a as [|x a IH]; intros i Hi Hb.
  - cbn [app rfind length]. rewrite (rfind_absent c b (i + 1) Hb). cbn.
    rewrite Ascii.eqb_refl. lia.
  - cbn [app rfind]. rewrite (IH (i + 1)) by (try lia; exact Hb).
    destruct (Z.leb_spec 0 (i + 1 + Z.of_nat (length a))); [|lia].
    cbn [length]. lia.
Qed.

Lemma basename_no_slash (p : string) : contains_slash (basename p) = false.
Proof.
  induction p as [|c p IH]; [reflexivity|].
  cbn [basename]. destruct (contains_slash (String c p)) eqn:H; [exact IH|exact H].
Qed.

Lemma label_name_start (img : string) : startswith_slash (label_name img) = false.
Proof.
  unfold label_name. pose proof (basename_no_slash img) as Hb.
  destruct (basename img) as [|c b]; [reflexivity|].
  cbn in Hb. apply orb_false_iff in Hb as [Hc _].
  unfold splitext_root.
  match goal with
  | |- context [if ?t then _ else _] => destruct t
  end; [|rewrite app_cons; exact Hc].
  match goal with
  | |- context [if ?t then _ else _] => destruct t
  end; [|rewrite app_cons; exact Hc].
  cbn [list_ascii_of_string].
  match goal with
  | |- context [firstn ?k _] => destruct k
  end; cbn [firstn string_of_list_ascii]; [reflexivity|].
  rewrite app_cons. exact Hc.
Qed.

Lemma prefix_app_same (a b c : string) :
  String.prefix (a +:+ b) (a +:+ c) = String.prefix b c.
Proof.
  induction a as [|x a IH]; [reflexivity|].
  rewrite !app_cons. cbn [String.prefix].
  destruct (ascii_dec x x) as [_|Hne]; [exact IH|contradiction].
Qed.

Lemma dataset_subdir (cwd mid leaf : string) :
  startswith_slash mid = false -> startswith_slash leaf = false ->
  mid <> "" -> endswith_slash mid = false ->
  path_join (dataset_dir cwd) [mid; leaf]
  = dataset_dir cwd +:+ ("/" +:+ mid +:+ "/" +:+ leaf).
Proof.
  intros Hm Hl Hmne Hms.
  destruct (dataset_dir_shape cwd) as [Hne Hs].
  unfold path_join. cbn [fold_left].
  rewrite (join2_plain (dataset_dir cwd) mid Hne Hs Hm).
  rewrite join2_plain.
  - rewrite !string_app_assoc. reflexivity.
  - apply string_app_nonempty. discriminate.
  - rewrite endswith_slash_app by discriminate.
    change ("/" +:+ mid) with (String "/" mid).
    destruct mid; [contradiction|exact Hms].
  - exact Hl.
Qed.

Lemma apply_ops_untouched (q : string) (ops : list FsOp) :
  (forall op, In op ops -> apply_op (fun _ => false) op q = false) ->
  forall fs, apply_ops fs ops q = fs q.
Proof.
  induction ops as [|op ops IH]; intros Hops fs; [reflexivity|].
  cbn [apply_ops fold_left]. fold (apply_ops (apply_op fs op) ops).
  rewrite IH by (intros o Ho; apply Hops; right; exact Ho).
  specialize (Hops op (or_introl eq_refl)).
  destruct op; cbn in Hops |- *; rewrite orb_false_r in Hops; rewrite Hops; reflexivity.
Qed.

(** *** The directory part of the patterns and the names found *)

Lemma existsb_incl {A} (f : A -> bool) (l1 l2 : list A) :
  (forall x, In x l1 -> In x l2) -> existsb f l2 = false -> existsb f l1 = false.
Proof.
  intros Hincl H. destruct (existsb f l1) eqn:H1; [|reflexivity].
  apply existsb_exists in H1 as (x & Hx & Hf).
  assert (H2 : existsb f l2 = true) by (apply existsb_exists; exists x; auto).
  congruence.
Qed.

Lemma in_firstn {A} (k : nat) (l : list A) (x : A) : In x (firstn k l) -> In x l.
Proof. intros H. rewrite <- (firstn_skipn k l). apply in_or_app. left. exact H. Qed.

Lemma in_drop_slashes (cs : list ascii) (x : ascii) : In x (drop_slashes cs) -> In x cs.
Proof.
  induction cs as [|c cs IH]; [intros []|]. cbn [drop_slashes].
  destruct (is_slash c); [intros H; right; apply IH, H|auto].
Qed.

Lemma rfind_bound (c : ascii) (cs : list ascii) :
  forall i, 0 <= i ->
    rfind c cs i = -1 \/ i <= rfind c cs i < i + Z.of_nat (length cs).
Proof.
  induction cs as [|x cs IH]; intros i Hi; [left; reflexivity|].
  cbn [rfind length]. destruct (IH (i + 1) ltac:(lia)) as [H|H].
  - rewrite H. cbn. destruct (Ascii.eqb x c); [right; lia|left; reflexivity].
  - destruct (Z.leb_spec 0 (rfind c cs (i + 1))); [right; lia|lia].
Qed.

Lemma rfind_app_absent (c : ascii) (a b : list ascii) :
  existsb (Ascii.eqb c) b = false ->
  forall i, rfind c (a ++ b) i = rfind c a i.
Proof.
  intros Hb. induction a as [|x a IH]; intros i.
  - cbn [app]. rewrite (rfind_absent c b i Hb). reflexivity.
  - cbn [app rfind]. rewrite IH. reflexivity.
Qed.

Lemma no_slash_chars (s : string) :
  contains_slash s = false ->
  existsb (Ascii.eqb "/"%char) (list_ascii_of_string s) = false.
Proof.
  intros H. rewrite contains_slash_chars in H.
  transitivity (existsb is_slash (list_ascii_of_string s)); [|exact H].
  apply existsb_same. intros x. unfold is_slash. apply Ascii.eqb_sym.
Qed.


(** What follows the last slash does not count in the directory part. *)
Lemma split_head_app (pre b : string) :
  contains_slash b = false -> split_head (pre +:+ b) = split_head pre.
Proof.
  intros Hb. unfold split_head. rewrite chars_app.
  rewrite (rfind_app_absent "/"%char _ _ (no_slash_chars b Hb)).
  set (cs := list_ascii_of_string pre).
  assert (Hk : (Z.to_nat (rfind "/"%char cs 0 + 1) <= length cs)%nat).
  { destruct (rfind_bound "/"%char cs 0 ltac:(lia)) as [H|H]; [rewrite H; cbn; lia|lia]. }
  rewrite firstn_app.
  replace (Z.to_nat (rfind "/"%char cs 0 + 1) - length cs)%nat with 0%nat by lia.
  cbn [firstn]. rewrite app_nil_r. reflexivity.
Qed.

Lemma join2_pre (d : string) :
  exists pre,
    (pre = d \/ pre = d +:+ "/") /\
    forall b, startswith_slash b = false -> join2 d b = pre +:+ b.
Proof.
  destruct (String.eqb d "" || endswith_slash d) eqn:Hd.
  - exists d. split; [left; reflexivity|]. intros b Hb. unfold join2. rewrite Hb, Hd.
    reflexivity.
  - exists (d +:+ "/"). split; [right; reflexivity|]. intros b Hb. unfold join2.
    rewrite Hb, Hd. symmetry. apply string_app_assoc.
Qed.

(** The three patterns have the same directory part. *)
Lemma pattern_dir_of (d b : string) :
  contains_slash b = false -> split_head (path_join d [b]) = pattern_dir d.
Proof.
  intros Hb. unfold pattern_dir, path_join. cbn [fold_left].
  destruct (join2_pre d) as (pre & _ & Hj).
  rewrite (Hj b (no_slash_start b Hb)), (Hj "*.jpg" eq_refl).
  rewrite !split_head_app by (reflexivity || exact Hb). reflexivity.
Qed.

Lemma has_magic_chars (l : list ascii) :
  has_magic (string_of_list_ascii l) = existsb is_magic l.
Proof. unfold has_magic. rewrite list_ascii_of_string_of_list_ascii. reflexivity. Qed.

Lemma has_magic_pattern_dir (d : string) :
  has_magic d = false -> has_magic (pattern_dir d) = false.
Proof.
  intros Hd. unfold pattern_dir, path_join. cbn [fold_left].
  destruct (join2_pre d) as (pre & Hpre & Hj).
  rewrite (Hj "*.jpg" eq_refl), split_head_app by reflexivity.
  assert (Hm : existsb is_magic (list_ascii_of_string pre) = false).
  { destruct Hpre as [->| ->]; [exact Hd|].
    rewrite chars_app, existsb_app. unfold has_magic in Hd. rewrite Hd. reflexivity. }
  unfold split_head.
  set (cs := list_ascii_of_string pre) in *.
  destruct (negb (forallb is_slash (firstn (Z.to_nat (rfind "/"%char cs 0 + 1)) cs)));
    rewrite has_magic_chars; apply (existsb_incl _ _ cs); try exact Hm.
  - intros x Hx. apply in_rev, in_drop_slashes, in_rev, in_firstn in Hx. exact Hx.
  - intros x Hx. apply in_firstn in Hx. exact Hx.
Qed.

(** In a directory named without wildcards a pattern finds the entries of
    that directory. *)
Lemma glob_ext_plain (env : GlobEnv) (d ext : string) :
  has_magic d = false -> contains_slash ("*." +:+ ext) = false ->
  glob_ext env d ext
  = map (fun name => path_join (pattern_dir d) [name])
        (List.filter (fun name => negb (ishidden name) && endswith name ("." +:+ ext))
                     (scandir env (pattern_dir d))).
Proof.
  intros Hd Hext. unfold glob_ext.
  rewrite (pattern_dir_of d _ Hext), (has_magic_pattern_dir d Hd).
  cbn [flat_map]. apply app_nil_r.
Qed.

Lemma image_files_plain (env : GlobEnv) (d : string) :
  has_magic d = false ->
  let found := fun ext =>
    List.filter (fun name => negb (ishidden name) && endswith name ("." +:+ ext))
                (scandir env (pattern_dir d)) in
  image_files env d
  = map (fun name => path_join (pattern_dir d) [name])
        (found "jpg" ++ found "jpeg" ++ found "png").
Proof.
  intros Hd found. unfold image_files. cbn [fold_left app].
  rewrite !glob_ext_plain by (exact Hd || reflexivity).
  rewrite !map_app, <- app_assoc. reflexivity.
Qed.



(** *** The label of an image *)

Lemma label_stem_facts (d stem ext : string) :
  contains_slash stem = false ->
  existsb (fun x => negb (Ascii.eqb x "."%char)) (list_ascii_of_string stem) = true ->
  existsb (Ascii.eqb "."%char) (list_ascii_of_string ext) = false ->
  contains_slash ext = false ->
  splitext_root (stem +:+ "." +:+ ext) = stem /\
  label_name (path_join d [stem +:+ "." +:+ ext]) = stem +:+ ".txt".
Proof.
  intros Hstem Hdots Hext Hexts.
  set (name := stem +:+ "." +:+ ext).
  assert (Hchars : list_ascii_of_string name
                   = list_ascii_of_string stem ++ "."%char :: list_ascii_of_string ext).
  { unfold name. rewrite chars_app. reflexivity. }
  assert (Hnoslash : existsb (Ascii.eqb "/"%char) (list_ascii_of_string name) = false).
  { rewrite contains_slash_chars in Hstem, Hexts.
    assert (Hsame : forall l, existsb (Ascii.eqb "/"%char) l = existsb is_slash l).
    { intros l. apply existsb_same. intros x. unfold is_slash. apply Ascii.eqb_sym. }
    rewrite Hchars, existsb_app, (Hsame (list_ascii_of_string stem)), Hstem.
    cbn [existsb orb]. rewrite (Hsame (list_ascii_of_string ext)), Hexts.
    reflexivity. }
  assert (Hroot : splitext_root name = stem).
  { unfold splitext_root.
    rewrite (rfind_absent "/"%char _ 0 Hnoslash).
    rewrite Hchars, (rfind_last "."%char _ _ 0) by (try lia; exact Hext).
    destruct (Z.ltb_spec (-1) (0 + Z.of_nat (length (list_ascii_of_string stem))));
      [|lia].
    replace (Z.to_nat (0 + Z.of_nat (length (list_ascii_of_string stem)) - (-1 + 1)))
      with (length (list_ascii_of_string stem)) by lia.
    replace (Z.to_nat (-1 + 1)) with 0%nat by lia.
    replace (Z.to_nat (0 + Z.of_nat (length (list_ascii_of_string stem))))
      with (length (list_ascii_of_string stem)) by lia.
    rewrite skipn_O, !firstn_app, !Nat.sub_diag, !firstn_all. cbn [firstn].
    rewrite !app_nil_r, Hdots. apply string_of_list_ascii_of_string. }
  split; [exact Hroot|].
  unfold label_name. rewrite basename_join; [rewrite Hroot; reflexivity|].
  rewrite contains_slash_chars.
  rewrite <- Hnoslash. apply existsb_same. intros x. unfold is_slash. apply Ascii.eqb_sym.
Qed.




(** *** The copying loops when no call raises *)


Lemma apply_ops_app (fs : FS) (a b : list FsOp) :
  apply_ops fs (a ++ b) = apply_ops (apply_ops fs a) b.
Proof. apply fold_left_app. Qed.

Lemma apply_op_mono (fs : FS) (op : FsOp) (q : string) :
  fs q = true -> apply_op fs op q = true.
Proof. intros H. destruct op; cbn; rewrite H; apply orb_true_r. Qed.

Lemma apply_ops_mono (ops : list FsOp) (fs : FS) (q : string) :
  fs q = true -> apply_ops fs ops q = true.
Proof.
  revert fs. induction ops as [|op ops IH]; intros fs H; [exact H|].
  cbn. apply IH, apply_op_mono, H.
Qed.







(** *** Runs in which no call raises *)

Lemma os_call_quiet (os : OsAnswers) (op : FsOp) (st : RunState) :
  quiet os -> os_call os op st = ((apply_op (fst st) op, snd st ++ [op]), Ok tt).
Proof. intros Hq. unfold os_call. rewrite Hq. reflexivity. Qed.

Lemma make_dirs_quiet (os : OsAnswers) (dirs : list string) :
  quiet os ->
  forall st,
    make_dirs os dirs st
    = ((apply_ops (fst st) (map MakeDirs dirs), snd st ++ map MakeDirs dirs), Ok tt).
Proof.
  intros Hq. induction dirs as [|d dirs IH]; intros [fs done].
  - cbn. rewrite app_nil_r. reflexivity.
  - cbn [make_dirs]. rewrite os_call_quiet by exact Hq. rewrite IH.
    cbn [fst snd map apply_ops fold_left]. rewrite <- app_assoc. reflexivity.
Qed.

Lemma copy_one_quiet (os : OsAnswers) (images_dir img_dir label_dir img : string)
    (st : RunState) :
  quiet os ->
  copy_one os images_dir img_dir label_dir img st
  = ((fst (copies_one images_dir img_dir label_dir (fst st) img),
      snd st ++ snd (copies_one images_dir img_dir label_dir (fst st) img)), Ok tt).
Proof.
  intros Hq. destruct st as [fs done]. unfold copy_one, copies_one.
  rewrite os_call_quiet by exact Hq. cbn [fst snd].
  destruct (apply_op fs (Copy img img_dir (basename img)) (label_path images_dir img)).
  - rewrite os_call_quiet by exact Hq. cbn [fst snd]. rewrite <- app_assoc. reflexivity.
  - reflexivity.
Qed.

Lemma copy_loop_quiet (os : OsAnswers) (images_dir img_dir label_dir : string)
    (imgs : list string) :
  quiet os ->
  forall st,
    copy_loop os images_dir img_dir label_dir imgs st
    = ((fst (copies_loop images_dir img_dir label_dir (fst st) imgs),
        snd st ++ snd (copies_loop images_dir img_dir label_dir (fst st) imgs)), Ok tt).
Proof.
  intros Hq. induction imgs as [|img rest IH]; intros [fs done].
  - cbn. rewrite app_nil_r. reflexivity.
  - cbn [copy_loop copies_loop]. rewrite copy_one_quiet by exact Hq. cbn [fst snd].
    destruct (copies_one images_dir img_dir label_dir fs img) as [fs1 ops1].
    cbn [fst snd]. rewrite IH. cbn [fst snd].
    destruct (copies_loop images_dir img_dir label_dir fs1 rest) as [fs2 ops2].
    cbn [fst snd]. rewrite <- app_assoc. reflexivity.
Qed.

Section PrepareDataset.
Variables (cwd : string) (fs0 : FS) (os : OsAnswers) (env : GlobEnv).
Variable shuffle : list string -> list string.
Variables (images_dir : string) (split_ratio : spec_float).

Let files : list string := shuffle (image_files env images_dir).
Let mk : list FsOp :=
  [MakeDirs (train_img_dir cwd); MakeDirs (val_img_dir cwd);
   MakeDirs (train_label_dir cwd); MakeDirs (val_label_dir cwd)].
Let R : PrepRun := prepare_dataset cwd fs0 os env shuffle images_dir split_ratio.

(** The run when no call into the file system raises: it ends at line 34
    if [int] raises, with the four directories made and nothing copied,
    and otherwise goes through both loops. *)
Lemma prepare_dataset_quiet :
  quiet os ->
  match split_index (length files) split_ratio with
  | Raise e => outcome R = Raise e /\ fs_ops R = mk /\ fs_final R = apply_ops fs0 mk
  | Ok idx =>
      let train_run :=
        copies_loop images_dir (train_img_dir cwd) (train_label_dir cwd)
                    (apply_ops fs0 mk) (slice_to files idx) in
      let val_run :=
        copies_loop images_dir (val_img_dir cwd) (val_label_dir cwd)
                    (fst train_run) (slice_from files idx) in
      exists P,
        outcome R = Ok P /\ split_idx P = idx /\
        train_images P = slice_to files idx /\
        val_images P = slice_from files idx /\
        fs_ops R = mk ++ snd train_run ++ snd val_run /\
        fs_final R = fst val_run
  end.
Proof.
  intros Hq. unfold R, prepare_dataset. fold files.
  rewrite make_dirs_quiet by exact Hq. cbn [fst snd map app].
  change (apply_ops fs0 _) with (apply_ops fs0 mk).
  fold mk.
  destruct (split_index (length files) split_ratio) as [idx|e]; [|cbn; auto].
  rewrite copy_loop_quiet by exact Hq. cbn [fst snd].
  rewrite copy_loop_quiet by exact Hq. cbn [fst snd].
  eexists. cbn [finish outcome fs_ops fs_final fst snd].
  split; [reflexivity|]. cbn [split_idx train_images val_images].
  rewrite <- app_assoc. auto 10.
Qed.


End PrepareDataset.

(** ** The model at work on concrete inputs *)

Section Examples.
#[local] Existing Instance counting_externals.

Example demo_image_files :
  image_files demo_env "/data"
  = ["/data/a.jpg"; "/data/e.jpg"; "/data/c.jpeg"; "/data/b.png"].
Proof. vm_compute. reflexivity. Qed.

Example demo_split :
  let R := prepare_dataset "/w" demo_fs all_return demo_env (@List.rev string)
                           "/data" float_0_8 in
  (exists P, outcome R = Ok P /\ split_idx P = 3) /\
  fs_ops R =
    [MakeDirs "/w/dataset/images/train"; MakeDirs "/w/dataset/images/val";
     MakeDirs "/w/dataset/labels/train"; MakeDirs "/w/dataset/labels/val";
     Copy "/data/b.png" "/w/dataset/images/train" "b.png";
     Copy "/data/c.jpeg" "/w/dataset/images/train" "c.jpeg";
     Copy "/data/c.txt" "/w/dataset/labels/train" "c.txt";
     Copy "/data/e.jpg" "/w/dataset/images/train" "e.jpg";
     Copy "/data/a.jpg" "/w/dataset/images/val" "a.jpg";
     Copy "/data/a.txt" "/w/dataset/labels/val" "a.txt"].
Proof. vm_compute. split; [eexists; split; reflexivity|reflexivity]. Qed.

(** The product is the rounded one.  With 50 files and the float written
    [0.58] the index is 28 (the product rounds to 28.999999999999996);
    with 10 files and the float written [0.7] it is 7, although 10 times
    the exact value of that float is below 7. *)
Example float_product_is_rounded :
  split_index 50 (S754_finite false 5224175567749775 (-53)) = Ok 28 /\
  split_index 10 (S754_finite false 6305039478318694 (-53)) = Ok 7 /\
  10 * 6305039478318694 / 2 ^ 53 = 6.
Proof. vm_compute. repeat split; reflexivity. Qed.

(** A call that raises ends the run: here the second copy fails, after the
    four directories and one image. *)
Example demo_failed_copy :
  let os : OsAnswers := fun done _ =>
    if (length done =? 5)%nat then Some PermissionDenied else None in
  let R := prepare_dataset "/w" demo_fs os demo_env (@List.rev string)
                           "/data" float_0_8 in
  outcome R = Raise (OSError PermissionDenied) /\
  fs_ops R =
    [MakeDirs "/w/dataset/images/train"; MakeDirs "/w/dataset/images/val";
     MakeDirs "/w/dataset/labels/train"; MakeDirs "/w/dataset/labels/val";
     Copy "/data/b.png" "/w/dataset/images/train" "b.png"].
Proof. vm_compute. split; reflexivity. Qed.

Example demo_first_frame :
  process_frame demo_start demo_frame 7
  = Ok (set_history [(7%Q, 2)] (set_model 3 demo_start), (demo_frame, 2)).
Proof. vm_compute. reflexivity. Qed.

(** After 101 frames the sample of the first one is gone. *)
Example demo_eviction :
  let r := result_get (demo_start, []) (process_frames demo_start (demo_inputs 101)) in
  length (detection_history (fst r)) = 100%nat /\
  hd_error (detection_history (fst r)) = Some (inject_Z 1, 2) /\
  last (detection_history (fst r)) = Some (inject_Z 100, 2).
Proof. vm_compute. repeat split; reflexivity. Qed.

End Examples.

(** ** The theorems at concrete inputs *)

Section Instances.
#[local] Existing Instance counting_externals.

(** A stream that has yielded two frames, and the third frame after it. *)
Lemma history_holds_last_100_witness :
  let evs := [VideoFeed; GenNext 0 true (Some demo_frame) 1;
              GenNext 0 true (Some demo_frame) 2] in
  let w := run (world0 (startup (fun _ => false))) evs in
  let next := set_history [(1%Q, 2); (2%Q, 2); (3%Q, 2)] (set_model 9 w) in
  process_frame w demo_frame 3 = Ok (next, (demo_frame, 2)) /\
  detection_history w = [(1%Q, 2); (2%Q, 2)] /\
  detection_history next = detection_history w ++ [(3%Q, 2)].
Proof.
  intros evs w next.
  assert (H0 : process_frame w demo_frame 3 = Ok (next, (demo_frame, 2)))
    by reflexivity.
  destruct (history_holds_last_100 (E := counting_externals) (fun _ => false) evs)
    as (_ & Hh & _ & _ & Hn).
  split; [exact H0|]. split; [exact Hh|].
  exact (Hn demo_frame 3%Q next (demo_frame, 2) H0).
Defined.

Lemma source_selection_latched_witness :
  let c := cap_read (VideoCapture (CapIndex 0) true) in
  let w1 := run (world0 (startup (fun _ => false))) one_stream in
  let w2 := run w1 [ChangeSource sample_body; GenNext 0 true (Some demo_frame) 2] in
  frame_gens w1 !! 0%nat = Some (GenSuspended c) /\
  (exists sel, reads_of 0 w1 = repeat (0%nat, sel) (source_evals sel) /\
               video_source_arg sel = Ok (CapIndex 0)) /\
  reads_of 0 w2 = reads_of 0 w1 /\
  exists c', cap_arg c' = CapIndex 0 /\
    (frame_gens w2 !! 0%nat = Some (GenSuspended c') \/
     frame_gens w2 !! 0%nat = Some (GenFinished (Some c'))).
Proof.
  intros c w1 w2.
  assert (H0 : frame_gens w1 !! 0%nat = Some (GenSuspended c)) by reflexivity.
  destruct (source_selection_latched (E := counting_externals) (fun _ => false) one_stream
              [ChangeSource sample_body; GenNext 0 true (Some demo_frame) 2]
              0%nat c H0) as ((sel & K1 & _ & K1') & K2 & K3 & _).
  split; [exact H0|]. split; [exists sel; split; [exact K1|exact K1']|].
  split; [exact K2|exact K3].
Defined.

(** C3 as stated fails on "exactly once".  A stream opened on a video
    file has evaluated the selection three times: in the comparison of
    line 74, in that of line 76 and in the argument of line 80. *)
Lemma selection_evaluated_three_times :
  let w := run demo_start [ChangeSource sample_body; VideoFeed;
                           GenNext 0 true (Some demo_frame) 1] in
  frame_gens w !! 0%nat
  = Some (GenSuspended (cap_read (VideoCapture (CapName "/srv/app/sample.mp4") true))) /\
  reads_of 0 w = [(0%nat, JStr "sample.mp4"); (0%nat, JStr "sample.mp4");
                  (0%nat, JStr "sample.mp4")] /\
  reads_by 0 w = 3%nat /\
  reads_by 0 w <> 1%nat.
Proof.
  cbv zeta. split; [reflexivity|]. split; [reflexivity|].
  split; [reflexivity|discriminate].
Qed.

(** The first frame of a stream opened after others have run is tracked
    from the state they left. *)
Lemma tracker_state_carries_over_witness :
  let w := run demo_start (one_stream ++ [GenClose 0; ChangeSource sample_body; VideoFeed]) in
  frame_gens w !! 1%nat = Some GenCreated /\
  video_source_arg (current_video_source w) = Ok (CapName "/srv/app/sample.mp4") /\
  enhance_contrast demo_frame = Ok demo_frame /\
  model w = 3 /\
  model (fst (step w (GenNext 1 true (Some demo_frame) 2))) = 6.
Proof.
  intros w.
  assert (H0 : frame_gens w !! 1%nat = Some GenCreated) by reflexivity.
  assert (H1 : video_source_arg (current_video_source w)
               = Ok (CapName "/srv/app/sample.mp4")) by reflexivity.
  assert (H2 : enhance_contrast demo_frame = Ok demo_frame) by reflexivity.
  destruct (tracker_state_carries_over (E := counting_externals)) as (_ & _ & _ & _ & K & _).
  split; [exact H0|]. split; [exact H1|]. split; [exact H2|]. split; [reflexivity|].
  rewrite (K w 1%nat _ demo_frame demo_frame 2%Q H0 H1 H2). reflexivity.
Defined.

(** C4 as stated fails.  Two streams on two sources: the second stream's first detector call
    starts from the tracker state of the first stream, not from that of a
    freshly loaded model, and its track identifiers continue the first
    stream's numbering. *)
Lemma tracker_not_reset_on_reopen :
  let w1 := run demo_start one_stream in
  let w2 := run w1 [GenClose 0; ChangeSource sample_body; VideoFeed] in
  let w3 := fst (step w2 (GenNext 1 true (Some demo_frame) 2)) in
  frame_gens w1 !! 0%nat = Some (GenSuspended (cap_read (VideoCapture (CapIndex 0) true))) /\
  frame_gens w3 !! 1%nat
  = Some (GenSuspended (cap_read (VideoCapture (CapName "/srv/app/sample.mp4") true))) /\
  map track_id (boxes (snd (model_track (model demo_start) demo_frame)))
  = [Some 1; Some 2; Some 3] /\
  map track_id (boxes (snd (model_track (model w2) demo_frame)))
  = [Some 4; Some 5; Some 6] /\
  model w2 <> model demo_start /\
  model w2 <> YOLO (MODEL_PATH (startup (fun _ => false))).
Proof. vm_compute. repeat split; try reflexivity; discriminate. Defined.

Lemma change_source_sample_then_open_witness :
  let c := cap_read (VideoCapture (CapName "/srv/app/sample.mp4") true) in
  let w1 := set_source (JStr "sample.mp4") demo_start in
  forallb (fun e => negb (is_change_source e)) one_stream = true /\
  (frame_gens demo_start !! 0%nat = None \/
   frame_gens demo_start !! 0%nat = Some GenCreated) /\
  (frame_gens (run w1 one_stream) !! 0%nat = Some (GenSuspended c) \/
   frame_gens (run w1 one_stream) !! 0%nat = Some (GenFinished (Some c))) /\
  change_source demo_start sample_body
  = Ok (w1, JObj [("success", JBool true); ("source", JStr "sample.mp4")]) /\
  cap_arg c = CapName (path_join cwd ["sample.mp4"]) /\
  cap_arg c <> CapIndex 0.
Proof.
  intros c w1.
  assert (H0 : forallb (fun e => negb (is_change_source e)) one_stream = true)
    by reflexivity.
  assert (H1 : frame_gens demo_start !! 0%nat = None \/
               frame_gens demo_start !! 0%nat = Some GenCreated)
    by (left; reflexivity).
  assert (H2 : frame_gens (run w1 one_stream) !! 0%nat = Some (GenSuspended c) \/
               frame_gens (run w1 one_stream) !! 0%nat = Some (GenFinished (Some c)))
    by (left; reflexivity).
  split; [exact H0|]. split; [exact H1|]. split; [exact H2|].
  exact (change_source_sample_then_open (E := counting_externals) demo_start one_stream 0%nat c H0 H1 H2).
Defined.

(** C5 as stated fails.  After the request for [sample.mp4], a second request for the webcam,
    then a new stream: that stream, opened after the first request, is on
    camera 0. *)
Lemma later_change_overrides_sample :
  let w1 := fst (result_get (demo_start, JNull) (change_source demo_start sample_body)) in
  let evs := [ChangeSource webcam_body; VideoFeed; GenNext 0 true (Some demo_frame) 1] in
  change_source demo_start sample_body
  = Ok (w1, JObj [("success", JBool true); ("source", JStr "sample.mp4")]) /\
  frame_gens w1 !! 0%nat = None /\
  frame_gens (run w1 evs) !! 0%nat
  = Some (GenSuspended (cap_read (VideoCapture (CapIndex 0) true))) /\
  CapIndex 0 <> CapName (path_join cwd ["sample.mp4"]).
Proof. vm_compute. repeat split; try reflexivity; discriminate. Defined.

Lemma failed_read_ends_stream_and_releases_witness :
  let w := run demo_start one_stream in
  let c := cap_read (VideoCapture (CapIndex 0) true) in
  let r := gen_next w 0 true None 2 in
  frame_gens w !! 0%nat = Some (GenSuspended c) /\
  cap_opened c = true /\
  snd r = StopIteration /\
  frame_gens (fst r) !! 0%nat = Some (GenFinished (Some (cap_release (cap_read c)))) /\
  gen_next (run (fst r) [GenNext 0 true (Some demo_frame) 3]) 0 true (Some demo_frame) 4
  = (run (fst r) [GenNext 0 true (Some demo_frame) 3], StopIteration).
Proof.
  intros w c r.
  assert (H0 : frame_gens w !! 0%nat = Some (GenSuspended c)) by reflexivity.
  assert (H1 : cap_opened c = true) by reflexivity.
  destruct (failed_read_ends_stream_and_releases (E := counting_externals)) as (K & _).
  destruct (K w 0%nat c true 2%Q [GenNext 0 true (Some demo_frame) 3] H0 H1)
    as (K1 & K2 & _ & K3).
  split; [exact H0|]. split; [exact H1|]. split; [exact K1|]. split; [exact K2|].
  apply K3.
Defined.

Lemma count_updates_stream_witness :
  detection_history demo_start = [] /\
  fst (counts_next demo_start CountCreated) = [Emit ("data: 0" +:+ LF +:+ LF)].
Proof.
  assert (H0 : detection_history demo_start = []) by reflexivity.
  destruct (count_updates_stream (E := counting_externals)) as (K & _).
  split; [exact H0|exact (K demo_start H0)].
Defined.

Lemma startup_model_fallback_witness :
  (fun _ : string => false) configured_model_path = false /\
  MODEL_PATH (startup (fun _ => false)) = "yolov8n.pt" /\
  stdout (startup (fun _ => false))
  = ["Custom model not found at yolov8n.pt, using pretrained model"] /\
  (fun _ : string => true) configured_model_path = true /\
  MODEL_PATH (startup (fun _ => true)) = "/srv/app/model/best.pt" /\
  stdout (startup (fun _ => true)) = ["Using custom model: /srv/app/model/best.pt"].
Proof.
  destruct (startup_model_fallback (E := counting_externals) (fun _ => false)) as (K & _ & _).
  destruct (startup_model_fallback (E := counting_externals) (fun _ => true)) as (_ & K' & _).
  destruct (K eq_refl) as (K1 & K2 & _).
  destruct (K' eq_refl) as (K3 & K4 & _).
  split; [reflexivity|]. split; [exact K1|]. split; [exact K2|].
  split; [reflexivity|]. split; [exact K3|exact K4].
Defined.

Lemma change_source_object_body_witness :
  let d := [("other", JNum 1)] in
  dict_has d "source" = false /\
  change_source demo_start (JObj d)
  = Ok (set_source (JStr "webcam") demo_start,
        JObj [("success", JBool true); ("source", JStr "webcam")]) /\
  dict_get d "source" (JStr "webcam") = JStr "webcam".
Proof.
  intros d.
  assert (H0 : dict_has d "source" = false) by reflexivity.
  destruct (change_source_object_body (E := counting_externals) demo_start d) as (K1 & _ & K2).
  split; [exact H0|]. split; [exact K1|exact (K2 H0)].
Defined.

(** C10 as stated fails.  A JSON body that is an array: [.get] does not exist on a list, the
    handler raises and nothing is answered. *)
Lemma change_source_array_body :
  change_source demo_start (JArr []) = Raise AttributeError /\
  ~ (forall body : json, exists w1 v,
       change_source demo_start body
       = Ok (w1, JObj [("success", JBool true); ("source", v)])).
Proof.
  split; [reflexivity|].
  intros H. destruct (H (JArr [])) as (w1 & v & K). discriminate K.
Defined.

End Instances.



(** * Further properties of [app.py] *)

Section MoreAppProperties.
Context {E : Externals}.

Lemma loop_post_loop_self (w w' : World) (g : nat) (c : Capture) rd now o :
  loop_post w g c rd now w' o -> (g < length (frame_gens w))%nat ->
  loop_self w' o g c.
Proof.
  intros (_ & _ & st & Hg & Hst) Hlt. unfold loop_self.
  rewrite Hg, list_lookup_insert_eq by exact Hlt.
  destruct Hst as [(-> & _ & _ & Ho)|(-> & Hop & frame & w1 & r & _ & _ & _ & _ & ->)].
  - right. split; [|reflexivity].
    intros part.
    destruct Ho as [[_ ->]|[(_ & _ & ->)|(_ & frame & e & _ & _ & ->)]]; discriminate.
  - left. eexists. split; [reflexivity|]. split; [exact Hop|reflexivity].
Qed.

Lemma gen_next_self (w : World) (g : nat) opens rd now :
  match frame_gens w !! g with
  | None | Some (GenFinished _) =>
      gen_next w g opens rd now = (w, StopIteration)
  | Some GenCreated =>
      match video_source_arg (current_video_source w) with
      | Raise e =>
          snd (gen_next w g opens rd now) = Raised e /\
          frame_gens (fst (gen_next w g opens rd now)) !! g = Some (GenFinished None)
      | Ok a =>
          loop_self (fst (gen_next w g opens rd now)) (snd (gen_next w g opens rd now))
                    g (VideoCapture a opens)
      end
  | Some (GenSuspended c) =>
      loop_self (fst (gen_next w g opens rd now)) (snd (gen_next w g opens rd now)) g c
  end.
Proof.
  unfold gen_next.
  destruct (frame_gens w !! g) as [[|c|last]|] eqn:Hg; try reflexivity.
  - rewrite get_video_source_eq.
    destruct (video_source_arg (current_video_source w)) as [a|e]; cbn.
    + apply (loop_post_loop_self (log_source_evals g w) _ g _ rd now).
      * apply frames_loop_post.
      * cbn. apply lookup_lt_Some with (x := GenCreated). exact Hg.
    + split; [reflexivity|].
      apply list_lookup_insert_eq, lookup_lt_Some with (x := GenCreated). exact Hg.
  - apply (loop_post_loop_self w _ g _ rd now).
    + apply frames_loop_post.
    + apply lookup_lt_Some with (x := GenSuspended c). exact Hg.
Qed.

Lemma gen_next_other (w : World) (g0 g : nat) opens rd now :
  g0 <> g ->
  frame_gens (fst (gen_next w g0 opens rd now)) !! g = frame_gens w !! g.
Proof.
  intros Hne. unfold gen_next.
  destruct (frame_gens w !! g0) as [[|c|last]|] eqn:Hg0; try reflexivity.
  - rewrite get_video_source_eq.
    destruct (video_source_arg (current_video_source w)) as [a|e]; cbn.
    + pose proof (frames_loop_post (log_source_evals g0 w) g0
                    (VideoCapture a opens) rd now) as Hpost.
      apply (loop_post_other _ _ _ g) in Hpost; [|exact Hne]. apply Hpost.
    + apply list_lookup_insert_ne. exact Hne.
  - pose proof (frames_loop_post w g0 c rd now) as Hpost.
    apply (loop_post_other _ _ _ g) in Hpost; [|exact Hne]. apply Hpost.
Qed.

Lemma step_reads_match (w : World) (e : Event) (g : nat) (n : nat) :
  reads_match w g n ->
  reads_match (fst (step w e)) g (n + gen_yields g w [e]).
Proof.
  unfold reads_match. intros Hm.
  destruct e as [body| |g0 opens rd now|g0].
  - destruct (change_source_fields w body) as (_ & _ & _ & ->).
    cbn [gen_yields]. rewrite !Nat.add_0_r. exact Hm.
  - cbn. rewrite !Nat.add_0_r.
    destruct (Nat.lt_total g (length (frame_gens w))) as [Hlt|[->|Hgt]].
    + rewrite lookup_app_l by exact Hlt. exact Hm.
    + rewrite (proj2 (lookup_ge_None (frame_gens w) _)) in Hm by lia.
      rewrite lookup_app_r by lia. rewrite Nat.sub_diag. exact Hm.
    + rewrite (proj2 (lookup_ge_None (frame_gens w) _)) in Hm by lia.
      rewrite (proj2 (lookup_ge_None (frame_gens w ++ [GenCreated]) _))
        by (rewrite length_app; cbn; lia).
      exact Hm.
  - cbn [gen_yields step].
    destruct (gen_next w g0 opens rd now) as [w' o] eqn:Hn. cbn [fst snd].
    destruct (Nat.eqb_spec g0 g) as [->|Hne].
    + pose proof (gen_next_self w g opens rd now) as Hs. rewrite Hn in Hs.
      cbn [fst snd] in Hs.
      destruct (frame_gens w !! g) as [[|c|[c|]]|] eqn:Hg.
      * subst n.
        destruct (video_source_arg (current_video_source w)) as [a|x].
        -- destruct Hs as [(part & -> & Hop & ->)|(Hno & ->)].
           ++ cbn. lia.
           ++ destruct o as [part| | |]; [destruct (Hno part eq_refl)| | |];
                destruct opens; cbn; lia.
        -- destruct Hs as [-> ->]. reflexivity.
      * destruct Hs as [(part & -> & Hop & ->)|(Hno & ->)].
        -- cbn. lia.
        -- destruct o as [part| | |]; [destruct (Hno part eq_refl)| | |];
             destruct (cap_opened c); cbn; lia.
      * injection Hs as -> ->. rewrite Hg. lia.
      * injection Hs as -> ->. rewrite Hg. lia.
      * injection Hs as -> ->. rewrite Hg. lia.
    + pose proof (gen_next_other w g0 g opens rd now Hne) as Ho.
      rewrite Hn in Ho. cbn [fst] in Ho. rewrite Ho.
      destruct o; rewrite !Nat.add_0_r; exact Hm.
  - cbn [gen_yields step].
    destruct (gen_close w g0) as [w' o] eqn:Hn. cbn [fst snd].
    rewrite !Nat.add_0_r.
    unfold gen_close in Hn.
    destruct (Nat.eq_dec g0 g) as [->|Hne].
    + destruct (frame_gens w !! g) as [[|c|[c|]]|] eqn:Hg;
        injection Hn as <- <-; cbn; rewrite ?Hg; try exact Hm.
      * rewrite list_lookup_insert_eq
          by (apply lookup_lt_Some with (x := GenCreated); exact Hg).
        exact Hm.
      * rewrite list_lookup_insert_eq
          by (apply lookup_lt_Some with (x := GenSuspended c); exact Hg).
        cbn. lia.
    + destruct (frame_gens w !! g0) as [[|c|last]|];
        injection Hn as <- <-; cbn; rewrite ?list_lookup_insert_ne by exact Hne;
        exact Hm.
Qed.

Lemma run_reads_match (evs : list Event) (g : nat) :
  forall (w : World) (n : nat),
    reads_match w g n -> reads_match (run w evs) g (n + gen_yields g w evs).
Proof.
  induction evs as [|e evs IH]; intros w n Hm.
  - cbn. rewrite Nat.add_0_r. exact Hm.
  - cbn [run fold_left]. fold (run (fst (step w e)) evs).
    apply (step_reads_match w e g n) in Hm.
    apply IH in Hm. cbn [gen_yields] in *.
    rewrite Nat.add_0_r in Hm. rewrite Nat.add_assoc. exact Hm.
Qed.

(** X1.  In every run from startup, the capture of a suspended stream has
    been read exactly as often as the stream has yielded a frame, and the
    capture of a finished stream at most once more (the read that ended
    it): every frame read is yielded, none is read and dropped. *)
Theorem reads_are_yields (path_exists : string -> bool) (evs : list Event) (g : nat) :
  let w0 := world0 (startup path_exists) in
  let n := gen_yields g w0 evs in
  match frame_gens (run w0 evs) !! g with
  | Some (GenSuspended c) => cap_reads c = n
  | Some (GenFinished (Some c)) => (n <= cap_reads c <= n + 1)%nat
  | _ => n = 0%nat
  end.
Proof.
  intros w0 n.
  assert (H0 : reads_match w0 g 0).
  { unfold reads_match, w0, startup.
    destruct (negb (path_exists configured_model_path)); reflexivity. }
  apply (run_reads_match evs g) in H0. exact H0.
Qed.

Lemma finished_stops (w : World) (g : nat) (last : option Capture) opens rd now :
  frame_gens w !! g = Some (GenFinished last) ->
  gen_next w g opens rd now = (w, StopIteration).
Proof. intros Hg. unfold gen_next. rewrite Hg. reflexivity. Qed.

(** X2.  A selection that is not a string is stored and answered with
    success like any other; the next stream opened then raises
    [TypeError] before any capture exists: nothing is read, the history
    and the model are untouched, and that stream stays finished. *)
Theorem non_string_source_breaks_streams (w : World) (d : list (string * json))
    (g : nat) (opens : bool) (rd : option Frame) (now : Q) :
  let v := dict_get d "source" (JStr "webcam") in
  let w1 := set_source v w in
  let r := gen_next w1 g opens rd now in
  (forall s, v <> JStr s) ->
  frame_gens w !! g = Some GenCreated ->
  change_source w (JObj d)
  = Ok (w1, JObj [("success", JBool true); ("source", v)]) /\
  snd r = Raised TypeError /\
  frame_gens (fst r) !! g = Some (GenFinished None) /\
  detection_history (fst r) = detection_history w /\
  model (fst r) = model w /\
  (forall evs opens' rd' now',
     snd (gen_next (run (fst r) evs) g opens' rd' now') = StopIteration).
Proof.
  intros v w1 r Hv Hg.
  assert (Harg : video_source_arg (current_video_source w1) = Raise TypeError).
  { cbn. destruct v; try reflexivity. destruct (Hv s eq_refl). }
  assert (Hr : r = (set_gen g (GenFinished None) (log_source_evals g w1),
                    Raised TypeError)).
  { unfold r, gen_next.
    change (frame_gens w1 !! g) with (frame_gens w !! g).
    rewrite Hg, get_video_source_eq, Harg. reflexivity. }
  assert (Hfin : frame_gens (fst r) !! g = Some (GenFinished None)).
  { rewrite Hr. cbn. apply list_lookup_insert_eq.
    apply lookup_lt_Some with (x := GenCreated). exact Hg. }
  split; [reflexivity|]. split; [rewrite Hr; reflexivity|].
  split; [exact Hfin|]. split; [rewrite Hr; reflexivity|].
  split; [rewrite Hr; reflexivity|].
  intros evs opens' rd' now'.
  destruct (finished_future evs _ _ _ Hfin) as [Hst _].
  rewrite (finished_stops _ _ _ _ _ _ Hst). reflexivity.
Qed.

(** X3.  When the capture does not open, the first resumption ends the
    stream at once: no frame is read, the capture is still released, and
    the history and the model are untouched. *)
Theorem unopened_capture_ends_stream (w : World) (g : nat) (a : CapArg)
    (rd : option Frame) (now : Q) :
  let r := gen_next w g false rd now in
  frame_gens w !! g = Some GenCreated ->
  video_source_arg (current_video_source w) = Ok a ->
  snd r = StopIteration /\
  (exists c, frame_gens (fst r) !! g = Some (GenFinished (Some c)) /\
             cap_arg c = a /\ cap_reads c = 0%nat /\ cap_released c = true) /\
  detection_history (fst r) = detection_history w /\
  model (fst r) = model w.
Proof.
  intros r Hg Ha.
  assert (Hr : r = (set_gen g (GenFinished (Some (cap_release (VideoCapture a false))))
                      (log_source_evals g w), StopIteration)).
  { unfold r, gen_next. rewrite Hg, get_video_source_eq, Ha. unfold frames_loop. reflexivity. }
  rewrite Hr. cbn. repeat split.
  eexists. split.
  - apply list_lookup_insert_eq, lookup_lt_Some with (x := GenCreated). exact Hg.
  - repeat split.
Qed.

Lemma absolute_not_keyword (s : string) :
  startswith_slash s = true ->
  String.eqb s "webcam" = false /\ String.eqb s "rtsp" = false.
Proof.
  destruct s as [|c s]; [discriminate|]. cbn [startswith_slash].
  intros Hc. apply Ascii.eqb_eq in Hc. subst c. split; reflexivity.
Qed.

(** X4.  A selection that starts with a slash is taken as it is: the
    working directory is dropped by the join, and the stream opened next
    has its capture made from exactly that string. *)
Theorem absolute_source_path_kept (w : World) (s : string) (g : nat)
    (opens : bool) (rd : option Frame) (now : Q) :
  let w1 := set_source (JStr s) w in
  let w2 := fst (gen_next w1 g opens rd now) in
  startswith_slash s = true ->
  frame_gens w !! g = Some GenCreated ->
  change_source w (JObj [("source", JStr s)])
  = Ok (w1, JObj [("success", JBool true); ("source", JStr s)]) /\
  video_source_arg (JStr s) = Ok (CapName s) /\
  exists c, cap_arg c = CapName s /\
    (frame_gens w2 !! g = Some (GenSuspended c) \/
     frame_gens w2 !! g = Some (GenFinished (Some c))).
Proof.
  intros w1 w2 Hs Hg.
  destruct (absolute_not_keyword s Hs) as [H1 H2].
  assert (Harg : video_source_arg (JStr s) = Ok (CapName s)).
  { unfold video_source_arg, path_join. cbn [fold_left].
    rewrite H1, H2. unfold join2. rewrite Hs. reflexivity. }
  split; [reflexivity|]. split; [exact Harg|].
  pose proof (gen_next_self w1 g opens rd now) as Hself.
  change (frame_gens w1 !! g) with (frame_gens w !! g) in Hself.
  rewrite Hg in Hself.
  change (current_video_source w1) with (JStr s) in Hself.
  rewrite Harg in Hself. fold w2 in Hself.
  destruct Hself as [(part & _ & _ & K)|(_ & K)]; eexists; (split; [|eauto]).
  - reflexivity.
  - destruct opens; reflexivity.
Qed.

Lemma last_record_sample (h : list Sample) (s : Sample) :
  last (record_sample h s) = Some s.
Proof.
  unfold record_sample, pop0.
  destruct (Nat.ltb_spec 100 (length (h ++ [s]))) as [Hlt|_]; [|apply last_snoc].
  destruct h as [|x t]; [cbn in Hlt; lia|]. cbn [app tl]. apply last_snoc.
Qed.

(** X5.  After a frame has been processed, the newest sample of the
    history is that frame's: its time and the very count that is drawn
    on the frame, so the count stream's next message carries the number
    shown in the picture. *)
Theorem latest_sample_is_drawn_count (w w' : World) (frame annotated : Frame)
    (now : Q) (current_count : Z) :
  process_frame w frame now = Ok (w', (annotated, current_count)) ->
  last (detection_history w') = Some (now, current_count) /\
  count_message (detection_history w')
  = "data: " +:+ py_str_int current_count +:+ LF +:+ LF /\
  exists enhanced,
    enhance_contrast frame = Ok enhanced /\
    annotated = putText (plot (snd (model_track (model w) enhanced)))
                        ("Gunny Bags: " +:+ py_str_int current_count).
Proof.
  intros Hp.
  destruct (process_frame_inv _ _ _ _ _ Hp) as (enh & He & _ & _ & Hh & _).
  cbn [snd] in Hh.
  assert (Hlast : last (detection_history w') = Some (now, current_count))
    by (rewrite Hh; apply last_record_sample).
  split; [exact Hlast|]. split.
  - unfold count_message. rewrite Hlast. reflexivity.
  - exists enh. split; [exact He|].
    unfold process_frame in Hp. rewrite He in Hp. cbn in Hp.
    destruct (model_track (model w) enh) as [m1 results].
    injection Hp as _ Ha Hc. subst current_count. cbn. symmetry. exact Ha.
Qed.

(** X6.  Events during which no stream yields a frame (requests, closed or
    broken streams, failed reads) leave the history as it is, so the
    count stream keeps emitting the same last count. *)
Theorem quiet_events_keep_count (evs : list Event) :
  forall (w : World),
    frames_yielded w evs = 0%nat ->
    detection_history (run w evs) = detection_history w /\
    (forall st, counts_next (run w evs) st = counts_next w st).
Proof.
  assert (Hh : forall (l : list Event) (w : World),
             frames_yielded w l = 0%nat ->
             detection_history (run w l) = detection_history w).
  { induction l as [|e l IH]; intros w Hq; [reflexivity|].
    cbn [frames_yielded] in Hq. cbn [run fold_left]. fold (run (fst (step w e)) l).
    destruct (step_history w e) as [Hstep Hlen].
    destruct (is_yield (snd (step w e))); [lia|].
    rewrite IH by lia. rewrite Hstep.
    destruct (step_record w e); [reflexivity|discriminate]. }
  intros w Hq. split; [apply Hh, Hq|].
  intros st. unfold counts_next. rewrite (Hh evs w Hq). reflexivity.
Qed.

End MoreAppProperties.

(** * Further properties of [prepare_data.py] *)


(** X8.  Outside the range of a proportion, when no call into the file
    system raises and there are fewer than 2^53 files: with a ratio of 1
    or more, either [int] raises at line 34 ([OverflowError] for a
    product that overflows, [ValueError] for an infinite ratio and no
    file) and nothing is copied, or every image goes to [images/train]
    and none to [images/val]; with a ratio of -1 or less it is the same
    the other way round. *)
Theorem ratio_out_of_range (cwd : string) (fs0 : FS) (os : OsAnswers)
    (env : GlobEnv) (shuffle : list string -> list string) (images_dir : string)
    (split_ratio : spec_float) :
  let R := prepare_dataset cwd fs0 os env shuffle images_dir split_ratio in
  let files := shuffle (image_files env images_dir) in
  let mk := [MakeDirs (train_img_dir cwd); MakeDirs (val_img_dir cwd);
             MakeDirs (train_label_dir cwd); MakeDirs (val_label_dir cwd)] in
  quiet os -> Z.of_nat (length files) < 2 ^ 53 ->
  (int_le_float 1 split_ratio = true ->
   match outcome R with
   | Ok P => train_images P = files /\ val_images P = []
   | Raise e => (e = OverflowError \/ e = ValueError) /\ fs_ops R = mk
   end) /\
  (float_le_int split_ratio (-1) = true ->
   match outcome R with
   | Ok P => train_images P = [] /\ val_images P = files
   | Raise e => (e = OverflowError \/ e = ValueError) /\ fs_ops R = mk
   end).
Proof.
  intros R files mk Hq Hlen.
  pose proof (prepare_dataset_quiet cwd fs0 os env shuffle images_dir split_ratio Hq)
    as Hrun.
  fold R in Hrun. fold files in Hrun.
  split; intros Hr.
  - pose proof (split_index_at_least (length files) split_ratio Hlen Hr) as Hk.
    destruct (split_index (length files) split_ratio) as [idx|e].
    + cbv zeta in Hrun. destruct Hrun as (P & -> & _ & -> & -> & _).
      unfold slice_to, slice_from, slice_bound.
      destruct (Z.ltb_spec idx 0); [lia|].
      replace (Nat.min (Z.to_nat idx) (length files)) with (length files) by lia.
      split; [apply firstn_all|apply skipn_all].
    + destruct Hrun as (-> & -> & _). split; [|reflexivity].
      destruct Hk as [[-> _]|[-> _]]; auto.
  - pose proof (split_index_at_most_neg (length files) split_ratio Hlen Hr) as Hk.
    destruct (split_index (length files) split_ratio) as [idx|e].
    + cbv zeta in Hrun. destruct Hrun as (P & -> & _ & -> & -> & _).
      unfold slice_to, slice_from, slice_bound.
      destruct (Z.ltb_spec idx 0) as [Hneg|Hpos].
      * replace (Z.to_nat (Z.max 0 (Z.of_nat (length files) + idx))) with 0%nat by lia.
        split; reflexivity.
      * assert (Hz : length files = 0%nat) by lia.
        destruct files; [|discriminate]. destruct (Nat.min _ _); split; reflexivity.
    + destruct Hrun as (-> & -> & _). split; [|reflexivity].
      destruct Hk as [[-> _]|[-> _]]; auto.
Qed.


(** X10.  In a source directory named without wildcard characters, whose
    entries hold no slash, the file names of the images found are the
    entries' own names (first those ending in [.jpg], then [.jpeg], then
    [.png], each group in directory order), so every image is copied
    under the name it has in the source directory. *)
Theorem images_keep_entry_names (env : GlobEnv) (images_dir : string) :
  has_magic images_dir = false ->
  let listing := scandir env (pattern_dir images_dir) in
  Forall (fun name => contains_slash name = false) listing ->
  map basename (image_files env images_dir)
  = List.filter (fun name => negb (ishidden name) && endswith name ".jpg") listing
    ++ List.filter (fun name => negb (ishidden name) && endswith name ".jpeg") listing
    ++ List.filter (fun name => negb (ishidden name) && endswith name ".png") listing.
Proof.
  intros Hmagic listing Hall.
  rewrite (image_files_plain env images_dir Hmagic). fold listing.
  rewrite map_map.
  erewrite map_ext_in; [apply map_id|].
  intros name Hin. cbn beta. apply basename_join.
  rewrite List.Forall_forall in Hall. apply Hall.
  apply in_app_or in Hin as [Hin|Hin]; [|apply in_app_or in Hin as [Hin|Hin]];
    apply List.filter_In in Hin as [Hin _]; exact Hin.
Qed.

(** X11.  For an entry [stem.ext] whose stem holds no slash and is not made
    of dots only, and whose extension holds neither dot nor slash, the
    name is split at its last dot: the label looked for and copied is
    [stem.txt], in whatever directory the image was found, also when the
    stem itself contains dots. *)
Theorem label_named_after_stem (d stem ext : string) :
  contains_slash stem = false ->
  existsb (fun x => negb (Ascii.eqb x "."%char)) (list_ascii_of_string stem) = true ->
  existsb (Ascii.eqb "."%char) (list_ascii_of_string ext) = false ->
  contains_slash ext = false ->
  splitext_root (stem +:+ "." +:+ ext) = stem /\
  label_name (path_join d [stem +:+ "." +:+ ext]) = stem +:+ ".txt".
Proof. exact (label_stem_facts d stem ext). Qed.

(** * Properties of [train.py] and of the scripts together *)

Lemma extends_refl (P : FsOp -> Prop) (st : RunState) : extends P st st.
Proof. exists []. rewrite app_nil_r. split; [reflexivity|]. split; [reflexivity|intros op []]. Qed.

Lemma extends_trans (P Q : FsOp -> Prop) (st1 st2 st3 : RunState) :
  extends P st1 st2 -> extends Q st2 st3 -> extends (fun op => P op \/ Q op) st1 st3.
Proof.
  intros (ops1 & H1 & F1 & P1) (ops2 & H2 & F2 & P2). exists (ops1 ++ ops2).
  split; [rewrite H2, H1, app_assoc; reflexivity|].
  split; [rewrite F2, F1, apply_ops_app; reflexivity|].
  intros op Hin. apply in_app_or in Hin as [Hin|Hin]; auto.
Qed.

Lemma extends_weaken (P Q : FsOp -> Prop) (st st' : RunState) :
  (forall op, P op -> Q op) -> extends P st st' -> extends Q st st'.
Proof. intros HPQ (ops & H1 & H2 & H3). exists ops. auto. Qed.

(** Whatever the operating system answers, a call adds itself or nothing. *)
Lemma os_call_extends (os : OsAnswers) (op : FsOp) (st : RunState) :
  extends (fun o => o = op) st (fst (os_call os op st)).
Proof.
  unfold os_call. destruct (os (snd st) op); [apply extends_refl|].
  exists [op]. cbn. split; [reflexivity|]. split; [reflexivity|].
  intros o [<-|[]]. reflexivity.
Qed.

Lemma make_dirs_extends (os : OsAnswers) (dirs : list string) :
  forall st,
    extends (fun o => exists d, In d dirs /\ o = MakeDirs d) st
            (fst (make_dirs os dirs st)).
Proof.
  induction dirs as [|d dirs IH]; intros st; [apply extends_refl|].
  cbn [make_dirs].
  pose proof (os_call_extends os (MakeDirs d) st) as H1.
  destruct (os_call os (MakeDirs d) st) as [st1 [[]|e]]; cbn [fst] in *.
  - apply (extends_weaken _ _ _ _
             (fun o H => match H with
                         | or_introl K => ex_intro _ d (conj (or_introl eq_refl) K)
                         | or_intror (ex_intro _ d' (conj K1 K2)) =>
                             ex_intro _ d' (conj (or_intror K1) K2)
                         end)
             (extends_trans _ _ _ _ _ H1 (IH st1))).
  - eapply extends_weaken; [|exact H1]. intros o ->. exists d. split; [left|]; reflexivity.
Qed.

(** The calls of one pass and of a copying loop: copies into its two
    directories, under names that do not start with a slash. *)
Lemma copy_one_extends (os : OsAnswers) (images_dir img_dir label_dir img : string)
    (st : RunState) :
  extends (copies_into img_dir label_dir) st
          (fst (copy_one os images_dir img_dir label_dir img st)).
Proof.
  unfold copy_one.
  pose proof (os_call_extends os (Copy img img_dir (basename img)) st) as H1.
  assert (Himg : forall o, o = Copy img img_dir (basename img) ->
                           copies_into img_dir label_dir o).
  { intros o ->. exists img, img_dir, (basename img).
    split; [reflexivity|]. split; [left; reflexivity|].
    apply no_slash_start, basename_no_slash. }
  destruct (os_call os (Copy img img_dir (basename img)) st) as [st1 [[]|e]];
    cbn [fst] in *; [|eapply extends_weaken; [exact Himg|exact H1]].
  destruct (fst st1 (label_path images_dir img));
    [|eapply extends_weaken; [exact Himg|exact H1]].
  pose proof (os_call_extends os (Copy (label_path images_dir img) label_dir
                                       (label_name img)) st1) as H2.
  eapply extends_weaken; [|exact (extends_trans _ _ _ _ _ H1 H2)].
  intros o [Ho|Ho]; [apply Himg, Ho|]. subst o.
  exists (label_path images_dir img), label_dir, (label_name img).
  split; [reflexivity|]. split; [right; reflexivity|apply label_name_start].
Qed.

Lemma copy_loop_extends (os : OsAnswers) (images_dir img_dir label_dir : string)
    (imgs : list string) :
  forall st,
    extends (copies_into img_dir label_dir) st
            (fst (copy_loop os images_dir img_dir label_dir imgs st)).
Proof.
  induction imgs as [|img rest IH]; intros st; [apply extends_refl|].
  cbn [copy_loop].
  pose proof (copy_one_extends os images_dir img_dir label_dir img st) as H1.
  destruct (copy_one os images_dir img_dir label_dir img st) as [st1 [[]|e]];
    cbn [fst] in *; [|exact H1].
  eapply extends_weaken; [|exact (extends_trans _ _ _ _ _ H1 (IH st1))].
  intros o [Ho|Ho]; exact Ho.
Qed.

(** Every run of [prepare_dataset], however it ends: the calls that
    returned make the four directories or copy into one of them, and they
    are all that happened to the file system. *)
Lemma prepare_dataset_calls (cwd : string) (fs0 : FS) (os : OsAnswers)
    (env : GlobEnv) (shuffle : list string -> list string) (images_dir : string)
    (split_ratio : spec_float) :
  let R := prepare_dataset cwd fs0 os env shuffle images_dir split_ratio in
  let dirs := [train_img_dir cwd; val_img_dir cwd; train_label_dir cwd; val_label_dir cwd] in
  fs_final R = apply_ops fs0 (fs_ops R) /\
  forall op, In op (fs_ops R) ->
    (exists d, In d dirs /\ op = MakeDirs d) \/
    (exists src dir name, op = Copy src dir name /\ In dir dirs /\
                          startswith_slash name = false).
Proof.
  intros R dirs.
  set (ok := fun op : FsOp =>
         (exists d, In d dirs /\ op = MakeDirs d) \/
         (exists src dir name, op = Copy src dir name /\ In dir dirs /\
                               startswith_slash name = false)).
  assert (Hmk : forall op, (exists d, In d dirs /\ op = MakeDirs d) -> ok op)
    by (intros op H; left; exact H).
  assert (Htrain : forall op,
            copies_into (train_img_dir cwd) (train_label_dir cwd) op -> ok op).
  { intros op (src & dir & name & -> & Hd & Hn). right. exists src, dir, name.
    split; [reflexivity|]. split; [|exact Hn].
    destruct Hd as [-> | ->]; cbn; auto. }
  assert (Hval : forall op,
            copies_into (val_img_dir cwd) (val_label_dir cwd) op -> ok op).
  { intros op (src & dir & name & -> & Hd & Hn). right. exists src, dir, name.
    split; [reflexivity|]. split; [|exact Hn].
    destruct Hd as [-> | ->]; cbn; auto. }
  assert (Hall : forall st r, extends ok (fs0, []) st ->
            fs_final (finish st r) = apply_ops fs0 (fs_ops (finish st r)) /\
            forall op, In op (fs_ops (finish st r)) -> ok op).
  { intros st r (ops & H1 & H2 & H3). cbn in H1, H2. cbn [finish fs_final fs_ops].
    rewrite H1, H2. auto. }
  unfold R, prepare_dataset. fold dirs.
  pose proof (make_dirs_extends os dirs (fs0, [])) as E1.
  apply (extends_weaken _ ok) in E1; [|exact Hmk].
  destruct (make_dirs os dirs (fs0, [])) as [st1 [[]|e]]; cbn [fst] in E1;
    [|apply Hall, E1].
  destruct (split_index _ split_ratio) as [idx|e]; [|apply Hall, E1].
  match goal with
  | |- context [copy_loop os images_dir (train_img_dir cwd) _ ?l st1] =>
      pose proof (copy_loop_extends os images_dir (train_img_dir cwd)
                    (train_label_dir cwd) l st1) as E2;
      destruct (copy_loop os images_dir (train_img_dir cwd) (train_label_dir cwd) l st1)
        as [st2 [[]|e]]
  end; cbn [fst] in E2;
    apply (extends_weaken _ ok) in E2; try exact Htrain;
    pose proof (extends_trans _ _ _ _ _ E1 E2) as E12;
    apply (extends_weaken _ ok) in E12; try (intros op [K|K]; exact K);
    [|apply Hall, E12].
  match goal with
  | |- context [copy_loop os images_dir (val_img_dir cwd) _ ?l st2] =>
      pose proof (copy_loop_extends os images_dir (val_img_dir cwd)
                    (val_label_dir cwd) l st2) as E3;
      destruct (copy_loop os images_dir (val_img_dir cwd) (val_label_dir cwd) l st2)
        as [st3 [[]|e]]
  end; cbn [fst] in E3;
    apply (extends_weaken _ ok) in E3; try exact Hval;
    pose proof (extends_trans _ _ _ _ _ E12 E3) as E123;
    apply (extends_weaken _ ok) in E123; try (intros op [K|K]; exact K);
    apply Hall, E123.
Qed.

(** What [prepare_dataset] writes lies under [dataset/images] and
    [dataset/labels]: a path under the dataset directory whose first
    component starts with another letter is left as it was, however the
    run ends. *)
Lemma prepare_dataset_untouched (cwd : string) (fs0 : FS) (os : OsAnswers)
    (env : GlobEnv) (shuffle : list string -> list string) (images_dir : string)
    (split_ratio : spec_float) (c : ascii) (rest : string) :
  c <> "i"%char -> c <> "l"%char ->
  let q := dataset_dir cwd +:+ String "/" (String c rest) in
  fs_final (prepare_dataset cwd fs0 os env shuffle images_dir split_ratio) q = fs0 q.
Proof.
  intros Hi Hl q.
  destruct (prepare_dataset_calls cwd fs0 os env shuffle images_dir split_ratio)
    as [Hfinal Hcalls].
  rewrite Hfinal. apply apply_ops_untouched.
  destruct (dataset_dirs_shape cwd) as (S1 & S2 & S3 & S4).
  destruct (dataset_dir_shape cwd) as [Hne Hs].
  assert (Hdir : forall dir,
            In dir [train_img_dir cwd; val_img_dir cwd;
                    train_label_dir cwd; val_label_dir cwd] ->
            exists tail, dir = dataset_dir cwd +:+ String "/" tail /\
                         (exists t, tail = String "i" t \/ tail = String "l" t) /\
                         endswith_slash dir = false).
  { intros dir [<-|[<-|[<-|[<-|[]]]]].
    - exists "images/train". split; [exact S1|]. split; [eexists; left; reflexivity|].
      rewrite S1. rewrite endswith_slash_app by discriminate. reflexivity.
    - exists "images/val". split; [exact S2|]. split; [eexists; left; reflexivity|].
      rewrite S2. rewrite endswith_slash_app by discriminate. reflexivity.
    - exists "labels/train". split; [exact S3|]. split; [eexists; right; reflexivity|].
      rewrite S3. rewrite endswith_slash_app by discriminate. reflexivity.
    - exists "labels/val". split; [exact S4|]. split; [eexists; right; reflexivity|].
      rewrite S4. rewrite endswith_slash_app by discriminate. reflexivity. }
  intros op Hin.
  destruct (Hcalls op Hin) as [(dir & Hd & ->)|(src & dir & name & -> & Hd & Hn)].
  - destruct (Hdir dir Hd) as (tail & -> & (t & Ht) & _).
    cbn [apply_op]. rewrite orb_false_r. apply orb_false_iff. split.
    + apply String.eqb_neq. unfold q. intros H. apply String.app_inj in H.
      destruct Ht as [-> | ->]; congruence.
    + unfold q. rewrite string_app_assoc, prefix_app_same, app_cons.
      cbn [String.prefix]. destruct (ascii_dec "/" "/") as [_|K]; [|contradiction].
      rewrite app_cons.
      destruct Ht as [-> | ->]; cbn [String.prefix];
        destruct (ascii_dec c _) as [K|_]; try reflexivity; contradiction.
  - destruct (Hdir dir Hd) as (tail & Hshape & (t & Ht) & Hends).
    cbn [apply_op]. rewrite orb_false_r. apply String.eqb_neq.
    unfold copy_dst, path_join. cbn [fold_left].
    rewrite join2_plain; [|rewrite Hshape; apply string_app_nonempty; discriminate
                          |exact Hends|exact Hn].
    rewrite Hshape, string_app_assoc. unfold q. intros H.
    apply String.app_inj in H. rewrite app_cons in H.
    destruct Ht as [-> | ->]; rewrite app_cons in H; congruence.
Qed.

Section TrainProperties.
Context {T : TrainExternals}.

Lemma first_missing_none (fs : FS) (dirs : list string) :
  first_missing fs dirs = None <-> Forall (fun d => fs d = true) dirs.
Proof.
  induction dirs as [|d dirs IH]; cbn [first_missing].
  - split; [constructor|reflexivity].
  - destruct (fs d) eqn:Hd.
    + rewrite IH. split; [intros H; constructor; assumption|].
      intros H. inversion H. assumption.
    + split; [discriminate|]. intros H. inversion H. congruence.
Qed.

Lemma first_missing_some (fs : FS) (dirs : list string) (d : string) :
  first_missing fs dirs = Some d ->
  exists before after,
    dirs = before ++ d :: after /\ fs d = false /\
    Forall (fun x => fs x = true) before.
Proof.
  revert d. induction dirs as [|x dirs IH]; intros d; cbn [first_missing];
    [discriminate|].
  destruct (fs x) eqn:Hx.
  - intros H. destruct (IH d H) as (before & after & -> & Hd & Hb).
    exists (x :: before), after. split; [reflexivity|]. split; [exact Hd|].
    constructor; assumption.
  - intros H. injection H as <-. exists [], dirs. split; [reflexivity|].
    split; [exact Hx|constructor].
Qed.

(** X12.  The validation returns [True] exactly when the four directories
    [train/images], [train/labels], [valid/images], [valid/labels] exist
    under the dataset directory and [train/images] can be listed and
    lists something; it then prints nothing.  When it returns [False] it
    has printed exactly one line; when a directory is missing, the line
    names the first missing one in that order, and the directories after
    it are not looked at.  When the four exist and [os.listdir] raises
    (because [train/images] is not a directory, say), that exception
    leaves the function and nothing has been printed. *)
Theorem validate_accepts_iff (cwd : string) (disk : Disk) :
  let r := validate_dataset_structure cwd disk in
  let train_images := path_join (dataset_dir cwd) ["train"; "images"] in
  let all_exist := Forall (fun d => disk_exists disk d = true) (required_dirs cwd) in
  (r = Ok (true, []) <->
   all_exist /\ exists x l, disk_listdir disk train_images = inl (x :: l)) /\
  (forall out, r = Ok (true, out) -> out = []) /\
  (forall out, r = Ok (false, out) -> length out = 1%nat) /\
  (forall e, r = Raise e <->
     all_exist /\ exists oe, disk_listdir disk train_images = inr oe /\ e = OSError oe) /\
  (forall d, first_missing (disk_exists disk) (required_dirs cwd) = Some d ->
     r = Ok (false, ["Warning: Expected directory " +:+ d +:+ " not found"]) /\
     exists before after,
       required_dirs cwd = before ++ d :: after /\ disk_exists disk d = false /\
       Forall (fun x => disk_exists disk x = true) before).
Proof.
  intros r train_images all_exist. unfold r, validate_dataset_structure.
  fold train_images.
  destruct (first_missing (disk_exists disk) (required_dirs cwd)) as [d|] eqn:Hm.
  - assert (Hno : ~ all_exist).
    { intros Hall. apply first_missing_none in Hall. congruence. }
    split; [split; [discriminate|intros [Hall _]; contradiction]|].
    split; [discriminate|]. split; [intros out H; injection H as <-; reflexivity|].
    split; [intros e; split; [discriminate|intros [Hall _]; contradiction]|].
    intros d' H. injection H as <-. split; [reflexivity|].
    apply first_missing_some, Hm.
  - apply first_missing_none in Hm. fold all_exist in Hm.
    destruct (disk_listdir disk train_images) as [[|x l]|oe] eqn:Hl.
    + split; [split; [discriminate|intros [_ (x & l & K)]; discriminate K]|].
      split; [discriminate|]. split; [intros out H; injection H as <-; reflexivity|].
      split; [|discriminate].
      intros e. split; [discriminate|intros [_ (oe & K & _)]; discriminate K].
    + split; [split; [intros _; split; [exact Hm|eauto]|reflexivity]|].
      split; [intros out H; injection H as <-; reflexivity|].
      split; [discriminate|]. split; [|discriminate].
      intros e. split; [discriminate|intros [_ (oe & K & _)]; discriminate K].
    + split; [split; [discriminate|intros [_ (x & l & K)]; discriminate K]|].
      split; [discriminate|]. split; [discriminate|]. split; [|discriminate].
      intros e. split.
      * intros H. injection H as <-. split; [exact Hm|]. exists oe. auto.
      * intros [_ (oe' & K & ->)]. congruence.
Qed.

(** X13.  The layout [prepare_dataset] makes is not the one the training
    script checks for: unless [dataset/train/images] was there before,
    after any run of [prepare_dataset], however it ends, the validation
    fails on that directory and the training script exits with status 1
    without training. *)
Theorem prepared_layout_fails_validation (cwd : string) (fs0 : FS) (os : OsAnswers)
    (env : GlobEnv) (shuffle : list string -> list string)
    (images_dir : string) (split_ratio : spec_float) (disk : Disk) :
  let R := prepare_dataset cwd fs0 os env shuffle images_dir split_ratio in
  let missing := path_join (dataset_dir cwd) ["train"; "images"] in
  let warning := ["Warning: Expected directory " +:+ missing +:+ " not found"] in
  (forall q, disk_exists disk q = fs_final R q) ->
  fs0 missing = false ->
  validate_dataset_structure cwd disk = Ok (false, warning) /\
  train_main cwd disk = ExitStatus1 warning.
Proof.
  intros R missing warning Hdisk Hfs.
  assert (Hshape : missing = dataset_dir cwd +:+ String "/" "train/images").
  { unfold missing. rewrite dataset_subdir by (try reflexivity; discriminate).
    reflexivity. }
  assert (Hgone : disk_exists disk missing = false).
  { rewrite Hdisk. unfold R. rewrite Hshape.
    rewrite (prepare_dataset_untouched cwd fs0 os env shuffle images_dir split_ratio
               "t" "rain/images") by discriminate.
    rewrite <- Hshape. exact Hfs. }
  assert (Hv : validate_dataset_structure cwd disk = Ok (false, warning)).
  { unfold validate_dataset_structure, required_dirs. cbn [first_missing].
    fold missing. rewrite Hgone. reflexivity. }
  split; [exact Hv|]. unfold train_main. rewrite Hv. reflexivity.
Qed.

Lemma py_str_int_inj (a b : Z) : py_str_int a = py_str_int b -> a = b.
Proof.
  unfold py_str_int. intros H.
  assert (Hok : forall z, NilZero.int_of_string (NilZero.string_of_int (Z.to_int z))
                          = Some (Z.to_int z)).
  { intros z. apply NilZero.isi; destruct z as [|p|p]; cbn; try discriminate;
      intros K; injection K as K; exact (DecimalPos.Unsigned.to_uint_nonnil p K). }
  pose proof (Hok a) as Ha. rewrite H, Hok in Ha. injection Ha as Ha.
  symmetry. apply DecimalZ.to_int_inj, Ha.
Qed.

Lemma class_name_inj (a b : Z) : class_name a = class_name b -> a = b.
Proof.
  unfold class_name.
  destruct (Z.eqb_spec a 0) as [->|Ha], (Z.eqb_spec b 0) as [->|Hb];
    intros H; try reflexivity; try discriminate H.
  change ("class_" +:+ py_str_int a = "class_" +:+ py_str_int b) in H.
  apply String.app_inj in H. apply py_str_int_inj, H.
Qed.

Lemma sorted_strict (l : list Z) :
  StronglySorted Z.le l -> List.NoDup l -> StronglySorted Z.lt l.
Proof.
  induction 1 as [|x l Hs IH Hall]; intros Hnd; constructor.
  - apply IH. inversion Hnd. assumption.
  - inversion Hnd as [|? ? Hx _]. subst.
    rewrite List.Forall_forall in *. intros y Hy.
    specialize (Hall y Hy). assert (x <> y) by (intros ->; contradiction). lia.
Qed.

Lemma sorted_ids_spec (class_ids : gset Z) :
  StronglySorted Z.lt (sorted_ids class_ids) /\
  (forall class_id, In class_id (sorted_ids class_ids) <-> class_id ∈ class_ids).
Proof.
  unfold sorted_ids.
  pose proof (merge_sort_Permutation Z.le (elements class_ids)) as Hperm.
  split.
  - apply sorted_strict.
    + apply StronglySorted_merge_sort; apply _.
    + apply NoDup_ListNoDup. rewrite Hperm. apply NoDup_elements.
  - intros class_id. rewrite <- list_elem_of_In, Hperm. apply elem_of_elements.
Qed.

(** The class map in full. *)
Lemma class_names_facts (class_ids : gset Z) :
  let names := class_names class_ids in
  names <> [] /\
  (class_ids = ∅ -> names = [(0, "gunny_bag")]) /\
  (class_ids <> ∅ ->
   forall class_id, In class_id (map fst names) <-> class_id ∈ class_ids) /\
  StronglySorted Z.lt (map fst names) /\
  (forall k v, In (k, v) names ->
     v = class_name k /\ (k = 0 -> v = "gunny_bag") /\
     (k <> 0 -> v = "class_" +:+ py_str_int k)) /\
  (forall k1 k2 v, In (k1, v) names -> In (k2, v) names -> k1 = k2).
Proof.
  intros names.
  destruct (sorted_ids_spec class_ids) as [Hsorted Hmem].
  assert (Hname : forall k v, v = class_name k ->
            (k = 0 -> v = "gunny_bag") /\ (k <> 0 -> v = "class_" +:+ py_str_int k)).
  { intros k v ->. unfold class_name. split; intros H.
    - subst k. reflexivity.
    - destruct (Z.eqb_spec k 0); [contradiction|reflexivity]. }
  unfold names. clear names.
  destruct (sorted_ids class_ids) as [|x l] eqn:Hl.
  - assert (Hempty : class_ids = ∅).
    { apply set_eq. intros y. rewrite <- Hmem. cbn. split; [contradiction|].
      intros K. destruct (not_elem_of_empty (C := gset Z) y K). }
    assert (Hnames : class_names class_ids = [(0, "gunny_bag")])
      by (unfold class_names; rewrite Hl; reflexivity).
    rewrite Hnames.
    split; [discriminate|]. split; [reflexivity|].
    split; [intros H; contradiction|].
    split; [cbn; repeat constructor|]. split.
    + intros k v [H|[]]. injection H as <- <-. split; [reflexivity|].
      apply Hname. reflexivity.
    + intros k1 k2 v [H1|[]] [H2|[]]. congruence.
  - set (f := fun class_id : Z => (class_id, class_name class_id)).
    assert (Hnames : class_names class_ids = map f (x :: l))
      by (unfold class_names; rewrite Hl; reflexivity).
    rewrite Hnames.
    assert (Hkeys : map fst (map f (x :: l)) = x :: l).
    { rewrite map_map. cbn. rewrite map_id. reflexivity. }
    assert (Hin : forall k v, In (k, v) (map f (x :: l)) -> v = class_name k).
    { intros k v H. apply in_map_iff in H as (y & Hy & _).
      unfold f in Hy. injection Hy as <- <-. reflexivity. }
    split; [discriminate|]. split.
    { intros ->. specialize (Hmem x). cbn in Hmem.
      exfalso. apply (not_elem_of_empty (C := gset Z) x). apply Hmem. left. reflexivity. }
    split; [intros _ class_id; rewrite Hkeys; apply Hmem|].
    split; [rewrite Hkeys; exact Hsorted|]. split.
    + intros k v H. pose proof (Hin k v H) as Hv. split; [exact Hv|apply Hname, Hv].
    + intros k1 k2 v H1 H2. apply Hin in H1, H2. subst v.
      apply class_name_inj, H2.
Qed.

(** X14.  The class map written to the configuration is never empty; its
    keys are the class identifiers found, in strictly increasing order
    (each once), or the single key 0 when none was found; key 0 is always
    named [gunny_bag], every other key [class_<key>]; and no two keys
    share a name. *)
Theorem class_names_spec (class_ids : gset Z) :
  let names := class_names class_ids in
  names <> [] /\
  (class_ids = ∅ -> names = [(0, "gunny_bag")]) /\
  (class_ids <> ∅ ->
   forall class_id, In class_id (map fst names) <-> class_id ∈ class_ids) /\
  StronglySorted Z.lt (map fst names) /\
  (forall k v, In (k, v) names ->
     v = class_name k /\ (k = 0 -> v = "gunny_bag") /\
     (k <> 0 -> v = "class_" +:+ py_str_int k)) /\
  (forall k1 k2 v, In (k1, v) names -> In (k2, v) names -> k1 = k2).
Proof. exact (class_names_facts class_ids). Qed.

Lemma scan_files_txt_only (disk : Disk) (dir : string) (entries : list string) :
  forall class_ids,
    scan_files disk dir class_ids entries
    = scan_files disk dir class_ids
        (List.filter (fun label_file => endswith label_file ".txt") entries).
Proof.
  induction entries as [|e entries IH]; intros class_ids; [reflexivity|].
  cbn [scan_files List.filter].
  destruct (endswith e ".txt") eqn:He.
  - cbn [scan_files]. rewrite He.
    destruct (scan_file disk (path_join dir [e]) class_ids); [apply IH|reflexivity].
  - apply IH.
Qed.

Lemma last_char (d : string) :
  d <> "" -> endswith_slash d = false ->
  exists pre c, d = pre +:+ String c "" /\ is_slash c = false.
Proof.
  induction d as [|c d IH]; [contradiction|]. intros _ Hs.
  destruct d as [|c' d'].
  - exists "", c. split; [reflexivity|exact Hs].
  - change (endswith_slash (String c' d') = false) in Hs.
    destruct (IH ltac:(discriminate) Hs) as (pre & x & Hd & Hx).
    exists (String c pre), x. rewrite app_cons, <- Hd. auto.
Qed.

(** The directory of a file joined to a directory is that directory. *)
Lemma split_head_join (d b : string) :
  d <> "" -> endswith_slash d = false -> contains_slash b = false ->
  split_head (path_join d [b]) = d.
Proof.
  intros Hd Hs Hb. unfold path_join. cbn [fold_left].
  rewrite join2_plain;
    [|apply String.eqb_neq; exact Hd|exact Hs|apply no_slash_start, Hb].
  rewrite <- string_app_assoc, split_head_app by exact Hb.
  destruct (last_char d Hd Hs) as (pre & c & -> & Hc).
  unfold split_head. rewrite !chars_app.
  cbn [list_ascii_of_string].
  set (cs := list_ascii_of_string pre ++ [c]).
  assert (Hr : rfind "/"%char (cs ++ ["/"%char]) 0 = Z.of_nat (length cs)).
  { rewrite (rfind_last "/"%char cs [] 0) by (lia || reflexivity). lia. }
  rewrite Hr.
  replace (Z.to_nat (Z.of_nat (length cs) + 1)) with (length (cs ++ ["/"%char]))
    by (rewrite length_app; cbn; lia).
  rewrite firstn_all.
  assert (Hall : forallb is_slash (cs ++ ["/"%char]) = false).
  { unfold cs. rewrite !forallb_app. cbn [forallb]. rewrite Hc.
    rewrite andb_false_r. reflexivity. }
  rewrite Hall. cbn [negb].
  rewrite rev_app_distr. cbn [List.rev app drop_slashes].
  change (is_slash "/"%char) with true. cbn iota.
  unfold cs. rewrite rev_app_distr. cbn [List.rev app drop_slashes]. rewrite Hc.
  change (c :: List.rev (list_ascii_of_string pre))
    with ([c] ++ List.rev (list_ascii_of_string pre)).
  rewrite rev_app_distr, rev_involutive. cbn [List.rev app].
  rewrite <- (string_of_list_ascii_of_string (pre +:+ String c "")).
  rewrite chars_app. reflexivity.
Qed.

Lemma yaml_path_dir (cwd : string) :
  split_head (path_join (dataset_dir cwd) ["dataset.yaml"]) = dataset_dir cwd.
Proof.
  destruct (dataset_dir_shape cwd) as [Hne Hs].
  apply split_head_join; [|exact Hs|reflexivity].
  intros H. rewrite H in Hne. discriminate.
Qed.

(** X15.  Entries of the label directory that do not end in [.txt] are
    never opened: the scan gives what it gives on the [.txt] entries
    alone.  When the directory [dataset/train/labels] does not exist, or
    is listed and holds no [.txt] entry, no class is found; then, if
    [dataset.yaml] cannot be opened for writing, the failure of [open] is
    raised and nothing is written, which is what happens when the dataset
    directory itself does not exist; and if the directory exists and the
    file can be opened, the configuration is written with the single
    class [0: gunny_bag]. *)
Theorem yaml_without_labels (cwd : string) (disk : Disk) :
  let dir := path_join (dataset_dir cwd) ["train"; "labels"] in
  let path := path_join (dataset_dir cwd) ["dataset.yaml"] in
  (forall class_ids entries,
     scan_files disk dir class_ids entries
     = scan_files disk dir class_ids
         (List.filter (fun label_file => endswith label_file ".txt") entries)) /\
  (disk_exists disk dir = false \/
   (exists entries,
      disk_listdir disk dir = inl entries /\
      List.filter (fun label_file => endswith label_file ".txt") entries = []) ->
   (forall e, disk_open_w disk path = inr e ->
              create_dataset_yaml cwd disk = Raise (OSError e)) /\
   (disk_exists disk (dataset_dir cwd) = false ->
    exists e, create_dataset_yaml cwd disk = Raise (OSError e)) /\
   (disk_exists disk (dataset_dir cwd) = true -> disk_open_w disk path = inl tt ->
    exists y,
      create_dataset_yaml cwd disk = Ok y /\
      cfg_names (yaml_config y) = [(0, "gunny_bag")] /\
      yaml_path y = path)).
Proof.
  intros dir path. split; [intros; apply scan_files_txt_only|].
  intros H.
  assert (Hscan : scan_class_ids cwd disk = Ok ∅).
  { unfold scan_class_ids. fold dir.
    destruct (disk_exists disk dir); [|reflexivity].
    destruct H as [H|(entries & Hl & H)]; [discriminate|].
    rewrite Hl, scan_files_txt_only, H. reflexivity. }
  unfold create_dataset_yaml, open_for_writing. rewrite Hscan. fold path.
  unfold path. rewrite yaml_path_dir. fold path.
  split; [|split].
  - intros e ->. reflexivity.
  - intros ->. destruct (disk_open_w disk path) as [[]|e]; eexists; reflexivity.
  - intros -> ->.
    eexists. split; [reflexivity|]. cbn. split; [|reflexivity].
    apply (proj1 (proj2 (class_names_facts ∅))). reflexivity.
Qed.

Lemma copy_first_best_spec (cwd root : string) (files : list string) :
  copy_first_best cwd root files
  = if existsb (String.eqb "best.pt") files
    then ([Copy (path_join root ["best.pt"]) (model_dir cwd) "best.pt"],
          ["Found and copied best model from " +:+ path_join root ["best.pt"]])
    else ([], []).
Proof.
  induction files as [|file rest IH]; [reflexivity|].
  cbn [copy_first_best existsb]. rewrite (String.eqb_sym "best.pt" file).
  destruct (String.eqb_spec file "best.pt") as [->|_]; [reflexivity|exact IH].
Qed.

Lemma copy_walk_spec (cwd : string) (walk : list WalkEntry) :
  fst (copy_walk cwd walk)
  = map (fun root => Copy (path_join root ["best.pt"]) (model_dir cwd) "best.pt")
        (roots_with_best walk).
Proof.
  unfold roots_with_best.
  induction walk as [|[[root dirs] files] rest IH]; [reflexivity|].
  cbn [copy_walk]. rewrite copy_first_best_spec.
  destruct (copy_walk cwd rest) as [ops2 out2]. cbn [fst] in IH.
  cbn [List.filter snd].
  destruct (existsb (String.eqb "best.pt") files); cbn; rewrite IH; reflexivity.
Qed.

(** What [save_best_model] copies. *)
Lemma save_best_model_facts (cwd : string) (disk : Disk) :
  let found := roots_with_best (os_walk disk (path_join cwd ["runs"])) in
  (disk_exists disk (best_model_path cwd) = true ->
   fst (save_best_model cwd disk)
   = [Copy (best_model_path cwd) (model_dir cwd) "best.pt"]) /\
  (disk_exists disk (best_model_path cwd) = false ->
   fst (save_best_model cwd disk)
   = map (fun root => Copy (path_join root ["best.pt"]) (model_dir cwd) "best.pt") found /\
   (found = [] -> fst (save_best_model cwd disk) = []) /\
   (forall root, List.last found "" = root -> found <> [] ->
      List.last (fst (save_best_model cwd disk)) (MakeDirs "")
      = Copy (path_join root ["best.pt"]) (model_dir cwd) "best.pt")) /\
  (forall op, In op (fst (save_best_model cwd disk)) ->
     exists src, op = Copy src (model_dir cwd) "best.pt").
Proof.
  intros found.
  assert (Hwalk : disk_exists disk (best_model_path cwd) = false ->
            fst (save_best_model cwd disk)
            = map (fun root => Copy (path_join root ["best.pt"]) (model_dir cwd) "best.pt")
                  found).
  { intros H. unfold save_best_model. rewrite H.
    pose proof (copy_walk_spec cwd (os_walk disk (path_join cwd ["runs"]))) as Hs.
    destruct (copy_walk cwd (os_walk disk (path_join cwd ["runs"]))) as [ops out].
    exact Hs. }
  split; [intros H; unfold save_best_model; rewrite H; reflexivity|]. split.
  - intros H. rewrite (Hwalk H). split; [reflexivity|]. split.
    + intros ->. reflexivity.
    + intros root Hlast Hne. rewrite <- Hlast.
      clear Hlast Hwalk. induction found as [|r [|r' l] IH]; [contradiction|reflexivity|].
      change (List.last (map _ (r :: r' :: l)) (MakeDirs ""))
        with (List.last (map (fun root0 => Copy (path_join root0 ["best.pt"])
                                                (model_dir cwd) "best.pt") (r' :: l))
                        (MakeDirs "")).
      rewrite IH by discriminate. reflexivity.
  - intros op Hin.
    destruct (disk_exists disk (best_model_path cwd)) eqn:H.
    + unfold save_best_model in Hin. rewrite H in Hin.
      destruct Hin as [<-|[]]. eexists. reflexivity.
    + rewrite (Hwalk eq_refl) in Hin. apply in_map_iff in Hin as (root & <- & _).
      eexists. reflexivity.
Qed.

(** X16.  When the best weights are where training is expected to put
    them, exactly that file is copied to [model/best.pt] and the walk is
    not consulted.  Otherwise the walk copies once for every directory
    that holds a [best.pt] (the [break] leaves the inner loop only), all
    to the same [model/best.pt], in walk order, so the file that stays is
    that of the last such directory; with no such directory nothing is
    copied. *)
Theorem best_model_copies (cwd : string) (disk : Disk) :
  let found := roots_with_best (os_walk disk (path_join cwd ["runs"])) in
  (disk_exists disk (best_model_path cwd) = true ->
   fst (save_best_model cwd disk)
   = [Copy (best_model_path cwd) (model_dir cwd) "best.pt"]) /\
  (disk_exists disk (best_model_path cwd) = false ->
   fst (save_best_model cwd disk)
   = map (fun root => Copy (path_join root ["best.pt"]) (model_dir cwd) "best.pt") found /\
   (found = [] -> fst (save_best_model cwd disk) = []) /\
   (forall root, List.last found "" = root -> found <> [] ->
      List.last (fst (save_best_model cwd disk)) (MakeDirs "")
      = Copy (path_join root ["best.pt"]) (model_dir cwd) "best.pt")) /\
  (forall op, In op (fst (save_best_model cwd disk)) ->
     exists src, op = Copy src (model_dir cwd) "best.pt").
Proof. exact (save_best_model_facts cwd disk). Qed.

Lemma scan_line_cases (class_ids : gset Z) (line : string) :
  (scan_line class_ids line = Raise ValueError /\ bad_line line) \/
  (scan_line class_ids line = Ok class_ids /\ py_split line = []) \/
  (exists class_id, scan_line class_ids line = Ok (class_ids ∪ {[class_id]}) /\
                    line_class line class_id).
Proof.
  unfold scan_line, bad_line, line_class.
  destruct (py_split line) as [|first rest]; [right; left; auto|].
  destruct (py_int_of_str first) as [class_id|] eqn:Hp.
  - right. right. exists class_id. split; [reflexivity|]. eauto.
  - left. split; [reflexivity|]. eauto.
Qed.

Lemma scan_lines_spec (lines : list string) :
  forall class_ids,
    match scan_lines class_ids lines with
    | Raise e => e = ValueError /\ exists line, In line lines /\ bad_line line
    | Ok ids =>
        (forall line, In line lines -> ~ bad_line line) /\
        (forall class_id,
           class_id ∈ ids <->
           class_id ∈ class_ids \/ exists line, In line lines /\ line_class line class_id)
    end.
Proof.
  induction lines as [|line rest IH]; intros class_ids.
  - cbn. split; [intros l []|]. intros id. split; [auto|]. intros [H|(l & [] & _)]. exact H.
  - cbn [scan_lines].
    destruct (scan_line_cases class_ids line)
      as [[-> Hbad]|[[-> Hblank]|(cid & -> & Hcls)]].
    + split; [reflexivity|]. exists line. split; [left; reflexivity|exact Hbad].
    + specialize (IH class_ids).
      destruct (scan_lines class_ids rest) as [ids|e].
      * destruct IH as [Hgood Hmem]. split.
        -- intros l [<-|Hl]; [|apply Hgood, Hl].
           intros (f & r & Hs & _). congruence.
        -- intros id. rewrite Hmem. split.
           ++ intros [H|(l & Hl & Hc)]; [left; exact H|right; exists l; split; [right|]; auto].
           ++ intros [H|(l & [<-|Hl] & Hc)]; [left; exact H| |right; exists l; auto].
              destruct Hc as (f & r & Hs & _). congruence.
      * destruct IH as (He & l & Hl & Hb). split; [exact He|].
        exists l. split; [right; exact Hl|exact Hb].
    + specialize (IH (class_ids ∪ {[cid]})).
      destruct (scan_lines (class_ids ∪ {[cid]}) rest) as [ids|e].
      * destruct IH as [Hgood Hmem]. split.
        -- intros l [<-|Hl]; [|apply Hgood, Hl].
           intros (f & r & Hs & Hn). destruct Hcls as (f' & r' & Hs' & Hn'). congruence.
        -- intros id. rewrite Hmem, elem_of_union, elem_of_singleton. split.
           ++ intros [[H| ->]|(l & Hl & Hc)].
              ** left; exact H.
              ** right. exists line. split; [left; reflexivity|exact Hcls].
              ** right. exists l. split; [right; exact Hl|exact Hc].
           ++ intros [H|(l & [<-|Hl] & Hc)].
              ** left. left. exact H.
              ** left. right. destruct Hc as (f & r & Hs & Hn).
                 destruct Hcls as (f' & r' & Hs' & Hn'). congruence.
              ** right. exists l. auto.
      * destruct IH as (He & l & Hl & Hb). split; [exact He|].
        exists l. split; [right; exact Hl|exact Hb].
Qed.

(** One label file: either it is read to its end without a bad line, or a
    bad line was read, or opening or reading failed. *)
Lemma scan_file_spec (disk : Disk) (path : string) (class_ids : gset Z) :
  match scan_file disk path class_ids with
  | Ok ids =>
      exists lines,
        disk_read disk path = inl (lines, None) /\
        (forall line, In line lines -> ~ bad_line line) /\
        (forall class_id,
           class_id ∈ ids <->
           class_id ∈ class_ids \/ exists line, In line lines /\ line_class line class_id)
  | Raise e =>
      (e = ValueError /\
       exists lines stopped line,
         disk_read disk path = inl (lines, stopped) /\ In line lines /\ bad_line line) \/
      (exists oe, e = OSError oe /\
         (disk_read disk path = inr oe \/
          exists lines, disk_read disk path = inl (lines, Some oe)))
  end.
Proof.
  unfold scan_file.
  destruct (disk_read disk path) as [[lines stopped]|oe] eqn:Hr.
  - pose proof (scan_lines_spec lines class_ids) as Hs.
    destruct (scan_lines class_ids lines) as [ids|e].
    + destruct stopped as [oe|].
      * right. exists oe. split; [reflexivity|]. right. exists lines. reflexivity.
      * exists lines. split; [reflexivity|exact Hs].
    + destruct Hs as (-> & line & Hl & Hb). left. split; [reflexivity|].
      exists lines, stopped, line. auto.
  - right. exists oe. auto.
Qed.

Lemma entry_line_cons (disk : Disk) (dir e : string) (rest : list string)
    (line : string) :
  entry_line disk dir (e :: rest) line <->
  (endswith e ".txt" = true /\
   exists lines stopped,
     disk_read disk (path_join dir [e]) = inl (lines, stopped) /\ In line lines) \/
  entry_line disk dir rest line.
Proof.
  unfold entry_line. split.
  - intros (f & lines & stopped & [<-|Hf] & He & Hr & Hl).
    + left. split; [exact He|]. exists lines, stopped. auto.
    + right. exists f, lines, stopped. auto.
  - intros [(He & lines & stopped & Hr & Hl)|(f & lines & stopped & Hf & He & Hr & Hl)].
    + exists e, lines, stopped. split; [left; reflexivity|auto].
    + exists f, lines, stopped. split; [right; exact Hf|auto].
Qed.

(** The [.txt] entries among [entries] can each be read to its end. *)
Lemma scan_files_spec (disk : Disk) (dir : string) (entries : list string) :
  forall class_ids,
    match scan_files disk dir class_ids entries with
    | Ok ids =>
        (forall line, entry_line disk dir entries line -> ~ bad_line line) /\
        (forall class_id,
           class_id ∈ ids <->
           class_id ∈ class_ids \/
           exists line, entry_line disk dir entries line /\ line_class line class_id)
    | Raise e =>
        (e = ValueError /\
         exists line, entry_line disk dir entries line /\ bad_line line) \/
        (exists oe label_file,
           e = OSError oe /\ In label_file entries /\
           endswith label_file ".txt" = true /\
           forall lines, disk_read disk (path_join dir [label_file]) <> inl (lines, None))
    end.
Proof.
  induction entries as [|e rest IH]; intros class_ids.
  - cbn. split.
    + intros l (f & ? & ? & [] & _).
    + intros id. split; [auto|]. intros [H|(l & (f & ? & ? & [] & _) & _)]. exact H.
  - cbn [scan_files]. destruct (endswith e ".txt") eqn:He.
    + pose proof (scan_file_spec disk (path_join dir [e]) class_ids) as Hf.
      destruct (scan_file disk (path_join dir [e]) class_ids) as [ids1|x].
      * destruct Hf as (lines & Hread & Hgood1 & Hmem1). specialize (IH ids1).
        assert (Hhere : forall line,
                  (endswith e ".txt" = true /\
                   exists lines0 stopped,
                     disk_read disk (path_join dir [e]) = inl (lines0, stopped) /\
                     In line lines0) <-> In line lines).
        { intros line. split.
          - intros (_ & lines0 & stopped & Hr & Hl). congruence.
          - intros Hl. split; [exact He|]. exists lines, None. auto. }
        destruct (scan_files disk dir ids1 rest) as [ids|x].
        -- destruct IH as [Hgood Hmem]. split.
           ++ intros l Hl. apply entry_line_cons in Hl as [Hl|Hl].
              ** apply Hgood1, Hhere, Hl.
              ** apply Hgood, Hl.
           ++ intros id. rewrite Hmem, Hmem1. split.
              ** intros [[H|(l & Hl & Hc)]|(l & Hl & Hc)].
                 --- left. exact H.
                 --- right. exists l. split; [|exact Hc].
                     apply entry_line_cons. left. apply Hhere, Hl.
                 --- right. exists l. split; [|exact Hc].
                     apply entry_line_cons. right. exact Hl.
              ** intros [H|(l & Hl & Hc)]; [left; left; exact H|].
                 apply entry_line_cons in Hl as [Hl|Hl].
                 --- left. right. exists l. split; [apply Hhere, Hl|exact Hc].
                 --- right. exists l. auto.
        -- destruct IH as [(-> & l & Hl & Hb)|(oe & f & -> & Hf & Hf2 & Hf3)].
           ++ left. split; [reflexivity|]. exists l. split; [|exact Hb].
              apply entry_line_cons. right. exact Hl.
           ++ right. exists oe, f. split; [reflexivity|]. split; [right; exact Hf|auto].
      * destruct Hf as [(-> & lines & stopped & l & Hr & Hl & Hb)
                       |(oe & -> & Hbroken)].
        -- left. split; [reflexivity|]. exists l. split; [|exact Hb].
           apply entry_line_cons. left. split; [exact He|]. exists lines, stopped. auto.
        -- right. exists oe, e. split; [reflexivity|]. split; [left; reflexivity|].
           split; [exact He|]. intros lines Hr.
           destruct Hbroken as [K|(lines' & K)]; congruence.
    + specialize (IH class_ids).
      assert (Hskip : forall line,
                entry_line disk dir (e :: rest) line <-> entry_line disk dir rest line).
      { intros line. rewrite entry_line_cons. split; [|auto].
        intros [(K & _)|K]; [congruence|exact K]. }
      destruct (scan_files disk dir class_ids rest) as [ids|x].
      * destruct IH as [Hgood Hmem]. split.
        -- intros l Hl. apply Hgood, Hskip, Hl.
        -- intros id. rewrite Hmem. split.
           ++ intros [H|(l & Hl & Hc)]; [left; exact H|].
              right. exists l. split; [apply Hskip, Hl|exact Hc].
           ++ intros [H|(l & Hl & Hc)]; [left; exact H|].
              right. exists l. split; [apply Hskip, Hl|exact Hc].
      * destruct IH as [(-> & l & Hl & Hb)|(oe & f & -> & Hf & Hf2 & Hf3)].
        -- left. split; [reflexivity|]. exists l. split; [apply Hskip, Hl|exact Hb].
        -- right. exists oe, f. split; [reflexivity|]. split; [right; exact Hf|auto].
Qed.

(** What the scan of the label directory gives. *)
Lemma scan_class_ids_spec (cwd : string) (disk : Disk) :
  let dir := path_join (dataset_dir cwd) ["train"; "labels"] in
  match scan_class_ids cwd disk with
  | Ok ids =>
      forall class_id,
        class_id ∈ ids <->
        disk_exists disk dir = true /\
        exists line, label_line disk dir line /\ line_class line class_id
  | Raise e =>
      disk_exists disk dir = true /\
      ((e = ValueError /\ exists line, label_line disk dir line /\ bad_line line) \/
       (exists oe, e = OSError oe /\ ~ labels_readable disk dir))
  end.
Proof.
  intros dir. unfold scan_class_ids. fold dir.
  destruct (disk_exists disk dir).
  - destruct (disk_listdir disk dir) as [entries|oe] eqn:Hl.
    + pose proof (scan_files_spec disk dir entries ∅) as Hs.
      destruct (scan_files disk dir ∅ entries) as [ids|e].
      * destruct Hs as [_ Hmem]. intros id. rewrite Hmem. split.
        -- intros [H|(l & Hline & Hc)];
             [destruct (not_elem_of_empty (C := gset Z) id H)|].
           split; [reflexivity|]. exists l. split; [exists entries; auto|exact Hc].
        -- intros [_ (l & (entries' & Hl' & Hline) & Hc)]. right. exists l.
           split; [|exact Hc]. congruence.
      * split; [reflexivity|].
        destruct Hs as [(-> & l & Hline & Hb)|(oe & f & -> & Hf & Hf2 & Hf3)].
        -- left. split; [reflexivity|]. exists l. split; [exists entries; auto|exact Hb].
        -- right. exists oe. split; [reflexivity|].
           intros (entries' & Hl' & Hread).
           assert (entries' = entries) by congruence. subst entries'.
           destruct (Hread f Hf Hf2) as [lines K]. exact (Hf3 lines K).
    + split; [reflexivity|]. right. exists oe. split; [reflexivity|].
      intros (entries & Hl' & _). congruence.
  - intros id. split.
    + intros H. destruct (not_elem_of_empty (C := gset Z) id H).
    + intros [H _]. discriminate.
Qed.

(** X18.  [create_dataset_yaml] raises the [ValueError] of [int] only when
    the label directory exists and some line read from one of its [.txt]
    entries has a first token that [int] rejects; and when the directory
    can be listed and its [.txt] entries read to their end, it raises it
    exactly then.  Whatever [create_dataset_yaml] raises, nothing has
    been written and [train_model] stops there, before any training.
    Lines without a token never make it fail. *)
Theorem yaml_fails_iff_bad_label (cwd : string) (disk : Disk) :
  let dir := path_join (dataset_dir cwd) ["train"; "labels"] in
  let bad :=
    disk_exists disk dir = true /\
    exists line, label_line disk dir line /\ bad_line line in
  (create_dataset_yaml cwd disk = Raise ValueError -> bad) /\
  (labels_readable disk dir ->
   (create_dataset_yaml cwd disk = Raise ValueError <-> bad)) /\
  (forall e, create_dataset_yaml cwd disk = Raise e -> train_model cwd disk = Raise e).
Proof.
  intros dir bad.
  pose proof (scan_class_ids_spec cwd disk) as Hs. cbv zeta in Hs. fold dir in Hs.
  assert (Hvalue : create_dataset_yaml cwd disk = Raise ValueError <->
                   scan_class_ids cwd disk = Raise ValueError).
  { unfold create_dataset_yaml, open_for_writing.
    destruct (scan_class_ids cwd disk) as [ids|e]; [|split; intros H; congruence].
    destruct (disk_open_w disk _) as [[]|oe];
      [destruct (disk_exists disk (split_head _))|]; split; discriminate. }
  assert (Hdown : create_dataset_yaml cwd disk = Raise ValueError -> bad).
  { rewrite Hvalue. intros H. rewrite H in Hs.
    destruct Hs as [Hex [[_ Hb]|(oe & K & _)]]; [|discriminate].
    split; assumption. }
  split; [exact Hdown|]. split.
  - intros Hread. split; [exact Hdown|]. intros [Hex (l & Hline & Hb)].
    apply Hvalue.
    destruct (scan_class_ids cwd disk) as [ids|e] eqn:Hscan.
    + exfalso. unfold scan_class_ids in Hscan. fold dir in Hscan. rewrite Hex in Hscan.
      destruct Hline as (entries & Hl & Hline). rewrite Hl in Hscan.
      pose proof (scan_files_spec disk dir entries ∅) as Hf. rewrite Hscan in Hf.
      exact (proj1 Hf l Hline Hb).
    + destruct Hs as [_ [[-> _]|(oe & _ & Hno)]]; [reflexivity|contradiction].
  - intros e H. unfold train_model. rewrite H. reflexivity.
Qed.

(** X19.  When the configuration is written, a class identifier other than
    the default has an entry exactly when it is the first token of some
    line of a [.txt] entry of the label directory: every labelled class
    gets a name and no other class appears, whatever the order and the
    repetitions in the label files. *)
Theorem yaml_names_are_label_classes (cwd : string) (disk : Disk) (y : YamlResult) :
  let dir := path_join (dataset_dir cwd) ["train"; "labels"] in
  let labelled := fun class_id =>
    disk_exists disk dir = true /\
    exists line, label_line disk dir line /\ line_class line class_id in
  create_dataset_yaml cwd disk = Ok y ->
  (forall class_id,
     labelled class_id -> In (class_id, class_name class_id) (cfg_names (yaml_config y))) /\
  (forall class_id name,
     In (class_id, name) (cfg_names (yaml_config y)) ->
     labelled class_id \/
     (cfg_names (yaml_config y) = [(0, "gunny_bag")] /\
      forall other, ~ labelled other)).
Proof.
  intros dir labelled Hy.
  pose proof (scan_class_ids_spec cwd disk) as Hids. cbv zeta in Hids. fold dir in Hids.
  unfold create_dataset_yaml in Hy.
  destruct (scan_class_ids cwd disk) as [ids|e]; [|discriminate].
  destruct (open_for_writing disk _) as [[]|e]; [|discriminate].
  injection Hy as <-. cbn [yaml_config cfg_names].
  fold (labelled) in Hids.
  destruct (class_names_facts ids) as (_ & Hdef & Hkeys & _ & Hval & _).
  split.
  - intros id Hl. apply Hids in Hl.
    assert (Hne : ids <> ∅).
    { intros ->. destruct (not_elem_of_empty (C := gset Z) id Hl). }
    apply (Hkeys Hne) in Hl. apply in_map_iff in Hl as ([k v] & Hk & Hin).
    cbn in Hk. subst k. destruct (Hval id v Hin) as [-> _]. exact Hin.
  - intros id name Hin.
    destruct (decide (ids = ∅)) as [He|Hne].
    + right. split; [apply Hdef, He|].
      intros other Ho. apply Hids in Ho. rewrite He in Ho.
      destruct (not_elem_of_empty (C := gset Z) other Ho).
    + left. apply Hids, (Hkeys Hne). apply in_map_iff. exists (id, name). auto.
Qed.

End TrainProperties.

Section TrainThenServe.
Context {E : Externals} {T : TrainExternals}.

(** X17.  The training script saves the weights exactly where the
    application looks for them: run in the same working directory, once
    training has copied a [best.pt], the application starts on
    [model/best.pt], reports the custom model and does not fall back. *)
Theorem trained_model_is_served (disk : Disk) (fs : FS) (r : Trained) :
  let fs' := apply_ops fs (trained_ops r) in
  train_model cwd disk = Ok r ->
  trained_ops r <> [] ->
  path_join (model_dir cwd) ["best.pt"] = configured_model_path /\
  fs' configured_model_path = true /\
  MODEL_PATH (startup fs') = configured_model_path /\
  stdout (startup fs') = ["Using custom model: " +:+ configured_model_path] /\
  model (world0 (startup fs')) = YOLO configured_model_path.
Proof.
  intros fs' Htrain Hne.
  assert (Hops : forall op, In op (trained_ops r) ->
            exists src, op = Copy src (model_dir cwd) "best.pt").
  { unfold train_model in Htrain.
    destruct (create_dataset_yaml cwd disk) as [y|]; [|discriminate].
    destruct (yolo_train disk (yaml_path y)) as [disk1|]; [|discriminate].
    pose proof (proj2 (proj2 (save_best_model_facts cwd disk1))) as Hc.
    destruct (save_best_model cwd disk1) as [ops out].
    injection Htrain as <-. exact Hc. }
  assert (Hex : fs' configured_model_path = true).
  { unfold fs'. destruct (trained_ops r) as [|op ops]; [contradiction|].
    destruct (Hops op (or_introl eq_refl)) as [src ->].
    cbn [apply_ops fold_left]. apply apply_ops_mono.
    cbn [apply_op]. unfold copy_dst.
    change (path_join (model_dir cwd) ["best.pt"]) with configured_model_path.
    rewrite String.eqb_refl. reflexivity. }
  split; [reflexivity|]. split; [exact Hex|].
  unfold startup. rewrite Hex. cbn. repeat split.
Qed.

End TrainThenServe.

(** ** The further properties at concrete inputs *)

Section MoreInstances.
#[local] Existing Instance counting_externals.
#[local] Existing Instance demo_train_externals.

Lemma non_string_source_breaks_streams_witness :
  let w := run demo_start [VideoFeed] in
  let d := [("source", JNum 5)] in
  let r := gen_next (set_source (JNum 5) w) 0 true (Some demo_frame) 1 in
  (forall s, dict_get d "source" (JStr "webcam") <> JStr s) /\
  frame_gens w !! 0%nat = Some GenCreated /\
  change_source w (JObj d)
  = Ok (set_source (JNum 5) w, JObj [("success", JBool true); ("source", JNum 5)]) /\
  snd r = Raised TypeError /\
  frame_gens (fst r) !! 0%nat = Some (GenFinished None).
Proof.
  intros w d r.
  assert (H0 : forall s, dict_get d "source" (JStr "webcam") <> JStr s)
    by (intros s; discriminate).
  assert (H1 : frame_gens w !! 0%nat = Some GenCreated) by reflexivity.
  destruct (non_string_source_breaks_streams (E := counting_externals)
              w d 0%nat true (Some demo_frame) 1%Q H0 H1) as (K1 & K2 & K3 & _).
  split; [exact H0|]. split; [exact H1|]. split; [exact K1|]. split; [exact K2|exact K3].
Defined.

Lemma unopened_capture_ends_stream_witness :
  let w := run demo_start [VideoFeed] in
  let r := gen_next w 0 false (Some demo_frame) 1 in
  frame_gens w !! 0%nat = Some GenCreated /\
  video_source_arg (current_video_source w) = Ok (CapIndex 0) /\
  snd r = StopIteration /\
  detection_history (fst r) = detection_history w.
Proof.
  intros w r.
  assert (H0 : frame_gens w !! 0%nat = Some GenCreated) by reflexivity.
  assert (H1 : video_source_arg (current_video_source w) = Ok (CapIndex 0))
    by reflexivity.
  destruct (unopened_capture_ends_stream (E := counting_externals)
              w 0%nat (CapIndex 0) (Some demo_frame) 1%Q H0 H1) as (K1 & _ & K2 & _).
  split; [exact H0|]. split; [exact H1|]. split; [exact K1|exact K2].
Defined.

Lemma absolute_source_path_kept_witness :
  let w := run demo_start [VideoFeed] in
  let w2 := fst (gen_next (set_source (JStr "/media/clip.mp4") w) 0 true
                          (Some demo_frame) 1) in
  startswith_slash "/media/clip.mp4" = true /\
  frame_gens w !! 0%nat = Some GenCreated /\
  exists c, cap_arg c = CapName "/media/clip.mp4" /\
    (frame_gens w2 !! 0%nat = Some (GenSuspended c) \/
     frame_gens w2 !! 0%nat = Some (GenFinished (Some c))).
Proof.
  intros w w2.
  assert (H0 : startswith_slash "/media/clip.mp4" = true) by reflexivity.
  assert (H1 : frame_gens w !! 0%nat = Some GenCreated) by reflexivity.
  destruct (absolute_source_path_kept (E := counting_externals)
              w "/media/clip.mp4" 0%nat true (Some demo_frame) 1%Q H0 H1)
    as (_ & _ & K).
  split; [exact H0|]. split; [exact H1|exact K].
Defined.

Lemma latest_sample_is_drawn_count_witness :
  let w' := set_history [(7%Q, 2)] (set_model 3 demo_start) in
  process_frame demo_start demo_frame 7 = Ok (w', (demo_frame, 2)) /\
  last (detection_history w') = Some (7%Q, 2) /\
  count_message (detection_history w') = "data: " +:+ py_str_int 2 +:+ LF +:+ LF.
Proof.
  intros w'.
  assert (H0 : process_frame demo_start demo_frame 7 = Ok (w', (demo_frame, 2)))
    by reflexivity.
  destruct (latest_sample_is_drawn_count (E := counting_externals)
              demo_start w' demo_frame demo_frame 7%Q 2 H0) as (K1 & K2 & _).
  split; [exact H0|]. split; [exact K1|exact K2].
Defined.

Lemma quiet_events_keep_count_witness :
  let w := run demo_start one_stream in
  let evs := [ChangeSource sample_body; GenNext 0 true None 2; VideoFeed; GenClose 1] in
  frames_yielded w evs = 0%nat /\
  detection_history (run w evs) = detection_history w.
Proof.
  intros w evs.
  assert (H0 : frames_yielded w evs = 0%nat) by reflexivity.
  destruct (quiet_events_keep_count (E := counting_externals) evs w H0) as [K _].
  split; [exact H0|exact K].
Defined.

Lemma validate_accepts_iff_witness :
  let good := disk_of demo_layout ["a.jpg"] in
  let bad := disk_of ["/w/dataset/train/images"; "/w/dataset/train/labels"] ["a.jpg"] in
  let file := {| disk_exists := fs_of demo_layout;
                 disk_listdir := fun _ => inr NotADirectory;
                 disk_read := fun _ => inl ([], None);
                 disk_open_w := fun _ => inl tt |} in
  validate_dataset_structure "/w" good = Ok (true, []) /\
  Forall (fun d => disk_exists good d = true) (required_dirs "/w") /\
  first_missing (disk_exists bad) (required_dirs "/w") = Some "/w/dataset/valid/images" /\
  validate_dataset_structure "/w" bad
  = Ok (false, ["Warning: Expected directory /w/dataset/valid/images not found"]) /\
  Forall (fun d => disk_exists file d = true) (required_dirs "/w") /\
  disk_listdir file (path_join (dataset_dir "/w") ["train"; "images"]) = inr NotADirectory /\
  validate_dataset_structure "/w" file = Raise (OSError NotADirectory).
Proof.
  intros good bad file.
  assert (H0 : validate_dataset_structure "/w" good = Ok (true, [])) by reflexivity.
  assert (H1 : first_missing (disk_exists bad) (required_dirs "/w")
               = Some "/w/dataset/valid/images") by reflexivity.
  assert (H2 : Forall (fun d => disk_exists file d = true) (required_dirs "/w"))
    by (repeat constructor).
  assert (H3 : disk_listdir file (path_join (dataset_dir "/w") ["train"; "images"])
               = inr NotADirectory) by reflexivity.
  destruct (validate_accepts_iff "/w" good) as (K1 & _).
  destruct (validate_accepts_iff "/w" bad) as (_ & _ & _ & _ & K2).
  destruct (validate_accepts_iff "/w" file) as (_ & _ & _ & K3 & _).
  split; [exact H0|]. split; [exact (proj1 (proj1 K1 H0))|]. split; [exact H1|].
  split; [exact (proj1 (K2 _ H1))|]. split; [exact H2|]. split; [exact H3|].
  apply K3. split; [exact H2|]. exists NotADirectory. split; [exact H3|reflexivity].
Defined.

Lemma prepared_layout_fails_validation_witness :
  let R := prepare_dataset "/w" demo_fs all_return demo_env (@List.rev string)
                           "/data" float_0_8 in
  let disk := {| disk_exists := fs_final R;
                 disk_listdir := fun _ => inl ["b.png"];
                 disk_read := fun _ => inl ([], None);
                 disk_open_w := fun _ => inl tt |} in
  (forall q, disk_exists disk q = fs_final R q) /\
  demo_fs (path_join (dataset_dir "/w") ["train"; "images"]) = false /\
  train_main "/w" disk
  = ExitStatus1 ["Warning: Expected directory /w/dataset/train/images not found"].
Proof.
  intros R disk.
  assert (H0 : forall q, disk_exists disk q = fs_final R q) by reflexivity.
  assert (H1 : demo_fs (path_join (dataset_dir "/w") ["train"; "images"]) = false)
    by reflexivity.
  destruct (prepared_layout_fails_validation "/w" demo_fs all_return demo_env
              (@List.rev string) "/data" float_0_8 disk H0 H1) as [_ K].
  split; [exact H0|]. split; [exact H1|exact K].
Defined.

Lemma class_names_spec_witness :
  let class_ids : gset Z := {[2]} ∪ {[0]} in
  class_ids <> ∅ /\
  (In 2 (map fst (class_names class_ids)) <-> 2 ∈ class_ids) /\
  (forall k v, In (k, v) (class_names class_ids) -> v = class_name k).
Proof.
  intros class_ids.
  assert (H0 : class_ids <> ∅).
  { intros H. apply (not_elem_of_empty (C := gset Z) 2). rewrite <- H.
    apply elem_of_union_l, elem_of_singleton. reflexivity. }
  destruct (class_names_spec class_ids) as (_ & _ & K1 & _ & K2 & _).
  split; [exact H0|]. split; [exact (K1 H0 2)|].
  intros k v H. exact (proj1 (K2 k v H)).
Defined.

Lemma yaml_without_labels_witness :
  let disk := disk_of ["/w/dataset"] ["notes.md"] in
  let bare := disk_of [] [] in
  let dir := path_join (dataset_dir "/w") ["train"; "labels"] in
  let path := path_join (dataset_dir "/w") ["dataset.yaml"] in
  disk_exists disk dir = false /\
  disk_exists disk (dataset_dir "/w") = true /\
  disk_open_w disk path = inl tt /\
  (exists y,
     create_dataset_yaml "/w" disk = Ok y /\
     cfg_names (yaml_config y) = [(0, "gunny_bag")] /\
     yaml_path y = path) /\
  disk_exists bare dir = false /\
  disk_exists bare (dataset_dir "/w") = false /\
  disk_open_w bare path = inr FileNotFound /\
  create_dataset_yaml "/w" bare = Raise (OSError FileNotFound).
Proof.
  intros disk bare dir path.
  assert (H0 : disk_exists disk dir = false) by reflexivity.
  assert (H1 : disk_exists disk (dataset_dir "/w") = true) by reflexivity.
  assert (H2 : disk_open_w disk path = inl tt) by reflexivity.
  assert (H3 : disk_exists bare dir = false) by reflexivity.
  assert (H4 : disk_exists bare (dataset_dir "/w") = false) by reflexivity.
  assert (H5 : disk_open_w bare path = inr FileNotFound) by reflexivity.
  destruct (yaml_without_labels "/w" disk) as [_ K].
  destruct (K (or_introl H0)) as (_ & _ & K1).
  destruct (yaml_without_labels "/w" bare) as [_ K'].
  destruct (K' (or_introl H3)) as (K2 & _).
  split; [exact H0|]. split; [exact H1|]. split; [exact H2|].
  split; [exact (K1 H1 H2)|]. split; [exact H3|]. split; [exact H4|].
  split; [exact H5|exact (K2 _ H5)].
Defined.

Lemma best_model_copies_witness :
  let disk := disk_of [] [] in
  disk_exists disk (best_model_path "/srv/app") = false /\
  fst (save_best_model "/srv/app" disk)
  = [Copy "/srv/app/runs/detect/a/weights/best.pt" "/srv/app/model" "best.pt";
     Copy "/srv/app/runs/detect/b/weights/best.pt" "/srv/app/model" "best.pt"].
Proof.
  intros disk.
  assert (H0 : disk_exists disk (best_model_path "/srv/app") = false) by reflexivity.
  destruct (best_model_copies "/srv/app" disk) as (_ & K & _).
  split; [exact H0|]. exact (proj1 (K H0)).
Defined.

End MoreInstances.


Lemma ratio_out_of_range_witness :
  let R1 := prepare_dataset "/w" demo_fs all_return demo_env (@List.rev string)
                            "/data" float_1_5 in
  let R2 := prepare_dataset "/w" demo_fs all_return demo_env (@List.rev string)
                            "/data" float_minus_2 in
  let files := List.rev (image_files demo_env "/data") in
  quiet all_return /\ Z.of_nat (length files) < 2 ^ 53 /\
  int_le_float 1 float_1_5 = true /\ float_le_int float_minus_2 (-1) = true /\
  (exists P, outcome R1 = Ok P /\ train_images P = files /\ val_images P = []) /\
  (exists P, outcome R2 = Ok P /\ train_images P = [] /\ val_images P = files).
Proof.
  intros R1 R2 files.
  assert (H0 : quiet all_return) by (intros done op; reflexivity).
  assert (H1 : Z.of_nat (length files) < 2 ^ 53) by (vm_compute; reflexivity).
  assert (H2 : int_le_float 1 float_1_5 = true) by reflexivity.
  assert (H3 : float_le_int float_minus_2 (-1) = true) by reflexivity.
  destruct (ratio_out_of_range "/w" demo_fs all_return demo_env (@List.rev string)
              "/data" float_1_5 H0 H1) as [K1 _].
  destruct (ratio_out_of_range "/w" demo_fs all_return demo_env (@List.rev string)
              "/data" float_minus_2 H0 H1) as [_ K2].
  specialize (K1 H2). specialize (K2 H3). fold R1 in K1. fold R2 in K2.
  split; [exact H0|]. split; [exact H1|]. split; [exact H2|]. split; [exact H3|].
  split.
  - destruct (outcome R1) as [P|e] eqn:Ho; [|vm_compute in Ho; discriminate Ho].
    exists P. split; [reflexivity|exact K1].
  - destruct (outcome R2) as [P|e] eqn:Ho; [|vm_compute in Ho; discriminate Ho].
    exists P. split; [reflexivity|exact K2].
Defined.


Lemma images_keep_entry_names_witness :
  has_magic "/data" = false /\
  Forall (fun name => contains_slash name = false) demo_listing /\
  map basename (image_files demo_env "/data")
  = ["a.jpg"; "e.jpg"; "c.jpeg"; "b.png"].
Proof.
  assert (H0 : has_magic "/data" = false) by reflexivity.
  assert (H1 : Forall (fun name => contains_slash name = false) demo_listing)
    by (repeat constructor).
  split; [exact H0|]. split; [exact H1|].
  exact (images_keep_entry_names demo_env "/data" H0 H1).
Defined.

Lemma label_named_after_stem_witness :
  contains_slash "photo.v2" = false /\
  existsb (fun x => negb (Ascii.eqb x "."%char)) (list_ascii_of_string "photo.v2") = true /\
  existsb (Ascii.eqb "."%char) (list_ascii_of_string "png") = false /\
  contains_slash "png" = false /\
  label_name (path_join "/data" ["photo.v2" +:+ "." +:+ "png"]) = "photo.v2" +:+ ".txt".
Proof.
  destruct (label_named_after_stem "/data" "photo.v2" "png"
              eq_refl eq_refl eq_refl eq_refl) as [_ K].
  repeat split; exact K.
Defined.

Lemma trained_model_is_served_witness :
  let disk := disk_of ["/srv/app/dataset"] [] in
  let no_yaml := {| yaml_path := "";
                    yaml_config := {| cfg_path := ""; cfg_train := ""; cfg_val := "";
                                      cfg_test := ""; cfg_names := [] |};
                    yaml_printed := [] |} in
  let r := result_get {| trained_yaml := no_yaml; trained_ops := [];
                         trained_printed := [] |}
                      (train_model (T := demo_train_externals) "/srv/app" disk) in
  let fs' := apply_ops (fs_of []) (trained_ops r) in
  train_model (T := demo_train_externals) "/srv/app" disk = Ok r /\
  trained_ops r <> [] /\
  MODEL_PATH (startup (E := counting_externals) fs') = "/srv/app/model/best.pt" /\
  stdout (startup (E := counting_externals) fs')
  = ["Using custom model: /srv/app/model/best.pt"].
Proof.
  intros disk no_yaml r fs'.
  assert (H0 : train_model (T := demo_train_externals) "/srv/app" disk = Ok r)
    by (vm_compute; reflexivity).
  assert (H1 : trained_ops r <> []) by (vm_compute; discriminate).
  destruct (trained_model_is_served (E := counting_externals) (T := demo_train_externals)
              disk (fs_of []) r H0 H1) as (_ & _ & K1 & K2 & _).
  split; [exact H0|]. split; [exact H1|]. split; [exact K1|exact K2].
Defined.

Section LabelInstances.
#[local] Existing Instance demo_train_externals.

Lemma yaml_fails_iff_bad_label_witness :
  let disk := {| disk_exists := fun _ => true;
                 disk_listdir := fun _ => inl ["a.txt"];
                 disk_read := fun _ => inl (["1"; "x y"], None);
                 disk_open_w := fun _ => inl tt |} in
  let dir := path_join (dataset_dir "/w") ["train"; "labels"] in
  labels_readable disk dir /\
  disk_exists disk dir = true /\
  (exists line, label_line disk dir line /\ bad_line line) /\
  create_dataset_yaml "/w" disk = Raise ValueError /\
  train_model "/w" disk = Raise ValueError.
Proof.
  intros disk dir.
  assert (H0 : labels_readable disk dir).
  { exists ["a.txt"]. split; [reflexivity|].
    intros label_file _ _. exists ["1"; "x y"]. reflexivity. }
  assert (H1 : disk_exists disk dir = true) by reflexivity.
  assert (H2 : exists line, label_line disk dir line /\ bad_line line).
  { exists "x y". split.
    - exists ["a.txt"]. split; [reflexivity|].
      exists "a.txt", ["1"; "x y"], None.
      split; [left; reflexivity|]. split; [reflexivity|]. split; [reflexivity|].
      right. left. reflexivity.
    - exists "x y", []. split; reflexivity. }
  destruct (yaml_fails_iff_bad_label "/w" disk) as (_ & K1 & K2).
  pose proof (proj2 (K1 H0) (conj H1 H2)) as K.
  split; [exact H0|]. split; [exact H1|]. split; [exact H2|].
  split; [exact K|exact (K2 _ K)].
Defined.

Lemma yaml_names_are_label_classes_witness :
  let disk := {| disk_exists := fun _ => true;
                 disk_listdir := fun _ => inl ["a.txt"; "readme.md"];
                 disk_read := fun _ => inl (["2"; ""; "0"; "2"], None);
                 disk_open_w := fun _ => inl tt |} in
  let y := result_get {| yaml_path := "";
                         yaml_config := {| cfg_path := ""; cfg_train := ""; cfg_val := "";
                                           cfg_test := ""; cfg_names := [] |};
                         yaml_printed := [] |}
                      (create_dataset_yaml "/w" disk) in
  create_dataset_yaml "/w" disk = Ok y /\
  In (2, class_name 2) (cfg_names (yaml_config y)) /\
  cfg_names (yaml_config y) = [(0, "gunny_bag"); (2, "class_2")].
Proof.
  intros disk y.
  assert (H0 : create_dataset_yaml "/w" disk = Ok y) by (vm_compute; reflexivity).
  destruct (yaml_names_are_label_classes "/w" disk y H0) as [K _].
  split; [exact H0|]. split.
  - apply K. split; [reflexivity|].
    exists "2". split.
    + exists ["a.txt"; "readme.md"]. split; [reflexivity|].
      exists "a.txt", ["2"; ""; "0"; "2"], None.
      split; [left; reflexivity|]. split; [reflexivity|]. split; [reflexivity|].
      left. reflexivity.
    + exists "2", []. split; reflexivity.
  - vm_compute. reflexivity.
Defined.

End LabelInstances.
